(** * producer_put_events.py: the sample event publisher

    A shallow embedding of [src/producer_put_events.py] and of the parts of the
    Python runtime it calls ([str], [uuid.uuid4], [json.dumps], [json.loads],
    [repr], [print]), followed by the properties of the publisher.

    Conventions.
    - A Python [str] is the list of its code points ([str := list Z]).  The
      literals of the script are written as in the source and decoded from
      UTF-8 by [u].
    - An [int] is a [Z]; a [float] is a binary64 value of
      [Stdlib.Floats.SpecFloat].
    - Everything outside the script (random source, clock, event-bus client,
      Unicode database) is an oracle of the record [env]; what the script
      changes (objects, standard output, the requests sent) is the record
      [world]. *)

From Stdlib Require Import ZArith List String Ascii Bool Lia.
From Stdlib Require Import Floats.SpecFloat.
Import ListNotations.

#[local] Set Warnings "-register-all".
Local Open Scope Z_scope.

(* ================================================================== *)
(** * Part I. Definitions *)
(* ================================================================== *)

(** ** Strings *)

Module Str.

(** A Python [str]: its code points, in order. *)
Definition str := list Z.

Definition bytes_of (s : string) : list Z :=
  map (fun a => Z.of_N (N_of_ascii a)) (list_ascii_of_string s).

(** Continuation byte of a UTF-8 sequence: its six payload bits. *)
Definition cont (b : Z) : Z := Z.land b 63.

(** UTF-8 decoding of a source literal.  A truncated sequence at the end of
    the input decodes to U+FFFD. *)
Fixpoint utf8_decode (l : list Z) : str :=
  match l with
  | [] => []
  | b :: t =>
      if b <? 128 then b :: utf8_decode t
      else if b <? 224 then
        match t with
        | b1 :: t1 => (Z.shiftl (Z.land b 31) 6 + cont b1) :: utf8_decode t1
        | _ => [65533]
        end
      else if b <? 240 then
        match t with
        | b1 :: b2 :: t2 =>
            (Z.shiftl (Z.land b 15) 12 + Z.shiftl (cont b1) 6 + cont b2)
              :: utf8_decode t2
        | _ => [65533]
        end
      else
        match t with
        | b1 :: b2 :: b3 :: t3 =>
            (Z.shiftl (Z.land b 7) 18 + Z.shiftl (cont b1) 12
             + Z.shiftl (cont b2) 6 + cont b3) :: utf8_decode t3
        | _ => [65533]
        end
  end.

(** The [str] denoted by a literal of the script. *)
Definition u (s : string) : str := utf8_decode (bytes_of s).

(** [s * n] for a string [s] and a count [n]. *)
Fixpoint repeat_str (s : str) (n : nat) : str :=
  match n with
  | O => []
  | S n' => s ++ repeat_str s n'
  end.

(** [sep.join(parts)]. *)
Fixpoint join (sep : str) (parts : list str) : str :=
  match parts with
  | [] => []
  | [p] => p
  | p :: rest => p ++ sep ++ join sep rest
  end.

(** [c.upper()] on one character: the ASCII letters; the script applies it to
    hexadecimal digits only. *)
Definition upper_char (c : Z) : Z :=
  if (97 <=? c) && (c <=? 122) then c - 32 else c.

Definition upper (s : str) : str := map upper_char s.

(** The lower-case hexadecimal digit of a value in 0..15. *)
Definition hexdigit (d : Z) : Z := if d <? 10 then 48 + d else 87 + d.

(** The [k] low hexadecimal digits of [x], most significant first. *)
Fixpoint hex_digits (k : nat) (x : Z) : str :=
  match k with
  | O => []
  | S k' => hexdigit ((x / 16 ^ Z.of_nat k') mod 16) :: hex_digits k' x
  end.

(** Number of hexadecimal digits of a non-negative integer. *)
Definition hex_width (x : Z) : nat :=
  if x =? 0 then 1%nat else Z.to_nat (Z.log2 x / 4 + 1).

(** ['%032x' % x] for [0 <= x]: at least 32 digits, zero padded. *)
Definition format_032x (x : Z) : str := hex_digits (Nat.max 32 (hex_width x)) x.

(** The decimal digits of a positive number, by [fuel] divisions. *)
Fixpoint dec_digits (fuel : nat) (x : Z) (acc : str) : str :=
  match fuel with
  | O => acc
  | S f =>
      let acc' := (48 + x mod 10) :: acc in
      if x <? 10 then acc' else dec_digits f (x / 10) acc'
  end.

(** [str(x)] for an [int]. *)
Definition str_of_int (x : Z) : str :=
  if x <? 0 then 45 :: dec_digits (Z.to_nat (Z.log2 (- x)) + 1) (- x) []
  else dec_digits (Z.to_nat (Z.log2 x) + 1) x [].

Definition eqb (a b : str) : bool :=
  if list_eq_dec Z.eq_dec a b then true else false.

End Str.
Import Str.

(** ** uuid.uuid4 *)

Module Uuid.

(** [UUID(bytes=..., version=4).int]: [r] is [int.from_bytes] of the 16 random
    bytes, read modulo [2^128]; the variant and version bits are then set as
    [UUID.__init__] does. *)
Definition uuid4_int (r : Z) : Z :=
  let i := r mod 2 ^ 128 in
  let i := Z.land i (Z.lnot (Z.shiftl 49152 48)) in
  let i := Z.lor i (Z.shiftl 32768 48) in
  let i := Z.land i (Z.lnot (Z.shiftl 61440 64)) in
  Z.lor i (Z.shiftl 4 76).

(** [uuid.uuid4().hex] *)
Definition uuid4_hex (r : Z) : str := format_032x (uuid4_int r).

End Uuid.
Import Uuid.

(** ** float: binary64 values, [float(text)] and [repr] *)

Module Float.

Definition prec : Z := 53.
Definition emax : Z := 1024.

(** The binary64 value nearest to [n / d] (ties to even), for [0 <= n] and
    [0 < d]. *)
Definition float_of_ratio (neg : bool) (n d : Z) : spec_float :=
  if n =? 0 then S754_zero neg
  else
    let '(q, e, l) := SFdiv_core_binary prec emax n 0 d 0 in
    binary_round_aux prec emax neg q e l.

(** [float] of the decimal [m * 10^e10], correctly rounded: what [float(text)]
    and a float literal of the source denote. *)
Definition float_of_decimal (neg : bool) (m e10 : Z) : spec_float :=
  if 0 <=? e10 then float_of_ratio neg (m * 10 ^ e10) 1
  else float_of_ratio neg m (10 ^ (- e10)).

Definition sf_eqb (a b : spec_float) : bool :=
  match a, b with
  | S754_zero s, S754_zero t => Bool.eqb s t
  | S754_infinity s, S754_infinity t => Bool.eqb s t
  | S754_nan, S754_nan => true
  | S754_finite s m e, S754_finite t m' e' =>
      Bool.eqb s t && Pos.eqb m m' && (e =? e')
  | _, _ => false
  end.

(** [n / d] divided by [10^s], as a fraction. *)
Definition scale10 (n d s : Z) : Z * Z :=
  if 0 <=? s then (n, d * 10 ^ s) else (n * 10 ^ (- s), d).

Definition ge_pow10 (n d q : Z) : bool :=
  let '(n', d') := scale10 n d q in d' <=? n'.

Fixpoint adjust_up (fuel : nat) (n d p : Z) : Z :=
  match fuel with
  | O => p
  | S f => if ge_pow10 n d (p + 1) then adjust_up f n d (p + 1) else p
  end.

(** [floor (log10 (n / d))], from an under-estimate by the binary logarithm. *)
Definition log10_floor (n d : Z) : Z :=
  let est := (Z.log2 n - Z.log2 d - 1) * 30102 / 100000 - 1 in
  adjust_up 4 n d est.

(** The decimal of [k] significant digits that reads back as the float
    [m * 2^e = n / d], if there is one: of the two neighbours the one that
    reads back, the nearer when both do. *)
Definition candidate (m : positive) (e n d p k : Z) : option (Z * Z) :=
  let s := p - k + 1 in
  let '(n', d') := scale10 n d s in
  let lo := n' / d' in
  let r := n' mod d' in
  let x := S754_finite false m e in
  let ok_lo := sf_eqb (float_of_decimal false lo s) x in
  let ok_hi := sf_eqb (float_of_decimal false (lo + 1) s) x in
  let pick_hi := (d' <? 2 * r) || ((d' =? 2 * r) && Z.odd lo) in
  if ok_lo && ok_hi then Some (if pick_hi then lo + 1 else lo, s)
  else if ok_lo then Some (lo, s)
  else if ok_hi then Some (lo + 1, s)
  else None.

Fixpoint shortest (fuel : nat) (m : positive) (e n d p k : Z) : Z * Z :=
  match fuel with
  | O => (let '(n', d') := scale10 n d (p - 16) in n' / d', p - 16)
  | S f =>
      match candidate m e n d p k with
      | Some c => c
      | None => shortest f m e n d p (k + 1)
      end
  end.

Fixpoint strip_zeros (fuel : nat) (c s : Z) : Z * Z :=
  match fuel with
  | O => (c, s)
  | S f =>
      if (c mod 10 =? 0) && (0 <? c) then strip_zeros f (c / 10) (s + 1)
      else (c, s)
  end.

(** The shortest decimal [c * 10^s] that reads back as [m * 2^e]: the digits
    [repr] prints. *)
Definition shortest_digits (m : positive) (e : Z) : Z * Z :=
  let '(n, d) :=
    if 0 <=? e then (Z.pos m * 2 ^ e, 1) else (Z.pos m, 2 ^ (- e)) in
  let p := log10_floor n d in
  let '(c, s) := shortest 17 m e n d p 1 in
  strip_zeros 17 c s.

Definition zeros (n : Z) : str := repeat 48 (Z.to_nat n).

Definition two_digits (x : Z) : str :=
  if x <? 10 then 48 :: str_of_int x else str_of_int x.

(** The layout of [repr]: exponent notation when the decimal point falls
    outside (-4, 16], a fractional part always. *)
Definition format_r (c s : Z) : str :=
  let ds := str_of_int c in
  let nd := Z.of_nat (List.length ds) in
  let decpt := nd + s in
  if (decpt <=? -4) || (16 <? decpt) then
    let mant := match ds with
                | [] => []
                | d0 :: [] => [d0]
                | d0 :: rest => d0 :: 46 :: rest
                end in
    let ex := decpt - 1 in
    mant ++ [101]
      ++ (if ex <? 0 then 45 :: two_digits (- ex) else 43 :: two_digits ex)
  else if decpt <=? 0 then [48; 46] ++ zeros (- decpt) ++ ds
  else if nd <=? decpt then ds ++ zeros (decpt - nd) ++ [46; 48]
  else firstn (Z.to_nat decpt) ds ++ [46] ++ skipn (Z.to_nat decpt) ds.

(** [float.__repr__] *)
Definition float_repr (x : spec_float) : str :=
  match x with
  | S754_zero s => (if s then [45] else []) ++ [48; 46; 48]
  | S754_infinity s => (if s then [45] else []) ++ [105; 110; 102]
  | S754_nan => [110; 97; 110]
  | S754_finite s m e =>
      let '(c, sc) := shortest_digits m e in
      (if s then [45] else []) ++ format_r c sc
  end.

End Float.
Import Float.

(** ** Values and exceptions *)

(** The objects the script builds: JSON-like data, and [PObject cls] for an
    object of any other class (a [set], [bytes], ...), which [json.dumps]
    refuses.  A [dict] keeps its insertion order; its keys are [str]. *)
Inductive pyval : Type :=
| PNone
| PBool (b : bool)
| PInt (z : Z)
| PFloat (f : spec_float)
| PStr (s : str)
| PList (l : list pyval)
| PDict (d : list (str * pyval))
| PObject (cls : str).

(** What a statement can raise.  [Exn] and [KeyError] are instances of
    [Exception]: [Exn] has its class name and [str(e)]; a [KeyError] keeps
    the missing key, as [str(e)] is then the [repr] of the key.
    [KeyboardInterrupt] and [SystemExit] derive from [BaseException] only;
    [SystemExit] has its integer exit code. *)
Inductive exn : Type :=
| Exn (cls : str) (msg : str)
| KeyError (key : str)
| KeyboardInterrupt
| SystemExit (code : Z).

(** [isinstance(e, Exception)] *)
Definition is_Exception (e : exn) : bool :=
  match e with
  | Exn _ _ | KeyError _ => true
  | KeyboardInterrupt | SystemExit _ => false
  end.

(** The outcome of a statement: an exception raised, or a value. *)
Definition result (A : Type) : Type := (exn + A)%type.

(** [d[k]] on a dict with [str] keys. *)
Fixpoint dict_get {A : Type} (k : str) (d : list (str * A)) : option A :=
  match d with
  | [] => None
  | (k', v) :: rest => if Str.eqb k k' then Some v else dict_get k rest
  end.

(** [d[k] = v]: an existing key keeps its place. *)
Fixpoint dict_set {A : Type} (k : str) (v : A) (d : list (str * A))
  : list (str * A) :=
  match d with
  | [] => [(k, v)]
  | (k', v') :: rest =>
      if Str.eqb k k' then (k, v) :: rest else (k', v') :: dict_set k v rest
  end.

(** [dict(pairs)] *)
Definition dict_of_pairs {A : Type} (pairs : list (str * A)) : list (str * A) :=
  fold_left (fun d kv => dict_set (fst kv) (snd kv) d) pairs [].

(** ** Induction on values *)

Section PyvalInd.

Variable P : pyval -> Prop.
Hypothesis H_none : P PNone.
Hypothesis H_bool : forall b, P (PBool b).
Hypothesis H_int : forall z, P (PInt z).
Hypothesis H_float : forall f, P (PFloat f).
Hypothesis H_str : forall s, P (PStr s).
Hypothesis H_list : forall l, Forall P l -> P (PList l).
Hypothesis H_dict : forall d, Forall (fun kv => P (snd kv)) d -> P (PDict d).
Hypothesis H_object : forall cls, P (PObject cls).

Fixpoint pyval_nested_ind (v : pyval) : P v :=
  match v with
  | PNone => H_none
  | PBool b => H_bool b
  | PInt z => H_int z
  | PFloat f => H_float f
  | PStr s => H_str s
  | PList l =>
      H_list l
        ((fix go (l : list pyval) : Forall P l :=
            match l with
            | [] => Forall_nil P
            | x :: r => Forall_cons x (pyval_nested_ind x) (go r)
            end) l)
  | PDict d =>
      H_dict d
        ((fix go (d : list (str * pyval)) : Forall (fun kv => P (snd kv)) d :=
            match d with
            | [] => Forall_nil _
            | (k, x) :: r =>
                Forall_cons (P := fun kv => P (snd kv)) (k, x)
                  (pyval_nested_ind x) (go r)
            end) d)
  | PObject cls => H_object cls
  end.

End PyvalInd.

(** ** json.dumps and json.loads, with their default options *)

Module Json.

(** [json.encoder.py_encode_basestring_ascii] on one character. *)
Definition encode_char (c : Z) : str :=
  if c =? 34 then [92; 34]
  else if c =? 92 then [92; 92]
  else if c =? 10 then [92; 110]
  else if c =? 13 then [92; 114]
  else if c =? 9 then [92; 116]
  else if c =? 8 then [92; 98]
  else if c =? 12 then [92; 102]
  else if (32 <=? c) && (c <=? 126) then [c]
  else if c <? 65536 then 92 :: 117 :: hex_digits 4 c
  else
    let v := c - 65536 in
    let s1 := Z.lor 55296 (Z.land (Z.shiftr v 10) 1023) in
    let s2 := Z.lor 56320 (Z.land v 1023) in
    (92 :: 117 :: hex_digits 4 s1) ++ (92 :: 117 :: hex_digits 4 s2).

Definition encode_str (s : str) : str := 34 :: flat_map encode_char s ++ [34].

(** [float.__repr__] as the encoder uses it, with the three constants. *)
Definition encode_float (f : spec_float) : str :=
  match f with
  | S754_nan => u "NaN"
  | S754_infinity false => u "Infinity"
  | S754_infinity true => u "-Infinity"
  | _ => float_repr f
  end.

Definition not_serializable (cls : str) : exn :=
  Exn (u "TypeError")
      (u "Object of type " ++ cls ++ u " is not JSON serializable").

(** [json.dumps(v)]: separators [", "] and [": "], [ensure_ascii=True],
    [allow_nan=True]; a [TypeError] at the first object that is not JSON
    data. *)
Fixpoint dumps (v : pyval) : result str :=
  match v with
  | PNone => inr (u "null")
  | PBool true => inr (u "true")
  | PBool false => inr (u "false")
  | PInt z => inr (str_of_int z)
  | PFloat f => inr (encode_float f)
  | PStr s => inr (encode_str s)
  | PList l =>
      let fix items (l : list pyval) : result (list str) :=
        match l with
        | [] => inr []
        | x :: rest =>
            match dumps x with
            | inl e => inl e
            | inr sx =>
                match items rest with
                | inl e => inl e
                | inr srest => inr (sx :: srest)
                end
            end
        end in
      match items l with
      | inl e => inl e
      | inr parts => inr ([91] ++ join (u ", ") parts ++ [93])
      end
  | PDict d =>
      let fix members (d : list (str * pyval)) : result (list str) :=
        match d with
        | [] => inr []
        | (k, x) :: rest =>
            match dumps x with
            | inl e => inl e
            | inr sx =>
                match members rest with
                | inl e => inl e
                | inr srest => inr ((encode_str k ++ u ": " ++ sx) :: srest)
                end
            end
        end in
      match members d with
      | inl e => inl e
      | inr parts => inr ([123] ++ join (u ", ") parts ++ [125])
      end
  | PObject cls => inl (not_serializable cls)
  end.

(** The two loops of [dumps], named. *)
Fixpoint dumps_items (l : list pyval) : result (list str) :=
  match l with
  | [] => inr []
  | x :: rest =>
      match dumps x with
      | inl e => inl e
      | inr sx =>
          match dumps_items rest with
          | inl e => inl e
          | inr srest => inr (sx :: srest)
          end
      end
  end.

Fixpoint dumps_members (d : list (str * pyval)) : result (list str) :=
  match d with
  | [] => inr []
  | (k, x) :: rest =>
      match dumps x with
      | inl e => inl e
      | inr sx =>
          match dumps_members rest with
          | inl e => inl e
          | inr srest => inr ((encode_str k ++ u ": " ++ sx) :: srest)
          end
      end
  end.

(** JSON data: no object of another class anywhere inside. *)
Fixpoint serializable (v : pyval) : bool :=
  match v with
  | PList l => forallb serializable l
  | PDict d =>
      forallb (fun kv => match kv with (_, x) => serializable x end) d
  | PObject _ => false
  | _ => true
  end.

(** The decoder.  [None] stands for a [JSONDecodeError]. *)

Definition is_ws (c : Z) : bool :=
  (c =? 32) || (c =? 9) || (c =? 10) || (c =? 13).

Fixpoint skip_ws (l : str) : str :=
  match l with
  | c :: t => if is_ws c then skip_ws t else l
  | [] => []
  end.

Definition is_digit (c : Z) : bool := (48 <=? c) && (c <=? 57).

Definition hexval (c : Z) : option Z :=
  if is_digit c then Some (c - 48)
  else if (97 <=? c) && (c <=? 102) then Some (c - 87)
  else if (65 <=? c) && (c <=? 70) then Some (c - 55)
  else None.

(** The four hexadecimal digits of a [\uXXXX] escape. *)
Definition hex4 (a b c d : Z) : option Z :=
  match hexval a, hexval b, hexval c, hexval d with
  | Some x, Some y, Some z, Some w => Some (((x * 16 + y) * 16 + z) * 16 + w)
  | _, _, _, _ => None
  end.

(** The character of a one-letter escape. *)
Definition backslash (c : Z) : option Z :=
  if c =? 34 then Some 34
  else if c =? 92 then Some 92
  else if c =? 47 then Some 47
  else if c =? 98 then Some 8
  else if c =? 102 then Some 12
  else if c =? 110 then Some 10
  else if c =? 114 then Some 13
  else if c =? 116 then Some 9
  else None.

Definition cons_char (c : Z) (r : option (str * str)) : option (str * str) :=
  match r with
  | Some (s, rest) => Some (c :: s, rest)
  | None => None
  end.

(** [scanstring], strict: the input starts after the opening quote; the
    result is the string and what follows its closing quote.  A high
    surrogate escape directly followed by a low surrogate escape is one
    character. *)
Fixpoint scanstring (l : str) : option (str * str) :=
  match l with
  | [] => None
  | c :: t =>
      if c =? 34 then Some ([], t)
      else if c =? 92 then
        match t with
        | [] => None
        | e :: t1 =>
            if e =? 117 then
              match t1 with
              | a :: b :: c1 :: d :: t2 =>
                  match hex4 a b c1 d with
                  | None => None
                  | Some uni =>
                      if (55296 <=? uni) && (uni <=? 56319) then
                        match t2 with
                        | bs :: uu :: a2 :: b2 :: c2 :: d2 :: t3 =>
                            if (bs =? 92) && (uu =? 117) then
                              match hex4 a2 b2 c2 d2 with
                              | None => None
                              | Some uni2 =>
                                  if (56320 <=? uni2) && (uni2 <=? 57343) then
                                    cons_char
                                      (65536
                                       + Z.lor (Z.shiftl (uni - 55296) 10)
                                               (uni2 - 56320))
                                      (scanstring t3)
                                  else cons_char uni (scanstring t2)
                              end
                            else cons_char uni (scanstring t2)
                        | _ => cons_char uni (scanstring t2)
                        end
                      else cons_char uni (scanstring t2)
                  end
              | _ => None
              end
            else
              match backslash e with
              | Some ch => cons_char ch (scanstring t1)
              | None => None
              end
        end
      else if c <? 32 then None
      else cons_char c (scanstring t)
  end.

(** The longest prefix of digits, and the rest. *)
Fixpoint span_digits (l : str) : str * str :=
  match l with
  | c :: t =>
      if is_digit c then let '(ds, r) := span_digits t in (c :: ds, r)
      else ([], l)
  | [] => ([], [])
  end.

(** [int(digits)] *)
Definition int_of_digits (ds : str) : Z :=
  fold_left (fun acc c => acc * 10 + (c - 48)) ds 0.

(** The integer part [0|[1-9]\d*] of a number. *)
Definition scan_int (l : str) : option (str * str) :=
  match l with
  | c :: t =>
      if c =? 48 then Some ([48], t)
      else if is_digit c then let '(ds, r) := span_digits t in Some (c :: ds, r)
      else None
  | [] => None
  end.

(** The fraction [(\.\d+)?]: its digits, empty when the group does not
    match. *)
Definition scan_frac (l : str) : str * str :=
  match l with
  | c :: t =>
      if c =? 46 then
        match span_digits t with
        | ([], _) => ([], l)
        | (ds, r) => (ds, r)
        end
      else ([], l)
  | [] => ([], [])
  end.

(** The exponent [([eE][-+]?\d+)?]: its value when the group matches. *)
Definition scan_exp (l : str) : option Z * str :=
  match l with
  | c :: t =>
      if (c =? 101) || (c =? 69) then
        let '(neg, t') :=
          match t with
          | s :: t1 =>
              if s =? 45 then (true, t1)
              else if s =? 43 then (false, t1) else (false, t)
          | [] => (false, t)
          end in
        match span_digits t' with
        | ([], _) => (None, l)
        | (ds, r) =>
            (Some (if neg then - int_of_digits ds else int_of_digits ds), r)
        end
      else (None, l)
  | [] => (None, [])
  end.

(** A number: an [int] when it has neither fraction nor exponent, else the
    [float] of its text. *)
Definition scan_number (l : str) : option (pyval * str) :=
  let '(neg, l1) :=
    match l with
    | c :: t => if c =? 45 then (true, t) else (false, l)
    | [] => (false, l)
    end in
  match scan_int l1 with
  | None => None
  | Some (ip, l2) =>
      let '(fp, l3) := scan_frac l2 in
      let '(ex, l4) := scan_exp l3 in
      match fp, ex with
      | [], None =>
          Some (PInt (if neg then - int_of_digits ip else int_of_digits ip), l4)
      | _, _ =>
          let e10 := match ex with Some e => e | None => 0 end in
          Some (PFloat (float_of_decimal neg (int_of_digits (ip ++ fp))
                          (e10 - Z.of_nat (List.length fp))), l4)
      end
  end.

(** [l] starts with the characters of [w]: the rest of [l]. *)
Fixpoint strip_prefix (w l : str) : option str :=
  match w with
  | [] => Some l
  | c :: w' =>
      match l with
      | c' :: l' => if c =? c' then strip_prefix w' l' else None
      | [] => None
      end
  end.

Definition scan_word (w : str) (v : pyval) (l : str) : option (pyval * str) :=
  match strip_prefix w l with
  | Some r => Some (v, r)
  | None => None
  end.

(** [scan_once] with the array and object loops of [JSONArray] and
    [JSONObject]; [fuel] bounds the number of nested calls. *)
Fixpoint scan_once (fuel : nat) (l : str) : option (pyval * str) :=
  match fuel with
  | O => None
  | S f =>
      match l with
      | [] => None
      | c :: t =>
          if c =? 34 then
            match scanstring t with
            | Some (s, r) => Some (PStr s, r)
            | None => None
            end
          else if c =? 123 then
            match skip_ws t with
            | c1 :: t1 =>
                if c1 =? 125 then Some (PDict [], t1)
                else if c1 =? 34 then
                  match object_items f t1 with
                  | Some (pairs, r) => Some (PDict (dict_of_pairs pairs), r)
                  | None => None
                  end
                else None
            | [] => None
            end
          else if c =? 91 then
            match skip_ws t with
            | c1 :: t1 =>
                if c1 =? 93 then Some (PList [], t1)
                else
                  match array_items f (c1 :: t1) with
                  | Some (vs, r) => Some (PList vs, r)
                  | None => None
                  end
            | [] => None
            end
          else if c =? 110 then scan_word (u "null") PNone l
          else if c =? 116 then scan_word (u "true") (PBool true) l
          else if c =? 102 then scan_word (u "false") (PBool false) l
          else
            match scan_number l with
            | Some r => Some r
            | None =>
                if c =? 78 then scan_word (u "NaN") (PFloat S754_nan) l
                else if c =? 73 then
                  scan_word (u "Infinity") (PFloat (S754_infinity false)) l
                else if c =? 45 then
                  scan_word (u "-Infinity") (PFloat (S754_infinity true)) l
                else None
            end
      end
  end

with array_items (fuel : nat) (l : str) : option (list pyval * str) :=
  match fuel with
  | O => None
  | S f =>
      match scan_once f l with
      | None => None
      | Some (v, r) =>
          match skip_ws r with
          | c :: r1 =>
              if c =? 93 then Some ([v], r1)
              else if c =? 44 then
                match array_items f (skip_ws r1) with
                | Some (vs, r2) => Some (v :: vs, r2)
                | None => None
                end
              else None
          | [] => None
          end
      end
  end

with object_items (fuel : nat) (l : str) : option (list (str * pyval) * str) :=
  match fuel with
  | O => None
  | S f =>
      match scanstring l with
      | None => None
      | Some (k, r) =>
          match skip_ws r with
          | c :: r1 =>
              if c =? 58 then
                match scan_once f (skip_ws r1) with
                | None => None
                | Some (v, r2) =>
                    match skip_ws r2 with
                    | c2 :: r3 =>
                        if c2 =? 125 then Some ([(k, v)], r3)
                        else if c2 =? 44 then
                          match skip_ws r3 with
                          | q :: r4 =>
                              if q =? 34 then
                                match object_items f r4 with
                                | Some (kvs, r5) => Some ((k, v) :: kvs, r5)
                                | None => None
                                end
                              else None
                          | [] => None
                          end
                        else None
                    | [] => None
                    end
                end
              else None
          | [] => None
          end
      end
  end.

(** [json.loads(s)]: one value, white space around it, nothing else.  The
    fuel is the length of the text plus one, which no nesting of a text of
    that length exhausts. *)
Definition loads (s : str) : option pyval :=
  match scan_once (S (List.length s)) (skip_ws s) with
  | Some (v, r) =>
      match skip_ws r with
      | [] => Some v
      | _ => None
      end
  | None => None
  end.

End Json.
Import Json.

(** ** repr of the service's reply *)

Module Repr.

(** [repr] of one character inside the quotes [quote]; [printable] is
    [str.isprintable] on the characters above U+007F (the Unicode
    database). *)
Definition repr_char (printable : Z -> bool) (quote c : Z) : str :=
  if (c =? quote) || (c =? 92) then [92; c]
  else if c =? 9 then [92; 116]
  else if c =? 10 then [92; 110]
  else if c =? 13 then [92; 114]
  else if (c <? 32) || (c =? 127) then 92 :: 120 :: hex_digits 2 c
  else if c <? 127 then [c]
  else if printable c then [c]
  else if c <=? 255 then 92 :: 120 :: hex_digits 2 c
  else if c <=? 65535 then 92 :: 117 :: hex_digits 4 c
  else 92 :: 85 :: hex_digits 8 c.

Definition mem (c : Z) (s : str) : bool := existsb (Z.eqb c) s.

(** [repr(s)] for a [str]: single quotes, unless the string has a single
    quote and no double quote. *)
Definition repr_str (printable : Z -> bool) (s : str) : str :=
  let quote := if mem 39 s && negb (mem 34 s) then 34 else 39 in
  quote :: flat_map (repr_char printable quote) s ++ [quote].

(** [repr(d)] for a dict of strings. *)
Definition repr_entry (printable : Z -> bool) (d : list (str * str)) : str :=
  [123]
    ++ join (u ", ")
         (map (fun kv => repr_str printable (fst kv) ++ u ": "
                         ++ repr_str printable (snd kv)) d)
    ++ [125].

(** [repr(l)] for a list of such dicts. *)
Definition repr_entries (printable : Z -> bool) (l : list (list (str * str)))
  : str :=
  [91] ++ join (u ", ") (map (repr_entry printable) l) ++ [93].

(** [str(e)] for an exception. *)
Definition exn_str (printable : Z -> bool) (e : exn) : str :=
  match e with
  | Exn _ msg => msg
  | KeyError k => repr_str printable k
  | KeyboardInterrupt => []
  | SystemExit code => str_of_int code
  end.

End Repr.
Import Repr.

(** ** The world of the script *)

(** A naive [datetime], as microseconds since the epoch. *)
Definition datetime := Z.

(** One entry of a [put_events] request. *)
Record put_entry : Type := mk_put_entry {
  EventBusName : str;
  Source : str;
  DetailType : str;
  Detail : str;
  Time : datetime
}.

(** The reply of [put_events]: the count of failed entries and, per entry, a
    dict of strings ([EventId], or [ErrorCode] and [ErrorMessage]). *)
Record response : Type := mk_response {
  FailedEntryCount : Z;
  Entries : list (list (str * str))
}.

(** An event-bus client: the outcome of its [n]-th [put_events] call (counted
    from 0) on the entries submitted. *)
Definition client := nat -> list put_entry -> result response.

(** What the script does not decide.  [boto3.client(service, region_name)]
    raises [e] when [boto3_failure] is [Some e] for the service and region,
    and returns the client [boto3_client] otherwise. *)
Record env : Type := mk_env {
  isprintable : Z -> bool;          (** the Unicode database *)
  urandom16 : nat -> Z;             (** [int.from_bytes(os.urandom(16))], by draw *)
  utcnow : nat -> datetime;         (** the clock, by reading *)
  boto3_client : str -> str -> client;  (** the client [boto3.client] returns *)
  boto3_failure : str -> str -> option exn  (** what [boto3.client] raises *)
}.

(** A reference to an object of the heap. *)
Definition loc := nat.

(** What the script changes. *)
Record world : Type := mk_world {
  heap : list pyval;                 (** the objects allocated, by reference *)
  stdout : list str;                 (** the texts of the [print] calls, oldest first *)
  requests : list (list put_entry);  (** the [put_events] calls, oldest first *)
  draws : nat;                       (** random draws made *)
  clock_reads : nat                  (** clock readings made *)
}.

Definition initial_world : world := mk_world [] [] [] 0 0.

(** ** Statements: state and exceptions *)

Module Stmt.

Definition M (A : Type) : Type := world -> result A * world.

Definition ret {A : Type} (a : A) : M A := fun w => (inr a, w).

Definition bind {A B : Type} (c : M A) (k : A -> M B) : M B :=
  fun w =>
    match c w with
    | (inl e, w') => (inl e, w')
    | (inr a, w') => k a w'
    end.

Definition raise {A : Type} (e : exn) : M A := fun w => (inl e, w).

(** The value of an expression that may raise. *)
Definition lift {A : Type} (r : result A) : M A := fun w => (r, w).

(** [try: body  except Exception as e: handler(e)]: the handler runs on an
    instance of [Exception]; any other exception goes on to the caller. *)
Definition try_except {A : Type} (body : M A) (handler : exn -> M A) : M A :=
  fun w =>
    match body w with
    | (inl e, w') => if is_Exception e then handler e w' else (inl e, w')
    | (inr a, w') => (inr a, w')
    end.

(** [print(line)]: one text, written followed by a line break. *)
Definition print (line : str) : M unit :=
  fun w =>
    (inr tt, mk_world (heap w) (stdout w ++ [line]) (requests w) (draws w)
                      (clock_reads w)).

(** A dict or list display: a new object. *)
Definition alloc (v : pyval) : M loc :=
  fun w =>
    (inr (List.length (heap w)),
     mk_world (heap w ++ [v]) (stdout w) (requests w) (draws w)
              (clock_reads w)).

(** The object a reference points to.  A reference to no object cannot arise
    in Python; the model raises on it. *)
Definition deref (l : loc) : M pyval :=
  fun w =>
    match nth_error (heap w) l with
    | Some v => (inr v, w)
    | None => (inl (Exn (u "SystemError") (u "dangling reference")), w)
    end.

(** [uuid.uuid4().int] *)
Definition uuid4 (E : env) : M Z :=
  fun w =>
    (inr (uuid4_int (urandom16 E (draws w))),
     mk_world (heap w) (stdout w) (requests w) (S (draws w)) (clock_reads w)).

(** [datetime.utcnow()] *)
Definition datetime_utcnow (E : env) : M datetime :=
  fun w =>
    (inr (utcnow E (clock_reads w)),
     mk_world (heap w) (stdout w) (requests w) (draws w) (S (clock_reads w))).

(** [c.put_events(Entries=entries)]: the request is sent, then the client
    answers or raises. *)
Definition put_events (c : client) (entries : list put_entry) : M response :=
  fun w =>
    (c (List.length (requests w)) entries,
     mk_world (heap w) (stdout w) (requests w ++ [entries]) (draws w)
              (clock_reads w)).

(** [l[i]] on a list. *)
Definition list_item {A : Type} (l : list A) (i : nat) : result A :=
  match nth_error l i with
  | Some a => inr a
  | None => inl (Exn (u "IndexError") (u "list index out of range"))
  end.

(** [d[k]] on a dict. *)
Definition dict_item {A : Type} (d : list (str * A)) (k : str) : result A :=
  match dict_get k d with
  | Some a => inr a
  | None => inl (KeyError k)
  end.

End Stmt.
Import Stmt.

Notation "x <- c ;; k" := (bind c (fun x => k))
  (at level 61, c at next level, right associativity).
Notation "c ;;; k" := (bind c (fun _ => k))
  (at level 61, right associativity).

(** ** The script *)

Module Producer.

Definition BUS_NAME : str := u "ecom-bus".
Definition REGION : str := u "us-east-1".

(** The global [events_client], once line 11 has bound it: the client
    [boto3.client("events", region_name=REGION)] returns. *)
Definition events_client (E : env) : client :=
  boto3_client E (u "events") REGION.

(** Line 11, run when the module is loaded, outside any [try]:
    [events_client = boto3.client("events", region_name=REGION)]. *)
Definition load_module (E : env) : result client :=
  match boto3_failure E (u "events") REGION with
  | Some e => inl e
  | None => inr (events_client E)
  end.

(** [publish_event(source, detail_type, detail)]; [detail] is a reference to
    the caller's object. *)
Definition publish_event (E : env) (source detail_type : str) (detail : loc)
  : M unit :=
  try_except
    (d <- deref detail ;;
     detail_json <- lift (dumps d) ;;
     now <- datetime_utcnow E ;;
     response <- put_events (events_client E)
                   [ mk_put_entry BUS_NAME source detail_type detail_json now ] ;;
     if FailedEntryCount response >? 0 then
       print (u "❌ Failed: " ++ repr_entries (isprintable E) (Entries response))
     else
       print (u "✅ Published: " ++ detail_type ++ u " from " ++ source) ;;;
       entry <- lift (list_item (Entries response) 0) ;;
       event_id <- lift (dict_item entry (u "EventId")) ;;
       print (u "   Event ID: " ++ event_id))
    (fun e => print (u "❌ Error: " ++ exn_str (isprintable E) e)).

(** The float literal [149.90]. *)
Definition value_149_90 : spec_float := float_of_decimal false 14990 (-2).

Definition order_detail (order_id : str) : pyval :=
  PDict [ (u "orderId", PStr order_id);
          (u "customerId", PStr (u "C-5678"));
          (u "value", PFloat value_149_90);
          (u "currency", PStr (u "USD"));
          (u "items", PList [ PDict [ (u "productId", PStr (u "P-123"));
                                      (u "quantity", PInt 2) ] ]) ].

Definition payment_detail (order_id : str) : pyval :=
  PDict [ (u "orderId", PStr order_id);
          (u "reason", PStr (u "INSUFFICIENT_FUNDS"));
          (u "severity", PStr (u "critical"));
          (u "retryCount", PInt 2) ].

Definition shipment_detail (order_id tracking_id : str) : pyval :=
  PDict [ (u "orderId", PStr order_id);
          (u "carrier", PStr (u "DHL"));
          (u "trackingId", PStr tracking_id);
          (u "estimatedDelivery", PStr (u "2025-09-15")) ].

(** [f"ORD-{uuid.uuid4().hex[:8].upper()}"] from the integer of the UUID. *)
Definition order_id_of (uuid_int : Z) : str :=
  u "ORD-" ++ upper (firstn 8 (format_032x uuid_int)).

(** [f"TRK-{uuid.uuid4().hex[:8].upper()}"] *)
Definition tracking_id_of (uuid_int : Z) : str :=
  u "TRK-" ++ upper (firstn 8 (format_032x uuid_int)).

Definition rule : str := repeat_str (u "-") 60.

(** [publish_sample_events()] *)
Definition publish_sample_events (E : env) : M unit :=
  print (u "🚀 Publishing events to EventBridge bus: " ++ BUS_NAME) ;;;
  print rule ;;;
  uuid_order <- uuid4 E ;;
  let order_id := order_id_of uuid_order in
  print (u "📦 Order ID: " ++ order_id) ;;;
  print rule ;;;
  order <- alloc (order_detail order_id) ;;
  publish_event E (u "app.orders") (u "OrderCreated") order ;;;
  payment <- alloc (payment_detail order_id) ;;
  publish_event E (u "app.payments") (u "PaymentFailed") payment ;;;
  uuid_tracking <- uuid4 E ;;
  shipment <- alloc (shipment_detail order_id (tracking_id_of uuid_tracking)) ;;
  publish_event E (u "app.shipping") (u "ShipmentCreated") shipment ;;;
  print rule ;;;
  print (u "🎉 All events published successfully!") ;;;
  print (u "📋 Expected routing:") ;;;
  print (u "   • OrderCreated → topic-orders + q-orders") ;;;
  print (u "   • PaymentFailed → topic-alerts") ;;;
  print (u "   • ShipmentCreated → q-shipments").

(** The six closing lines of [publish_sample_events], as a list. *)
Definition closing_lines : list str :=
  [ rule;
    u "🎉 All events published successfully!";
    u "📋 Expected routing:";
    u "   • OrderCreated → topic-orders + q-orders";
    u "   • PaymentFailed → topic-alerts";
    u "   • ShipmentCreated → q-shipments" ].

(** The exit status of the interpreter when an exception leaves the script,
    as a POSIX shell reports it: the low byte of the code of a [SystemExit],
    130 for a [KeyboardInterrupt] (the process ends by the interrupt
    signal), 1 for a traceback. *)
Definition exit_status (e : exn) : Z :=
  match e with
  | SystemExit code => code mod 256
  | KeyboardInterrupt => 130
  | Exn _ _ | KeyError _ => 1
  end.

(** Running the script: the module is loaded (line 11), then
    [publish_sample_events()] runs from the initial world (lines 80 to 81).
    The exit status is 0 when the call returns; an exception that leaves the
    load or the call ends the script with its [exit_status].  The imports
    of lines 1 to 4 are taken to succeed. *)
Definition main (E : env) : Z * world :=
  match load_module E with
  | inl e => (exit_status e, initial_world)
  | inr _ =>
      match publish_sample_events E initial_world with
      | (inr _, w) => (0, w)
      | (inl e, w) => (exit_status e, w)
      end
  end.

End Producer.
Import Producer.

(** ** Vocabulary of the statements *)

Module Obs.

(** [response['Entries'][0]['EventId']] *)
Definition first_event_id (resp : response) : result str :=
  match list_item (Entries resp) 0 with
  | inl e => inl e
  | inr entry => dict_item entry (u "EventId")
  end.

(** What [publish_event] prints for an outcome of the client's call (lines
    26 to 33 of the script): nothing for an exception that is not an
    instance of [Exception], which the [try] lets through. *)
Definition report (E : env) (source detail_type : str) (r : result response)
  : list str :=
  match r with
  | inl e =>
      if is_Exception e then [ u "❌ Error: " ++ exn_str (isprintable E) e ]
      else []
  | inr resp =>
      if FailedEntryCount resp >? 0 then
        [ u "❌ Failed: " ++ repr_entries (isprintable E) (Entries resp) ]
      else
        (u "✅ Published: " ++ detail_type ++ u " from " ++ source)
          :: match first_event_id resp with
             | inr event_id => [ u "   Event ID: " ++ event_id ]
             | inl e => [ u "❌ Error: " ++ exn_str (isprintable E) e ]
             end
  end.

(** The client accepts the entry and names it [event_id]: no failed entry,
    and an [EventId] in the first entry of the reply. *)
Definition accepted (r : result response) (event_id : str) : Prop :=
  exists resp entry rest,
    r = inr resp /\ FailedEntryCount resp = 0
    /\ Entries resp = entry :: rest
    /\ dict_get (u "EventId") entry = Some event_id.

(** The two lines of a success confirmation. *)
Definition confirmation (source detail_type event_id : str) : list str :=
  [ u "✅ Published: " ++ detail_type ++ u " from " ++ source;
    u "   Event ID: " ++ event_id ].

(** [line.startswith(prefix)] *)
Fixpoint starts_with (prefix line : str) : bool :=
  match prefix, line with
  | [], _ => true
  | c :: p, c' :: l => (c =? c') && starts_with p l
  | _ :: _, [] => false
  end.

Definition count_lines (prefix : str) (lines : list str) : nat :=
  List.length (filter (starts_with prefix) lines).

(** The prefixes that tell the three kinds of report apart. *)
Definition ok_prefix : str := u "✅ Published: ".
Definition failed_prefix : str := u "❌ Failed: ".
Definition error_prefix : str := u "❌ Error: ".

(** The source and the detail type of every entry of every request. *)
Definition kinds (reqs : list (list put_entry)) : list (list (str * str)) :=
  map (map (fun e => (Source e, DetailType e))) reqs.

(** The opening lines of [publish_sample_events]. *)
Definition opening_lines (order_id : str) : list str :=
  [ u "🚀 Publishing events to EventBridge bus: " ++ BUS_NAME;
    rule;
    u "📦 Order ID: " ++ order_id;
    rule ].

(** An upper-case hexadecimal digit: [0-9A-F]. *)
Definition is_upper_hex (c : Z) : bool :=
  ((48 <=? c) && (c <=? 57)) || ((65 <=? c) && (c <=? 70)).

(** The pattern [ORD-] followed by exactly 8 upper-case hexadecimal digits
    ([re.fullmatch(r"ORD-[0-9A-F]{8}", s)]). *)
Definition is_order_id (s : str) : bool :=
  match strip_prefix (u "ORD-") s with
  | Some t => Nat.eqb (List.length t) 8 && forallb is_upper_hex t
  | None => false
  end.

(** The leading 32 bits of a random draw of 128 bits. *)
Definition leading32 (r : Z) : Z := (r mod 2 ^ 128) / 2 ^ 96.

(** The identifiers a run draws, from the world it starts in. *)
Definition run_order_id (E : env) (w : world) : str :=
  order_id_of (uuid4_int (urandom16 E (draws w))).

Definition run_tracking_id (E : env) (w : world) : str :=
  tracking_id_of (uuid4_int (urandom16 E (S (draws w)))).

(** The text [json.dumps] returns, empty when it raises. *)
Definition dumps_text (v : pyval) : str :=
  match dumps v with
  | inr s => s
  | inl _ => []
  end.

(** The entry [publish_event] submits for a detail object, at the reading
    [k] of the clock. *)
Definition entry_for (E : env) (k : nat) (source detail_type : str) (d : pyval)
  : put_entry :=
  mk_put_entry BUS_NAME source detail_type (dumps_text d) (utcnow E k).

(** The three requests of a run started in [w]. *)
Definition run_entries (E : env) (w : world) : list put_entry :=
  let oid := run_order_id E w in
  let k := clock_reads w in
  [ entry_for E k (u "app.orders") (u "OrderCreated") (order_detail oid);
    entry_for E (S k) (u "app.payments") (u "PaymentFailed")
      (payment_detail oid);
    entry_for E (S (S k)) (u "app.shipping") (u "ShipmentCreated")
      (shipment_detail oid (run_tracking_id E w)) ].

(** The outcome of the [i]-th call of a run started in [w]. *)
Definition run_outcome (E : env) (w : world) (i : nat) : result response :=
  match nth_error (run_entries E w) i with
  | Some e => events_client E (List.length (requests w) + i)%nat [e]
  | None => inl (Exn [] [])
  end.

(** The exception of an outcome that [except Exception] lets through. *)
Definition escapes (r : result response) : option exn :=
  match r with
  | inl e => if is_Exception e then None else Some e
  | inr _ => None
  end.

(** The result of [publish_event] for an outcome of the client's call. *)
Definition call_result (r : result response) : result unit :=
  match escapes r with
  | Some e => inl e
  | None => inr tt
  end.

(** The exception that ends a run early: the first one raised by a call of
    the run that is not an instance of [Exception]. *)
Definition run_escape (E : env) (w : world) : option exn :=
  match escapes (run_outcome E w 0) with
  | Some e => Some e
  | None =>
      match escapes (run_outcome E w 1) with
      | Some e => Some e
      | None => escapes (run_outcome E w 2)
      end
  end.

(** What a run prints after its opening lines: the reports of the calls it
    makes, and the closing lines when no call ends it early. *)
Definition run_printed (E : env) (w : world) : list str :=
  match escapes (run_outcome E w 0) with
  | Some _ => []
  | None =>
      report E (u "app.orders") (u "OrderCreated") (run_outcome E w 0)
      ++ match escapes (run_outcome E w 1) with
         | Some _ => []
         | None =>
             report E (u "app.payments") (u "PaymentFailed")
               (run_outcome E w 1)
             ++ match escapes (run_outcome E w 2) with
                | Some _ => []
                | None =>
                    report E (u "app.shipping") (u "ShipmentCreated")
                      (run_outcome E w 2)
                    ++ closing_lines
                end
         end
  end.

(** The number of calls a run makes: it stops at the first call whose
    exception is let through. *)
Definition calls_made (E : env) (w : world) : nat :=
  match escapes (run_outcome E w 0) with
  | Some _ => 1%nat
  | None =>
      match escapes (run_outcome E w 1) with
      | Some _ => 2%nat
      | None => 3%nat
      end
  end.

(** The lines the three calls of a run print, call by call. *)
Definition run_reports (E : env) (w : world) : list str :=
  report E (u "app.orders") (u "OrderCreated") (run_outcome E w 0)
  ++ report E (u "app.payments") (u "PaymentFailed") (run_outcome E w 1)
  ++ report E (u "app.shipping") (u "ShipmentCreated") (run_outcome E w 2).

(** The three detail objects of a run. *)
Definition run_details (E : env) (w : world) : list pyval :=
  let oid := run_order_id E w in
  [ order_detail oid; payment_detail oid;
    shipment_detail oid (run_tracking_id E w) ].

(** A printable ASCII character: U+0020 to U+007E. *)
Definition printable_ascii (c : Z) : bool := (32 <=? c) && (c <=? 126).

(** Not a control character: neither below U+0020 nor U+007F. *)
Definition no_control (c : Z) : bool := (32 <=? c) && negb (c =? 127).

(** The pattern [TRK-] followed by exactly 8 upper-case hexadecimal digits. *)
Definition is_tracking_id (s : str) : bool :=
  match strip_prefix (u "TRK-") s with
  | Some t => Nat.eqb (List.length t) 8 && forallb is_upper_hex t
  | None => false
  end.

(** The reply counts as a success for [publish_event]: it came back and
    reports no failed entry. *)
Definition took_success_branch (r : result response) : bool :=
  match r with
  | inl _ => false
  | inr resp => negb (FailedEntryCount resp >? 0)
  end.

End Obs.
Import Obs.

(** ** JSON data that survives a round trip *)

Module JsonData.

(** A Unicode scalar value: a code point that is not a surrogate. *)
Definition scalar (c : Z) : bool :=
  (0 <=? c) && (c <? 1114112) && negb ((55296 <=? c) && (c <=? 57343)).

Definition str_ok (s : str) : bool := forallb scalar s.

(** The text of a number, from its sign, integer digits, fraction digits and
    exponent (sign and digits). *)
Definition frac_text (fp : str) : str :=
  match fp with
  | [] => []
  | _ => 46 :: fp
  end.

Definition exp_text (ex : option (bool * str)) : str :=
  match ex with
  | None => []
  | Some (eneg, ed) => 101 :: (if eneg : bool then 45 else 43) :: ed
  end.

Definition number_text (neg : bool) (ip fp : str) (ex : option (bool * str))
  : str :=
  (if neg then [45] else []) ++ ip ++ frac_text fp ++ exp_text ex.

Definition digits_ok (ds : str) : bool := forallb is_digit ds.

(** Integer digits: at least one, no leading zero before another digit. *)
Definition int_part_ok (ip : str) : bool :=
  match ip with
  | [] => false
  | c :: t =>
      digits_ok ip
      && (negb (c =? 48) || match t with [] => true | _ => false end)
  end.

Definition exp_ok (ex : option (bool * str)) : bool :=
  match ex with
  | None => true
  | Some (_, ed) => digits_ok ed && negb (Nat.eqb (List.length ed) 0)
  end.

Definition exp_value (ex : option (bool * str)) : option Z :=
  match ex with
  | None => None
  | Some (eneg, ed) =>
      Some (if eneg : bool then - int_of_digits ed else int_of_digits ed)
  end.

(** The value the decoder gives to the text of a number. *)
Definition number_value (neg : bool) (ip fp : str) (ex : option (bool * str))
  : pyval :=
  match fp, exp_value ex with
  | [], None =>
      PInt (if neg then - int_of_digits ip else int_of_digits ip)
  | _, e =>
      PFloat (float_of_decimal neg (int_of_digits (ip ++ fp))
                (match e with Some x => x | None => 0 end
                 - Z.of_nat (List.length fp)))
  end.

(** The parts of the text [repr] prints for a float. *)
Definition analyse (t : str) : option (bool * str * str * option (bool * str)) :=
  let '(neg, t1) :=
    match t with
    | c :: r => if c =? 45 then (true, r) else (false, t)
    | [] => (false, t)
    end in
  let '(ip, t2) := span_digits t1 in
  let '(fp, t3) :=
    match t2 with
    | c :: r => if c =? 46 then span_digits r else ([], t2)
    | [] => ([], t2)
    end in
  match t3 with
  | [] => Some (neg, ip, fp, None)
  | c :: sg :: r =>
      if (c =? 101) && ((sg =? 45) || (sg =? 43)) then
        match span_digits r with
        | (ed, []) => Some (neg, ip, fp, Some (sg =? 45, ed))
        | _ => None
        end
      else None
  | _ => None
  end.

(** The float reads back from its [repr]: the text is a well-formed number
    with a fraction or an exponent, and its value is the float.  The three
    constants [NaN], [Infinity] and [-Infinity] read back as words. *)
Definition float_ok (f : spec_float) : bool :=
  match f with
  | S754_nan | S754_infinity _ => true
  | _ =>
      match analyse (float_repr f) with
      | Some (neg, ip, fp, ex) =>
          int_part_ok ip && digits_ok fp && exp_ok ex
          && Str.eqb (number_text neg ip fp ex) (float_repr f)
          && match number_value neg ip fp ex with
             | PFloat g => sf_eqb g f
             | _ => false
             end
      | None => false
      end
  end.

(** No key twice. *)
Fixpoint distinct (keys : list str) : bool :=
  match keys with
  | [] => true
  | k :: rest => negb (existsb (Str.eqb k) rest) && distinct rest
  end.

(** JSON data whose strings are made of scalar values, whose floats read
    back from their [repr] and whose dicts have distinct keys. *)
Fixpoint json_ok (v : pyval) : bool :=
  match v with
  | PNone | PBool _ | PInt _ => true
  | PFloat f => float_ok f
  | PStr s => str_ok s
  | PList l => forallb json_ok l
  | PDict d =>
      forallb (fun kv => match kv with (k, x) => str_ok k && json_ok x end) d
      && distinct (map fst d)
  | PObject _ => false
  end.

(** The number of nested calls the decoder makes on the text of a value. *)
Fixpoint size (v : pyval) : nat :=
  match v with
  | PList l => S (fold_right (fun x n => S (size x + n)) O l)
  | PDict d =>
      S (fold_right (fun kv n => match kv with (_, x) => S (size x + n) end)
           O d)
  | _ => 1%nat
  end.

(** A character that ends a value inside an array or an object. *)
Definition closes (rest : str) : bool :=
  match rest with
  | [] => true
  | c :: _ => (c =? 44) || (c =? 93) || (c =? 125)
  end.

(** What follows does not continue a run of digits. *)
Definition no_digit (rest : str) : Prop :=
  match rest with
  | [] => True
  | c :: _ => is_digit c = false
  end.

(** What a value must satisfy for its text to be scanned back. *)
Definition scans_back (v : pyval) : Prop :=
  json_ok v = true ->
  forall s, dumps v = inr s ->
  forall (fuel : nat) (rest : str),
    (size v <= fuel)%nat -> closes rest = true ->
    scan_once fuel (s ++ rest) = Some (v, rest).

End JsonData.
Import JsonData.

(** ** Test doubles *)

Module Stub.

(** A reply that accepts the entry under the identifier [event_id]. *)
Definition accept (event_id : str) : result response :=
  inr (mk_response 0 [ [ (u "EventId", event_id) ] ]).

(** A reply that reports one failed entry. *)
Definition reject : result response :=
  inr (mk_response 1 [ [ (u "ErrorCode", u "InternalFailure");
                         (u "ErrorMessage", u "try again") ] ]).

(** An error raised by the call. *)
Definition timeout : exn := Exn (u "EndpointConnectionError") (u "timed out").

(** An environment around a client: every character printable, the draw
    [n] is [seed + n * 2^96], the clock reads [n] at its reading [n]. *)
Definition env_of (seed : Z) (c : client) : env :=
  mk_env (fun _ => true) (fun n => seed + Z.of_nat n * 2 ^ 96)
         (fun n => Z.of_nat n) (fun _ _ => c) (fun _ _ => None).

(** The client that accepts every call under one synthetic identifier. *)
Definition accepting : client := fun _ _ => accept (u "evt-0001").

(** The client that reports a failed entry at its second call only. *)
Definition failing_second : client :=
  fun n _ => if Nat.eqb n 1 then reject else accept (u "evt-0001").

(** The client whose third call raises. *)
Definition raising_third : client :=
  fun n _ => if Nat.eqb n 2 then inl timeout else accept (u "evt-0001").

(** The client whose every call raises. *)
Definition raising : client := fun _ _ => inl timeout.

(** The client whose every call is interrupted from the keyboard. *)
Definition interrupted : client := fun _ _ => inl KeyboardInterrupt.

(** The client whose third call is interrupted from the keyboard. *)
Definition interrupted_third : client :=
  fun n _ =>
    if Nat.eqb n 2 then inl KeyboardInterrupt else accept (u "evt-0001").

(** The client whose second call ends the interpreter with the code 3. *)
Definition exiting_second : client :=
  fun n _ => if Nat.eqb n 1 then inl (SystemExit 3) else accept (u "evt-0001").


(** A world with one detail object, at reference 0. *)
Definition one_object (d : pyval) : world := mk_world [d] [] [] 0 0.

End Stub.

(* ================================================================== *)
(** * Part II. Properties *)
(* ================================================================== *)

(** ** The runtime model on examples *)

Example u_ascii : u "ORD-" = [79; 82; 68; 45].
Proof. reflexivity. Qed.

Example u_emoji : u "❌ →🚀" = [10060; 32; 8594; 128640].
Proof. reflexivity. Qed.

Example uuid_hex_0 :
  uuid4_hex 0 = u "00000000000040008000000000000000".
Proof. vm_compute. reflexivity. Qed.

Example uuid_hex_max :
  uuid4_hex (2 ^ 128 - 1) = u "ffffffffffff4fffbfffffffffffffff".
Proof. vm_compute. reflexivity. Qed.

Example float_repr_149_90 :
  float_repr value_149_90 = u "149.9"
  /\ value_149_90 = S754_finite false 5274137376115917 (-45)
  /\ float_repr (float_of_decimal false 1 16) = u "1e+16"
  /\ float_repr (float_of_decimal false 15 (-6)) = u "1.5e-05".
Proof. repeat split; vm_compute; reflexivity. Qed.

Example str_of_int_ex :
  str_of_int 0 = u "0" /\ str_of_int 1024 = u "1024" /\ str_of_int (-70) = u "-70"
  /\ str_of_int 999 = u "999" /\ str_of_int 1000 = u "1000".
Proof. vm_compute. repeat split. Qed.

(** ** JSON data serializes *)

Lemma dumps_list (l : list pyval) :
  dumps (PList l)
  = match dumps_items l with
    | inl e => inl e
    | inr parts => inr ([91] ++ join (u ", ") parts ++ [93])
    end.
Proof.
  cbn [dumps].
  replace ((fix items (l0 : list pyval) : result (list str) :=
              match l0 with
              | [] => inr []
              | x :: rest =>
                  match dumps x with
                  | inl e => inl e
                  | inr sx =>
                      match items rest with
                      | inl e => inl e
                      | inr srest => inr (sx :: srest)
                      end
                  end
              end) l) with (dumps_items l); [reflexivity |].
  induction l as [| x r IH]; [reflexivity |].
  cbn [dumps_items]. now rewrite IH.
Qed.

Lemma dumps_dict (d : list (str * pyval)) :
  dumps (PDict d)
  = match dumps_members d with
    | inl e => inl e
    | inr parts => inr ([123] ++ join (u ", ") parts ++ [125])
    end.
Proof.
  cbn [dumps].
  replace ((fix members (d0 : list (str * pyval)) : result (list str) :=
              match d0 with
              | [] => inr []
              | (k, x) :: rest =>
                  match dumps x with
                  | inl e => inl e
                  | inr sx =>
                      match members rest with
                      | inl e => inl e
                      | inr srest =>
                          inr ((encode_str k ++ u ": " ++ sx) :: srest)
                      end
                  end
              end) d) with (dumps_members d); [reflexivity |].
  induction d as [| [k x] r IH]; [reflexivity |].
  cbn [dumps_members]. now rewrite IH.
Qed.

(** [json.dumps] returns a text on JSON data. *)
Lemma dumps_serializable (v : pyval) :
  serializable v = true -> exists s, dumps v = inr s.
Proof.
  induction v as [| b | z | f | s | l IH | d IH | cls] using pyval_nested_ind;
    intros Hs.
  - now eexists.
  - destruct b; now eexists.
  - now eexists.
  - now eexists.
  - now eexists.
  - rewrite dumps_list.
    assert (exists parts, dumps_items l = inr parts) as [parts ->].
    { cbn [serializable] in Hs. induction IH as [| x r Hx _ IHr].
      - now eexists.
      - cbn [forallb] in Hs. apply andb_prop in Hs as [H1 H2].
        destruct (Hx H1) as [sx Hsx]. destruct (IHr H2) as [sr Hsr].
        cbn [dumps_items]. rewrite Hsx, Hsr. now eexists. }
    now eexists.
  - rewrite dumps_dict.
    assert (exists parts, dumps_members d = inr parts) as [parts ->].
    { cbn [serializable] in Hs. induction IH as [| [k x] r Hx _ IHr].
      - now eexists.
      - cbn [forallb] in Hs. apply andb_prop in Hs as [H1 H2].
        cbn [snd] in Hx.
        destruct (Hx H1) as [sx Hsx]. destruct (IHr H2) as [sr Hsr].
        cbn [dumps_members]. rewrite Hsx, Hsr. now eexists. }
    now eexists.
  - discriminate.
Qed.

Lemma dumps_serializable_text (v : pyval) :
  serializable v = true -> dumps v = inr (dumps_text v).
Proof.
  intros Hs. unfold dumps_text.
  destruct (dumps_serializable v Hs) as [s ->]. reflexivity.
Qed.

(** [json.dumps] raises on a value that is not JSON data, and the error
    names the class of an object inside it. *)
Lemma dumps_not_serializable (v : pyval) :
  serializable v = false -> exists cls, dumps v = inl (not_serializable cls).
Proof.
  induction v as [| b | z | f | s | l IH | d IH | cls] using pyval_nested_ind;
    intros Hs; try discriminate.
  - rewrite dumps_list.
    assert (exists cls, dumps_items l = inl (not_serializable cls))
      as [cls ->]; [| now exists cls].
    cbn [serializable] in Hs. induction IH as [| x r Hx _ IHr];
      [discriminate |].
    cbn [forallb] in Hs. cbn [dumps_items].
    destruct (serializable x) eqn:Hsx.
    + destruct (dumps_serializable x Hsx) as [sx ->].
      destruct (IHr Hs) as [cls ->]. now exists cls.
    + destruct (Hx eq_refl) as [cls ->]. now exists cls.
  - rewrite dumps_dict.
    assert (exists cls, dumps_members d = inl (not_serializable cls))
      as [cls ->]; [| now exists cls].
    cbn [serializable] in Hs. induction IH as [| [k x] r Hx _ IHr];
      [discriminate |].
    cbn [forallb snd] in *. cbn [dumps_members].
    destruct (serializable x) eqn:Hsx.
    + destruct (dumps_serializable x Hsx) as [sx ->].
      destruct (IHr Hs) as [cls ->]. now exists cls.
    + destruct (Hx eq_refl) as [cls ->]. now exists cls.
  - now exists cls.
Qed.

(** What [json.dumps] raises is an instance of [Exception]. *)
Lemma dumps_error_is_Exception (v : pyval) (e : exn) :
  dumps v = inl e -> is_Exception e = true.
Proof.
  intros H. destruct (serializable v) eqn:Hs.
  - destruct (dumps_serializable v Hs) as [s Hd]. congruence.
  - destruct (dumps_not_serializable v Hs) as [cls Hd].
    rewrite Hd in H. now injection H as <-.
Qed.

(** ** One call of [publish_event] *)

(** Projections of a world that has just been built. *)
Ltac world_fields := cbn [heap stdout requests draws clock_reads exn_str].

Lemma app_one {A : Type} (l : list A) (a b : A) :
  (l ++ [a]) ++ [b] = l ++ [a; b].
Proof. now rewrite <- app_assoc. Qed.

(** What a call does when the detail object serializes: one request of one
    entry, one reading of the clock, the report of the client's outcome, and
    a normal return unless the client raised an exception that is not an
    instance of [Exception]. *)
Lemma publish_event_run (E : env) (source detail_type : str) (l : loc)
      (w : world) (d : pyval) (js : str) :
  nth_error (heap w) l = Some d ->
  dumps d = inr js ->
  let entry :=
    mk_put_entry BUS_NAME source detail_type js (utcnow E (clock_reads w)) in
  publish_event E source detail_type l w
  = (call_result (events_client E (List.length (requests w)) [entry]),
     mk_world (heap w)
       (stdout w
        ++ report E source detail_type
             (events_client E (List.length (requests w)) [entry]))
       (requests w ++ [[entry]]) (draws w) (S (clock_reads w))).
Proof.
  intros Hd Hj entry.
  unfold publish_event, try_except, bind, deref, lift, datetime_utcnow,
    put_events, print, report, first_event_id, call_result, escapes.
  rewrite Hd, Hj. world_fields. fold entry.
  destruct (events_client E (List.length (requests w)) [entry]) as [e | resp].
  - destruct (is_Exception e); [reflexivity | now rewrite app_nil_r].
  - destruct (FailedEntryCount resp >? 0); [reflexivity |].
    world_fields. unfold list_item, dict_item.
    destruct (nth_error (Entries resp) 0) as [entry0 |]; world_fields.
    + destruct (dict_get (u "EventId") entry0); world_fields;
        cbn [is_Exception]; now rewrite app_one.
    + cbn [is_Exception]. now rewrite app_one.
Qed.

(** A call leaves the heap and the random source as they were, whatever its
    arguments, whatever the client does and however the call ends. *)
Lemma publish_event_frame (E : env) (source detail_type : str) (l : loc)
      (w : world) :
  heap (snd (publish_event E source detail_type l w)) = heap w
  /\ draws (snd (publish_event E source detail_type l w)) = draws w.
Proof.
  destruct (nth_error (heap w) l) as [d |] eqn:Hd.
  - destruct (dumps d) as [e | js] eqn:Hj.
    + unfold publish_event, try_except, bind, deref, lift, print.
      rewrite Hd, Hj, (dumps_error_is_Exception d e Hj). now split.
    + rewrite (publish_event_run _ _ _ _ _ d js Hd Hj). now split.
  - unfold publish_event, try_except, bind, deref, print. rewrite Hd.
    now split.
Qed.

(** ** The sample details serialize *)

Lemma dumps_order_detail (oid : str) :
  dumps (order_detail oid) = inr (dumps_text (order_detail oid)).
Proof. now apply dumps_serializable_text. Qed.

Lemma dumps_payment_detail (oid : str) :
  dumps (payment_detail oid) = inr (dumps_text (payment_detail oid)).
Proof. now apply dumps_serializable_text. Qed.

Lemma dumps_shipment_detail (oid trk : str) :
  dumps (shipment_detail oid trk)
  = inr (dumps_text (shipment_detail oid trk)).
Proof. now apply dumps_serializable_text. Qed.

(** ** A run of [publish_sample_events] *)

Lemma nth_error_last {A : Type} (l : list A) (a : A) :
  nth_error (l ++ [a]) (List.length l) = Some a.
Proof. rewrite nth_error_app2, Nat.sub_diag; [reflexivity | lia]. Qed.

(** [publish_event_run] on a world given by its fields. *)
Lemma publish_event_step (E : env) (source detail_type : str)
      (h : list pyval) (out : list str) (reqs : list (list put_entry))
      (dr ck : nat) (d : pyval) :
  serializable d = true ->
  publish_event E source detail_type (List.length h)
    (mk_world (h ++ [d]) out reqs dr ck)
  = (call_result (events_client E (List.length reqs)
                    [entry_for E ck source detail_type d]),
     mk_world (h ++ [d])
       (out ++ report E source detail_type
                 (events_client E (List.length reqs)
                    [entry_for E ck source detail_type d]))
       (reqs ++ [[entry_for E ck source detail_type d]]) dr (S ck)).
Proof.
  intros Hs.
  apply (publish_event_run E source detail_type (List.length h)
           (mk_world (h ++ [d]) out reqs dr ck) d (dumps_text d)).
  - apply nth_error_last.
  - now apply dumps_serializable_text.
Qed.

Ltac run_stmts :=
  cbv beta iota delta [bind print alloc uuid4 heap stdout requests draws
                       clock_reads].

(** Nothing is printed for an exception that the [try] lets through. *)
Lemma report_escapes (E : env) (source detail_type : str)
      (r : result response) (e : exn) :
  escapes r = Some e -> report E source detail_type r = [].
Proof.
  destruct r as [e' | resp]; [| discriminate]. cbn [escapes report].
  now destruct (is_Exception e').
Qed.

(** The run in full, however it ends.  It makes its calls in order until
    one raises an exception that is not an instance of [Exception], which
    ends the run; the details, the requests and the clock readings are those
    of the calls made, the second random draw is made before the third call,
    and the closing lines are printed when no call ended the run. *)
Lemma publish_sample_events_cases (E : env) (w : world) :
  publish_sample_events E w
  = (match run_escape E w with Some e => inl e | None => inr tt end,
     mk_world
       (heap w ++ firstn (calls_made E w) (run_details E w))
       (stdout w ++ opening_lines (run_order_id E w) ++ run_printed E w)
       (requests w
        ++ firstn (calls_made E w) (map (fun e => [e]) (run_entries E w)))
       (match calls_made E w with 3%nat => 2 | _ => 1 end + draws w)%nat
       (calls_made E w + clock_reads w)%nat).
Proof.
  destruct w as [h out reqs dr ck].
  unfold publish_sample_events. run_stmts.
  rewrite publish_event_step by reflexivity.
  unfold run_escape, calls_made, run_printed, run_details, run_outcome,
    run_entries, run_order_id, run_tracking_id, opening_lines, closing_lines.
  cbn [nth_error draws clock_reads requests map heap stdout].
  rewrite Nat.add_0_r. unfold call_result.
  destruct (escapes (events_client E (List.length reqs) _)) as [e0 |] eqn:H0.
  { rewrite (report_escapes _ _ _ _ _ H0). cbv iota.
    cbn [firstn Nat.add]. rewrite <- !app_assoc. cbn [app].
    reflexivity. }
  run_stmts. rewrite publish_event_step by reflexivity.
  rewrite (length_app reqs). cbn [List.length]. unfold call_result.
  destruct (escapes (events_client E (List.length reqs + 1)%nat _))
    as [e1 |] eqn:H1.
  { rewrite (report_escapes _ _ _ _ _ H1). cbv iota.
    cbn [firstn Nat.add]. rewrite <- !app_assoc. cbn [app].
    rewrite ?app_nil_r. reflexivity. }
  run_stmts. rewrite publish_event_step by reflexivity.
  rewrite (length_app (reqs ++ _)), (length_app reqs). cbn [List.length].
  rewrite <- Nat.add_assoc. cbn [Nat.add]. unfold call_result.
  destruct (escapes (events_client E (List.length reqs + 2)%nat _))
    as [e2 |] eqn:H2.
  { rewrite (report_escapes _ _ _ _ _ H2). cbv iota.
    cbn [firstn Nat.add]. rewrite <- !app_assoc. cbn [app].
    rewrite ?app_nil_r. reflexivity. }
  run_stmts. cbn [firstn Nat.add]. rewrite <- !app_assoc. cbn [app].
  reflexivity.
Qed.

(** No call of the run raises an exception that the [try] lets through. *)
Lemma run_escape_none (E : env) (w : world) :
  run_escape E w = None ->
  escapes (run_outcome E w 0) = None
  /\ escapes (run_outcome E w 1) = None
  /\ escapes (run_outcome E w 2) = None.
Proof.
  unfold run_escape. intros H.
  destruct (escapes (run_outcome E w 0)); [discriminate |].
  destruct (escapes (run_outcome E w 1)); [discriminate |].
  now repeat split.
Qed.

(** The run in full when no call ends it early: it returns normally,
    allocates the three details, draws two random values, reads the clock
    three times, sends three requests of one entry and prints the opening
    lines, the three reports and the closing lines. *)
Lemma publish_sample_events_run (E : env) (w : world) :
  run_escape E w = None ->
  publish_sample_events E w
  = (inr tt,
     mk_world
       (heap w ++ run_details E w)
       (stdout w ++ opening_lines (run_order_id E w) ++ run_reports E w
        ++ closing_lines)
       (requests w ++ map (fun e => [e]) (run_entries E w))
       (S (S (draws w))) (S (S (S (clock_reads w))))).
Proof.
  intros H. rewrite publish_sample_events_cases, H.
  destruct (run_escape_none E w H) as (H0 & H1 & H2).
  unfold calls_made, run_printed, run_reports.
  rewrite H0, H1, H2. cbn [firstn Nat.add]. rewrite <- !app_assoc.
  reflexivity.
Qed.

(** ** Reports *)

Lemma report_accepted (E : env) (source detail_type : str)
      (r : result response) (event_id : str) :
  accepted r event_id ->
  report E source detail_type r = confirmation source detail_type event_id.
Proof.
  intros (resp & entry & rest & -> & Hc & He & Hid).
  unfold report, first_event_id, list_item, dict_item, confirmation.
  rewrite Hc, He. cbn [Z.gtb Z.compare nth_error]. now rewrite Hid.
Qed.

Lemma report_failed (E : env) (source detail_type : str) (resp : response) :
  0 < FailedEntryCount resp ->
  report E source detail_type (inr resp)
  = [ u "❌ Failed: " ++ repr_entries (isprintable E) (Entries resp) ].
Proof.
  intros H. unfold report.
  now replace (FailedEntryCount resp >? 0) with true by (symmetry; lia).
Qed.

(** ** Calls that the [try] contains *)

Lemma accepted_escapes (r : result response) (event_id : str) :
  accepted r event_id -> escapes r = None.
Proof. now intros (resp & entry & rest & -> & _). Qed.

(** The [try] lets through exceptions outside [Exception] only. *)
Lemma escapes_Some (r : result response) (e : exn) :
  escapes r = Some e -> r = inl e /\ is_Exception e = false.
Proof.
  destruct r as [e0 | resp]; [| discriminate]. cbn [escapes].
  destruct (is_Exception e0) eqn:H0; [discriminate |].
  intros H. injection H as <-. now split.
Qed.

(** A run whose calls all return or raise an instance of [Exception] is not
    ended early. *)
Lemma run_escape_contained (E : env) (w : world) :
  (forall n entries, escapes (events_client E n entries) = None) ->
  run_escape E w = None.
Proof.
  intros H. unfold run_escape, run_outcome. cbn [run_entries nth_error].
  now rewrite !H.
Qed.

(** ** Counting lines by their prefix *)

Lemma starts_with_app (p a x : str) :
  starts_with p a = true -> starts_with p (a ++ x) = true.
Proof.
  revert a. induction p as [| c p IH]; intros a H; [reflexivity |].
  destruct a as [| c' a]; [discriminate |].
  cbn [starts_with app] in *. apply andb_prop in H as [H1 H2].
  now rewrite H1, IH.
Qed.

Lemma starts_with_app_differs (p a x : str) :
  starts_with (firstn (List.length a) p) a = false ->
  starts_with p (a ++ x) = false.
Proof.
  revert p. induction a as [| c' a IH]; intros p H.
  - now rewrite firstn_O in H.
  - destruct p as [| c p]; [discriminate |].
    cbn [List.length firstn starts_with app] in *.
    apply andb_false_iff in H as [H | H].
    + now rewrite H.
    + rewrite (IH p H). apply andb_false_r.
Qed.

Lemma count_lines_app (p : str) (l1 l2 : list str) :
  count_lines p (l1 ++ l2) = (count_lines p l1 + count_lines p l2)%nat.
Proof. unfold count_lines. now rewrite filter_app, length_app. Qed.

Lemma count_lines_cons (p line : str) (l : list str) :
  count_lines p (line :: l)
  = ((if starts_with p line then 1 else 0) + count_lines p l)%nat.
Proof. unfold count_lines. cbn [filter]. now destruct (starts_with p line). Qed.

Lemma count_opening_lines (oid : str) :
  count_lines ok_prefix (opening_lines oid) = 0%nat
  /\ count_lines failed_prefix (opening_lines oid) = 0%nat
  /\ count_lines error_prefix (opening_lines oid) = 0%nat.
Proof. repeat split; vm_compute; reflexivity. Qed.

Lemma count_closing_lines :
  count_lines ok_prefix closing_lines = 0%nat
  /\ count_lines failed_prefix closing_lines = 0%nat
  /\ count_lines error_prefix closing_lines = 0%nat.
Proof. repeat split; vm_compute; reflexivity. Qed.

Lemma count_confirmation (source detail_type event_id : str) :
  count_lines ok_prefix (confirmation source detail_type event_id) = 1%nat
  /\ count_lines failed_prefix (confirmation source detail_type event_id)
     = 0%nat
  /\ count_lines error_prefix (confirmation source detail_type event_id)
     = 0%nat.
Proof. repeat split; vm_compute; reflexivity. Qed.

Lemma count_failed_line (x : str) :
  count_lines ok_prefix [u "❌ Failed: " ++ x] = 0%nat
  /\ count_lines failed_prefix [u "❌ Failed: " ++ x] = 1%nat
  /\ count_lines error_prefix [u "❌ Failed: " ++ x] = 0%nat.
Proof. repeat split; vm_compute; reflexivity. Qed.

Lemma count_error_line (x : str) :
  count_lines ok_prefix [u "❌ Error: " ++ x] = 0%nat
  /\ count_lines failed_prefix [u "❌ Error: " ++ x] = 0%nat
  /\ count_lines error_prefix [u "❌ Error: " ++ x] = 1%nat.
Proof. repeat split; vm_compute; reflexivity. Qed.

(** The kinds of the three requests of a run, in order. *)
Lemma kinds_run_entries (E : env) (w : world) :
  kinds (map (fun e => [e]) (run_entries E w))
  = [ [ (u "app.orders", u "OrderCreated") ];
      [ (u "app.payments", u "PaymentFailed") ];
      [ (u "app.shipping", u "ShipmentCreated") ] ].
Proof. reflexivity. Qed.

(** ** The publisher *)

(** C1. When the client reports no failed entry and returns an event
    identifier at every call, a run of [publish_sample_events] returns
    normally, makes exactly three [put_events] calls, for order-created,
    payment-failed and shipment-created in this order, and prints, between
    the opening and the closing lines, exactly three success confirmations,
    one per call and in that order, each with the identifier the service
    assigned at that call. *)
Theorem publish_sample_events_all_accepted
        (E : env) (w : world) (event_id : nat -> str) :
  (forall n entries, accepted (events_client E n entries) (event_id n)) ->
  let k := List.length (requests w) in
  let confirmations :=
    confirmation (u "app.orders") (u "OrderCreated") (event_id k)
    ++ confirmation (u "app.payments") (u "PaymentFailed") (event_id (S k))
    ++ confirmation (u "app.shipping") (u "ShipmentCreated")
         (event_id (S (S k))) in
  let w' := snd (publish_sample_events E w) in
  fst (publish_sample_events E w) = inr tt
  /\ (exists calls,
        requests w' = requests w ++ calls
        /\ List.length calls = 3%nat
        /\ kinds calls
           = [ [ (u "app.orders", u "OrderCreated") ];
               [ (u "app.payments", u "PaymentFailed") ];
               [ (u "app.shipping", u "ShipmentCreated") ] ])
  /\ stdout w'
     = stdout w ++ opening_lines (run_order_id E w) ++ confirmations
       ++ closing_lines
  /\ count_lines ok_prefix
       (opening_lines (run_order_id E w) ++ confirmations ++ closing_lines)
     = 3%nat
  /\ count_lines failed_prefix
       (opening_lines (run_order_id E w) ++ confirmations ++ closing_lines)
     = 0%nat
  /\ count_lines error_prefix
       (opening_lines (run_order_id E w) ++ confirmations ++ closing_lines)
     = 0%nat.
Proof.
  intros Hc k confirmations w'. subst w'.
  rewrite publish_sample_events_run
    by (apply run_escape_contained; intros n entries;
        exact (accepted_escapes _ _ (Hc n entries))).
  cbn [fst snd]. world_fields.
  split; [reflexivity |]. split.
  { eexists. split; [reflexivity |]. split; [reflexivity |].
    apply kinds_run_entries. }
  assert (run_reports E w = confirmations) as ->.
  { unfold run_reports, run_outcome, confirmations. cbn [run_entries nth_error].
    rewrite !(report_accepted E _ _ _ _ (Hc _ _)).
    fold k. now rewrite Nat.add_0_r, !Nat.add_succ_r, !Nat.add_0_r. }
  split; [reflexivity |].
  subst confirmations. rewrite !count_lines_app.
  destruct (count_opening_lines (run_order_id E w)) as (-> & -> & ->).
  destruct count_closing_lines as (-> & -> & ->).
  destruct (count_confirmation (u "app.orders") (u "OrderCreated")
              (event_id k)) as (-> & -> & ->).
  destruct (count_confirmation (u "app.payments") (u "PaymentFailed")
              (event_id (S k))) as (-> & -> & ->).
  destruct (count_confirmation (u "app.shipping") (u "ShipmentCreated")
              (event_id (S (S k)))) as (-> & -> & ->).
  repeat split.
Qed.

Lemma publish_sample_events_all_accepted_witness :
  (forall n entries,
      accepted (events_client (Stub.env_of 0 Stub.accepting) n entries)
               (u "evt-0001"))
  /\ stdout (snd (publish_sample_events (Stub.env_of 0 Stub.accepting)
                    initial_world))
     = opening_lines (u "ORD-00000000")
       ++ (confirmation (u "app.orders") (u "OrderCreated") (u "evt-0001")
           ++ confirmation (u "app.payments") (u "PaymentFailed")
                (u "evt-0001")
           ++ confirmation (u "app.shipping") (u "ShipmentCreated")
                (u "evt-0001"))
       ++ closing_lines.
Proof.
  assert (H : forall n entries,
             accepted (events_client (Stub.env_of 0 Stub.accepting) n entries)
                      (u "evt-0001")).
  { intros n entries. exists (mk_response 0 [ [ (u "EventId", u "evt-0001") ] ]).
    eexists. eexists. repeat split. }
  split; [exact H |].
  exact (proj1 (proj2 (proj2
           (publish_sample_events_all_accepted
              (Stub.env_of 0 Stub.accepting) initial_world
              (fun _ => u "evt-0001") H)))).
Defined.

(** The output of a run that no call ends early. *)
Lemma publish_sample_events_stdout (E : env) (w : world) :
  run_escape E w = None ->
  stdout (snd (publish_sample_events E w))
  = stdout w ++ opening_lines (run_order_id E w) ++ run_reports E w
    ++ closing_lines.
Proof. intros H. now rewrite publish_sample_events_run. Qed.

(** The outcomes of the three calls of a run, with the index of each call. *)
Lemma run_outcome_calls (E : env) (w : world) :
  let k := List.length (requests w) in
  run_outcome E w 0
  = events_client E k [nth 0 (run_entries E w) (entry_for E 0 [] [] PNone)]
  /\ run_outcome E w 1
     = events_client E (S k)
         [nth 1 (run_entries E w) (entry_for E 0 [] [] PNone)]
  /\ run_outcome E w 2
     = events_client E (S (S k))
         [nth 2 (run_entries E w) (entry_for E 0 [] [] PNone)].
Proof.
  intros k. unfold run_outcome. cbn [run_entries nth_error nth].
  now rewrite Nat.add_0_r, !Nat.add_succ_r, !Nat.add_0_r.
Qed.

(** A run is not ended early when none of its three calls raises an
    exception that the [try] lets through. *)
Lemma run_escape_calls (E : env) (w : world) :
  (forall entries,
      escapes (events_client E (List.length (requests w)) entries) = None) ->
  (forall entries,
      escapes (events_client E (S (List.length (requests w))) entries)
      = None) ->
  (forall entries,
      escapes (events_client E (S (S (List.length (requests w)))) entries)
      = None) ->
  run_escape E w = None.
Proof.
  intros H0 H1 H2. unfold run_escape.
  destruct (run_outcome_calls E w) as (-> & -> & ->).
  now rewrite H0, H1, H2.
Qed.

(** A run makes one, two or three calls, and three when no call ends it
    early. *)
Lemma calls_made_range (E : env) (w : world) :
  (1 <= calls_made E w <= 3)%nat.
Proof.
  unfold calls_made.
  destruct (escapes (run_outcome E w 0)); [lia |].
  destruct (escapes (run_outcome E w 1)); lia.
Qed.

Lemma calls_made_complete (E : env) (w : world) :
  run_escape E w = None -> calls_made E w = 3%nat.
Proof.
  intros H. destruct (run_escape_none E w H) as (H0 & H1 & _).
  unfold calls_made. now rewrite H0, H1.
Qed.


(** The reports of a run, call by call, with the index of each call. *)
Lemma run_reports_calls (E : env) (w : world) :
  let k := List.length (requests w) in
  run_reports E w
  = report E (u "app.orders") (u "OrderCreated")
      (events_client E k [nth 0 (run_entries E w) (entry_for E 0 [] [] PNone)])
    ++ report E (u "app.payments") (u "PaymentFailed")
         (events_client E (S k)
            [nth 1 (run_entries E w) (entry_for E 0 [] [] PNone)])
    ++ report E (u "app.shipping") (u "ShipmentCreated")
         (events_client E (S (S k))
            [nth 2 (run_entries E w) (entry_for E 0 [] [] PNone)]).
Proof.
  intros k. unfold run_reports, run_outcome.
  cbn [run_entries nth_error nth].
  now rewrite Nat.add_0_r, !Nat.add_succ_r, !Nat.add_0_r.
Qed.

Lemma accepted_accept (event_id : str) :
  accepted (Stub.accept event_id) event_id.
Proof.
  exists (mk_response 0 [ [ (u "EventId", event_id) ] ]).
  eexists. eexists. repeat split.
Qed.

(** C2, the claim as it stands fails: a [KeyboardInterrupt] raised by the
    [put_events] call is not an instance of [Exception], so the [except]
    clause of line 32 lets it through; [publish_event] does not return
    normally and prints nothing. *)
Lemma keyboard_interrupt_is_not_caught :
  ~ (forall (E : env) (source detail_type : str) (l : loc) (w : world)
            (d : pyval) (js : str) (e : exn),
        nth_error (heap w) l = Some d ->
        dumps d = inr js ->
        events_client E (List.length (requests w))
          [ mk_put_entry BUS_NAME source detail_type js
              (utcnow E (clock_reads w)) ] = inl e ->
        let w' := snd (publish_event E source detail_type l w) in
        fst (publish_event E source detail_type l w) = inr tt
        /\ stdout w'
           = stdout w ++ [ u "❌ Error: " ++ exn_str (isprintable E) e ]).
Proof.
  intros H.
  destruct (H (Stub.env_of 0 Stub.interrupted) (u "app.orders")
              (u "OrderCreated") 0%nat (Stub.one_object (PDict []))
              (PDict []) (u "{}") KeyboardInterrupt eq_refl eq_refl eq_refl)
    as [Hr _].
  vm_compute in Hr. discriminate Hr.
Qed.

(** C2, amended.  The [put_events] call is made once, whatever it raises.
    An exception that is an instance of [Exception] is caught:
    [publish_event] returns normally and prints one diagnostic with the
    message of the exception.  Any other exception ([KeyboardInterrupt],
    [SystemExit]) leaves [publish_event], which prints nothing.  When the
    client accepts the first two calls of a run and raises at the third, the
    run makes its three calls and prints the two confirmations; for an
    instance of [Exception] it then prints one error diagnostic and the
    closing lines and returns normally, for any other exception it prints
    nothing more and the exception leaves [publish_sample_events]. *)
Theorem put_events_exception_is_caught :
  (forall (E : env) (source detail_type : str) (l : loc) (w : world)
          (d : pyval) (js : str) (e : exn),
      nth_error (heap w) l = Some d ->
      dumps d = inr js ->
      events_client E (List.length (requests w))
        [ mk_put_entry BUS_NAME source detail_type js
            (utcnow E (clock_reads w)) ] = inl e ->
      let w' := snd (publish_event E source detail_type l w) in
      List.length (requests w') = S (List.length (requests w))
      /\ (is_Exception e = true ->
          fst (publish_event E source detail_type l w) = inr tt
          /\ stdout w'
             = stdout w ++ [ u "❌ Error: " ++ exn_str (isprintable E) e ])
      /\ (is_Exception e = false ->
          fst (publish_event E source detail_type l w) = inl e
          /\ stdout w' = stdout w))
  /\ (forall (E : env) (w : world) (id0 id1 : str) (e : exn),
         (forall entries,
             accepted (events_client E (List.length (requests w)) entries)
                      id0) ->
         (forall entries,
             accepted (events_client E (S (List.length (requests w))) entries)
                      id1) ->
         (forall entries,
             events_client E (S (S (List.length (requests w)))) entries
             = inl e) ->
         let w' := snd (publish_sample_events E w) in
         let confirmations :=
           confirmation (u "app.orders") (u "OrderCreated") id0
           ++ confirmation (u "app.payments") (u "PaymentFailed") id1 in
         let reports :=
           confirmations
           ++ [ u "❌ Error: " ++ exn_str (isprintable E) e ] in
         List.length (requests w') = (List.length (requests w) + 3)%nat
         /\ (is_Exception e = true ->
             fst (publish_sample_events E w) = inr tt
             /\ stdout w'
                = stdout w ++ opening_lines (run_order_id E w) ++ reports
                  ++ closing_lines
             /\ count_lines ok_prefix
                  (opening_lines (run_order_id E w) ++ reports
                   ++ closing_lines)
                = 2%nat
             /\ count_lines error_prefix
                  (opening_lines (run_order_id E w) ++ reports
                   ++ closing_lines)
                = 1%nat)
         /\ (is_Exception e = false ->
             fst (publish_sample_events E w) = inl e
             /\ stdout w'
                = stdout w ++ opening_lines (run_order_id E w)
                  ++ confirmations)).
Proof.
  split.
  - intros E source detail_type l w d js e Hd Hj He w'. subst w'.
    rewrite (publish_event_run E source detail_type l w d js Hd Hj).
    cbn [fst snd]. world_fields. rewrite He.
    split; [now rewrite length_app, Nat.add_comm |].
    unfold call_result. cbn [escapes report].
    split; intros ->; [now split | split; [reflexivity | apply app_nil_r]].
  - intros E w id0 id1 e H0 H1 H2 w' confirmations reports. subst w'.
    rewrite publish_sample_events_cases. cbn [fst snd]. world_fields.
    unfold calls_made, run_escape, run_printed.
    destruct (run_outcome_calls E w) as (-> & -> & ->).
    rewrite (accepted_escapes _ _ (H0 _)), (accepted_escapes _ _ (H1 _)),
      (report_accepted E _ _ _ id0 (H0 _)),
      (report_accepted E _ _ _ id1 (H1 _)), H2.
    cbn [escapes report]. split.
    { destruct (is_Exception e); rewrite length_app, length_firstn, length_map;
        reflexivity. }
    split; intros ->.
    + split; [reflexivity |].
      split; [subst reports confirmations; now rewrite <- !app_assoc |].
      subst reports confirmations. rewrite !count_lines_app.
      destruct (count_opening_lines (run_order_id E w)) as (-> & _ & ->).
      destruct count_closing_lines as (-> & _ & ->).
      destruct (count_confirmation (u "app.orders") (u "OrderCreated") id0)
        as (-> & _ & ->).
      destruct (count_confirmation (u "app.payments") (u "PaymentFailed") id1)
        as (-> & _ & ->).
      destruct (count_error_line (exn_str (isprintable E) e)) as (-> & _ & ->).
      split; reflexivity.
    + split; [reflexivity |]. subst confirmations.
      now rewrite app_nil_r.
Qed.

Lemma put_events_exception_is_caught_witness :
  stdout (snd (publish_event (Stub.env_of 0 Stub.raising) (u "app.orders")
                 (u "OrderCreated") 0%nat (Stub.one_object (PDict []))))
  = [ u "❌ Error: " ++ u "timed out" ]
  /\ fst (publish_event (Stub.env_of 0 Stub.interrupted) (u "app.orders")
            (u "OrderCreated") 0%nat (Stub.one_object (PDict [])))
     = inl KeyboardInterrupt
  /\ stdout (snd (publish_sample_events (Stub.env_of 0 Stub.raising_third)
                    initial_world))
     = opening_lines (u "ORD-00000000")
       ++ ((confirmation (u "app.orders") (u "OrderCreated") (u "evt-0001")
            ++ confirmation (u "app.payments") (u "PaymentFailed")
                 (u "evt-0001"))
           ++ [ u "❌ Error: " ++ u "timed out" ])
       ++ closing_lines
  /\ stdout (snd (publish_sample_events
                    (Stub.env_of 0 Stub.interrupted_third) initial_world))
     = opening_lines (u "ORD-00000000")
       ++ (confirmation (u "app.orders") (u "OrderCreated") (u "evt-0001")
           ++ confirmation (u "app.payments") (u "PaymentFailed")
                (u "evt-0001")).
Proof.
  split; [| split; [| split]].
  - exact (proj2 (proj1 (proj2
             (proj1 put_events_exception_is_caught
                (Stub.env_of 0 Stub.raising) (u "app.orders")
                (u "OrderCreated") 0%nat (Stub.one_object (PDict []))
                (PDict []) (u "{}") Stub.timeout eq_refl eq_refl eq_refl))
             eq_refl)).
  - exact (proj1 (proj2 (proj2
             (proj1 put_events_exception_is_caught
                (Stub.env_of 0 Stub.interrupted) (u "app.orders")
                (u "OrderCreated") 0%nat (Stub.one_object (PDict []))
                (PDict []) (u "{}") KeyboardInterrupt eq_refl eq_refl
                eq_refl))
             eq_refl)).
  - exact (proj1 (proj2 (proj1 (proj2
             (proj2 put_events_exception_is_caught
                (Stub.env_of 0 Stub.raising_third) initial_world
                (u "evt-0001") (u "evt-0001") Stub.timeout
                (fun _ => accepted_accept _) (fun _ => accepted_accept _)
                (fun _ => eq_refl)))
             eq_refl))).
  - exact (proj2 (proj2 (proj2
             (proj2 put_events_exception_is_caught
                (Stub.env_of 0 Stub.interrupted_third) initial_world
                (u "evt-0001") (u "evt-0001") KeyboardInterrupt
                (fun _ => accepted_accept _) (fun _ => accepted_accept _)
                (fun _ => eq_refl)))
             eq_refl)).
Defined.

(** C3. When the client reports one failed entry at the second call of a run
    and accepts the two others, the run still makes its three calls and
    returns normally; it prints the first confirmation, then one failure
    diagnostic listing the entries of the second reply, then the third
    confirmation: one failure diagnostic in all. *)
Theorem second_call_failure_is_reported
        (E : env) (w : world) (id0 id2 : str) (resp : response) :
  (forall entries,
      accepted (events_client E (List.length (requests w)) entries) id0) ->
  (forall entries,
      events_client E (S (List.length (requests w))) entries = inr resp) ->
  FailedEntryCount resp = 1 ->
  (forall entries,
      accepted (events_client E (S (S (List.length (requests w)))) entries)
               id2) ->
  let w' := snd (publish_sample_events E w) in
  let reports :=
    confirmation (u "app.orders") (u "OrderCreated") id0
    ++ [ u "❌ Failed: " ++ repr_entries (isprintable E) (Entries resp) ]
    ++ confirmation (u "app.shipping") (u "ShipmentCreated") id2 in
  fst (publish_sample_events E w) = inr tt
  /\ (exists calls,
        requests w' = requests w ++ calls
        /\ List.length calls = 3%nat
        /\ kinds calls
           = [ [ (u "app.orders", u "OrderCreated") ];
               [ (u "app.payments", u "PaymentFailed") ];
               [ (u "app.shipping", u "ShipmentCreated") ] ])
  /\ stdout w'
     = stdout w ++ opening_lines (run_order_id E w) ++ reports
       ++ closing_lines
  /\ count_lines failed_prefix
       (opening_lines (run_order_id E w) ++ reports ++ closing_lines)
     = 1%nat
  /\ count_lines ok_prefix
       (opening_lines (run_order_id E w) ++ reports ++ closing_lines)
     = 2%nat
  /\ count_lines error_prefix
       (opening_lines (run_order_id E w) ++ reports ++ closing_lines)
     = 0%nat.
Proof.
  intros H0 H1 Hc H2 w' reports. subst w'.
  rewrite publish_sample_events_run
    by (apply run_escape_calls; intros entries;
        [ exact (accepted_escapes _ _ (H0 entries))
        | now rewrite H1
        | exact (accepted_escapes _ _ (H2 entries)) ]).
  cbn [fst snd]. world_fields.
  rewrite run_reports_calls.
  rewrite (report_accepted E _ _ _ id0 (H0 _)), H1,
    (report_accepted E _ _ _ id2 (H2 _)), report_failed by lia.
  fold reports.
  split; [reflexivity |]. split.
  { eexists. split; [reflexivity |]. split; [reflexivity |].
    apply kinds_run_entries. }
  split; [reflexivity |].
  subst reports. rewrite !count_lines_app.
  destruct (count_opening_lines (run_order_id E w)) as (-> & -> & ->).
  destruct count_closing_lines as (-> & -> & ->).
  destruct (count_confirmation (u "app.orders") (u "OrderCreated") id0)
    as (-> & -> & ->).
  destruct (count_confirmation (u "app.shipping") (u "ShipmentCreated") id2)
    as (-> & -> & ->).
  destruct (count_failed_line (repr_entries (isprintable E) (Entries resp)))
    as (-> & -> & ->).
  repeat split.
Qed.

Lemma second_call_failure_is_reported_witness :
  stdout (snd (publish_sample_events (Stub.env_of 0 Stub.failing_second)
                 initial_world))
  = opening_lines (u "ORD-00000000")
    ++ (confirmation (u "app.orders") (u "OrderCreated") (u "evt-0001")
        ++ [ u "❌ Failed: "
               ++ u "[{'ErrorCode': 'InternalFailure', 'ErrorMessage': 'try again'}]" ]
        ++ confirmation (u "app.shipping") (u "ShipmentCreated")
             (u "evt-0001"))
    ++ closing_lines.
Proof.
  refine (eq_trans
            (proj1 (proj2 (proj2
               (second_call_failure_is_reported
                  (Stub.env_of 0 Stub.failing_second) initial_world
                  (u "evt-0001") (u "evt-0001")
                  (mk_response 1 [ [ (u "ErrorCode", u "InternalFailure");
                                     (u "ErrorMessage", u "try again") ] ])
                  (fun _ => accepted_accept _) (fun _ => eq_refl) eq_refl
                  (fun _ => accepted_accept _))))) _).
  vm_compute. reflexivity.
Defined.

(** C4. A call of [publish_event] on a detail object that serializes sends
    one request of exactly one entry; the entry carries the bus name
    ["ecom-bus"], the given source and detail type, the text [json.dumps]
    returns for the detail, and the reading of the clock made during the
    call. *)
Theorem publish_event_submits_one_entry
        (E : env) (source detail_type : str) (l : loc) (w : world)
        (d : pyval) (js : str) :
  nth_error (heap w) l = Some d ->
  dumps d = inr js ->
  let w' := snd (publish_event E source detail_type l w) in
  exists entry,
    requests w' = requests w ++ [ [ entry ] ]
    /\ EventBusName entry = u "ecom-bus"
    /\ Source entry = source
    /\ DetailType entry = detail_type
    /\ Detail entry = js
    /\ Time entry = utcnow E (clock_reads w)
    /\ clock_reads w' = S (clock_reads w).
Proof.
  intros Hd Hj w'. subst w'.
  rewrite (publish_event_run E source detail_type l w d js Hd Hj).
  cbn [snd]. world_fields. eexists. split; [reflexivity |].
  cbn [EventBusName Source DetailType Detail Time]. repeat split.
Qed.

Lemma publish_event_submits_one_entry_witness :
  exists entry,
    requests (snd (publish_event (Stub.env_of 0 Stub.accepting)
                     (u "app.payments") (u "PaymentFailed") 0%nat
                     (Stub.one_object (PDict [ (u "retryCount", PInt 2) ]))))
    = [ [ entry ] ]
    /\ EventBusName entry = u "ecom-bus"
    /\ Source entry = u "app.payments"
    /\ DetailType entry = u "PaymentFailed"
    /\ Detail entry = [123; 34] ++ u "retryCount" ++ [34] ++ u ": 2}"
    /\ Time entry = 0
    /\ clock_reads (snd (publish_event (Stub.env_of 0 Stub.accepting)
                           (u "app.payments") (u "PaymentFailed") 0%nat
                           (Stub.one_object
                              (PDict [ (u "retryCount", PInt 2) ]))))
       = 1%nat.
Proof.
  apply (publish_event_submits_one_entry (Stub.env_of 0 Stub.accepting)
           (u "app.payments") (u "PaymentFailed") 0%nat
           (Stub.one_object (PDict [ (u "retryCount", PInt 2) ]))
           (PDict [ (u "retryCount", PInt 2) ])
           ([123; 34] ++ u "retryCount" ++ [34] ++ u ": 2}")).
  - reflexivity.
  - vm_compute. reflexivity.
Defined.




(** C9, the claim as it stands fails: when the first call is interrupted
    from the keyboard, the run ends there and its output, the four opening
    lines, does not end with the closing lines. *)
Lemma interrupted_run_prints_no_closing_lines :
  ~ (forall (E : env) (w : world),
        exists printed,
          stdout (snd (publish_sample_events E w)) = printed ++ closing_lines).
Proof.
  intros H.
  destruct (H (Stub.env_of 0 Stub.interrupted) initial_world)
    as [printed Hp].
  assert (Hl : List.length
                 (stdout (snd (publish_sample_events
                                 (Stub.env_of 0 Stub.interrupted)
                                 initial_world))) = 4%nat)
    by (vm_compute; reflexivity).
  rewrite Hp, length_app in Hl.
  change (List.length closing_lines) with 6%nat in Hl. lia.
Qed.

(** C9, amended.  A run that no call ends by an exception outside
    [Exception] prints the six closing lines last, the line "All events
    published successfully!" among them, whatever the calls returned or
    raised: the output is the opening lines, the reports of the three calls
    and the closing lines, and the closing lines do not depend on the
    reports.  A run that a call ends by such an exception prints the opening
    lines and reports of earlier calls only. *)
Theorem closing_lines_after_the_calls (E : env) (w : world) :
  (run_escape E w = None ->
   stdout (snd (publish_sample_events E w))
   = (stdout w ++ opening_lines (run_order_id E w) ++ run_reports E w)
     ++ closing_lines)
  /\ nth_error closing_lines 1 = Some (u "🎉 All events published successfully!")
  /\ skipn 2 closing_lines
     = [ u "📋 Expected routing:";
         u "   • OrderCreated → topic-orders + q-orders";
         u "   • PaymentFailed → topic-alerts";
         u "   • ShipmentCreated → q-shipments" ]
  /\ (forall e,
         run_escape E w = Some e ->
         fst (publish_sample_events E w) = inl e
         /\ exists reports rest,
              stdout (snd (publish_sample_events E w))
              = stdout w ++ opening_lines (run_order_id E w) ++ reports
              /\ run_reports E w = reports ++ rest).
Proof.
  split; [| split; [| split]]; [| reflexivity | reflexivity |].
  - intros H. now rewrite publish_sample_events_stdout, <- !app_assoc.
  - intros e H. rewrite publish_sample_events_cases, H. cbn [fst snd stdout].
    split; [reflexivity |].
    unfold run_escape in H. unfold run_printed, run_reports.
    destruct (escapes (run_outcome E w 0)) as [e0 |] eqn:H0.
    { exists [], (run_reports E w). now split. }
    destruct (escapes (run_outcome E w 1)) as [e1 |] eqn:H1.
    { exists (report E (u "app.orders") (u "OrderCreated")
                (run_outcome E w 0)).
      eexists. split; [now rewrite app_nil_r | reflexivity]. }
    rewrite H.
    exists (report E (u "app.orders") (u "OrderCreated") (run_outcome E w 0)
            ++ report E (u "app.payments") (u "PaymentFailed")
                 (run_outcome E w 1)).
    eexists. split; [now rewrite app_nil_r, app_assoc | apply app_assoc].
Qed.

Lemma closing_lines_after_the_calls_witness :
  stdout (snd (publish_sample_events (Stub.env_of 0 Stub.raising)
                 initial_world))
  = (opening_lines (u "ORD-00000000")
     ++ run_reports (Stub.env_of 0 Stub.raising) initial_world)
    ++ closing_lines
  /\ fst (publish_sample_events (Stub.env_of 0 Stub.interrupted)
            initial_world)
     = inl KeyboardInterrupt.
Proof.
  split.
  - exact (proj1 (closing_lines_after_the_calls
                    (Stub.env_of 0 Stub.raising) initial_world) eq_refl).
  - exact (proj1 (proj2 (proj2 (proj2
             (closing_lines_after_the_calls
                (Stub.env_of 0 Stub.interrupted) initial_world)))
             KeyboardInterrupt eq_refl)).
Defined.

(** The closing lines after three calls that all raise. *)
Example closing_lines_after_three_errors :
  fst (main (Stub.env_of 0 Stub.raising)) = 0
  /\ stdout (snd (main (Stub.env_of 0 Stub.raising)))
     = opening_lines (u "ORD-00000000")
       ++ [ u "❌ Error: " ++ u "timed out";
            u "❌ Error: " ++ u "timed out";
            u "❌ Error: " ++ u "timed out" ]
       ++ closing_lines.
Proof. split; vm_compute; reflexivity. Qed.

(** A detail that [json.dumps] refuses: the [TypeError] is reported, nothing
    is sent, and the call returns. *)
Example unserializable_detail_is_reported :
  publish_event (Stub.env_of 0 Stub.accepting) (u "app.orders")
    (u "OrderCreated") 0%nat
    (Stub.one_object (PDict [ (u "tags", PObject (u "set")) ]))
  = (inr tt,
     mk_world [ PDict [ (u "tags", PObject (u "set")) ] ]
       [ u "❌ Error: " ++ u "Object of type set is not JSON serializable" ]
       [] 0 0).
Proof. vm_compute. reflexivity. Qed.

(** C10. A call of [publish_event] leaves every object of the heap as it
    was, the detail object it is given among them, whatever the client does
    and whether or not the detail serializes. *)
Theorem publish_event_preserves_detail
        (E : env) (source detail_type : str) (detail : loc) (w : world) :
  let w' := snd (publish_event E source detail_type detail w) in
  heap w' = heap w /\ nth_error (heap w') detail = nth_error (heap w) detail.
Proof.
  intros w'. subst w'.
  destruct (publish_event_frame E source detail_type detail w) as [Hh _].
  now rewrite Hh.
Qed.

(** ** The identifier of the order *)

Lemma uuid4_int_high_bits (r n : Z) :
  80 <= n -> Z.testbit (uuid4_int r) n = Z.testbit (r mod 2 ^ 128) n.
Proof.
  intros Hn. unfold uuid4_int.
  rewrite Z.lor_spec, Z.land_spec, Z.lor_spec, Z.land_spec, !Z.lnot_spec by lia.
  rewrite (Z.bits_above_log2 (Z.shiftl 49152 48)),
    (Z.bits_above_log2 (Z.shiftl 32768 48)),
    (Z.bits_above_log2 (Z.shiftl 61440 64)),
    (Z.bits_above_log2 (Z.shiftl 4 76)); try (cbn; lia).
  cbn [negb]. now rewrite !andb_true_r, !orb_false_r.
Qed.

Lemma uuid4_int_nonneg (r : Z) : 0 <= uuid4_int r.
Proof.
  unfold uuid4_int. apply Z.lor_nonneg. split; [| cbn; lia].
  apply Z.land_nonneg. left. apply Z.lor_nonneg. split; [| cbn; lia].
  apply Z.land_nonneg. left. apply Z.mod_pos_bound. lia.
Qed.

Lemma uuid4_int_lt (r : Z) : uuid4_int r < 2 ^ 128.
Proof.
  assert (H : uuid4_int r mod 2 ^ 128 = uuid4_int r).
  { apply Z.bits_inj'. intros n Hn.
    destruct (Z.lt_ge_cases n 128) as [Hlt | Hge].
    - now rewrite Z.mod_pow2_bits_low.
    - rewrite Z.mod_pow2_bits_high by lia.
      rewrite uuid4_int_high_bits by lia.
      now rewrite Z.mod_pow2_bits_high by lia. }
  rewrite <- H. apply Z.mod_pos_bound. lia.
Qed.

Lemma uuid4_int_leading (r : Z) : uuid4_int r / 2 ^ 96 = leading32 r.
Proof.
  unfold leading32. rewrite <- !Z.shiftr_div_pow2 by lia.
  apply Z.bits_inj'. intros n Hn.
  rewrite !Z.shiftr_spec by lia. apply uuid4_int_high_bits. lia.
Qed.

Lemma leading32_range (r : Z) : 0 <= leading32 r < 2 ^ 32.
Proof.
  unfold leading32.
  pose proof (Z.mod_pos_bound r (2 ^ 128) ltac:(lia)) as H.
  split.
  - apply Z.div_pos; lia.
  - apply Z.div_lt_upper_bound; [lia |].
    change (2 ^ 96 * 2 ^ 32) with (2 ^ 128). lia.
Qed.

Lemma format_032x_small (x : Z) :
  0 <= x < 2 ^ 128 -> format_032x x = hex_digits 32 x.
Proof.
  intros Hx. unfold format_032x, hex_width.
  destruct (x =? 0) eqn:H0; [reflexivity |].
  apply Z.eqb_neq in H0.
  assert (Z.log2 x < 128) by (apply Z.log2_lt_pow2; lia).
  assert (0 <= Z.log2 x) by apply Z.log2_nonneg.
  assert (Z.log2 x / 4 < 32) by (apply Z.div_lt_upper_bound; lia).
  assert (0 <= Z.log2 x / 4) by (apply Z.div_pos; lia).
  rewrite Nat.max_l; [reflexivity | lia].
Qed.

Lemma firstn_hex_digits (k j : nat) (x : Z) :
  firstn k (hex_digits (k + j) x) = hex_digits k (x / 16 ^ Z.of_nat j).
Proof.
  induction k as [| k IH]; [reflexivity |].
  cbn [Nat.add hex_digits firstn]. rewrite IH. f_equal. f_equal. f_equal.
  rewrite Z.div_div by lia. f_equal.
  rewrite <- Z.pow_add_r by lia. f_equal. lia.
Qed.

Lemma hexval_upper_hexdigit (d : Z) :
  0 <= d < 16 ->
  hexval (upper_char (hexdigit d)) = Some d
  /\ is_upper_hex (upper_char (hexdigit d)) = true.
Proof.
  intros H.
  assert (d = 0 \/ d = 1 \/ d = 2 \/ d = 3 \/ d = 4 \/ d = 5 \/ d = 6 \/ d = 7
          \/ d = 8 \/ d = 9 \/ d = 10 \/ d = 11 \/ d = 12 \/ d = 13 \/ d = 14
          \/ d = 15) as Hd by lia.
  repeat (destruct Hd as [-> | Hd]; [now vm_compute |]).
  subst d. now vm_compute.
Qed.

Lemma upper_hex_digits_pattern (k : nat) (x : Z) :
  List.length (upper (hex_digits k x)) = k
  /\ forallb is_upper_hex (upper (hex_digits k x)) = true.
Proof.
  induction k as [| k [IH1 IH2]]; [now split |].
  cbn [hex_digits upper map List.length forallb]. fold (upper (hex_digits k x)).
  rewrite IH1, IH2.
  destruct (hexval_upper_hexdigit ((x / 16 ^ Z.of_nat k) mod 16)) as [_ ->].
  - apply Z.mod_pos_bound. lia.
  - now split.
Qed.

(** The digits determine the number they print. *)
Lemma upper_hex_digits_inj (k : nat) (a b : Z) :
  upper (hex_digits k a) = upper (hex_digits k b) ->
  a mod 16 ^ Z.of_nat k = b mod 16 ^ Z.of_nat k.
Proof.
  induction k as [| k IH]; intros H.
  - now rewrite !Z.mod_1_r.
  - cbn [hex_digits upper map] in H. injection H as Hd Hr.
    specialize (IH Hr).
    assert (Hda := proj1 (hexval_upper_hexdigit ((a / 16 ^ Z.of_nat k) mod 16)
                            (Z.mod_pos_bound _ 16 ltac:(lia)))).
    assert (Hdb := proj1 (hexval_upper_hexdigit ((b / 16 ^ Z.of_nat k) mod 16)
                            (Z.mod_pos_bound _ 16 ltac:(lia)))).
    rewrite Hd, Hdb in Hda. injection Hda as Hda.
    replace (Z.of_nat (S k)) with (Z.of_nat k + 1) by lia.
    rewrite Z.pow_add_r, Z.pow_1_r by lia.
    rewrite !Z.rem_mul_r by lia. now rewrite IH, Hda.
Qed.

(** The identifier of the order, from the leading 32 bits of the draw. *)
Lemma order_id_of_uuid4 (r : Z) :
  order_id_of (uuid4_int r) = u "ORD-" ++ upper (hex_digits 8 (leading32 r)).
Proof.
  unfold order_id_of.
  rewrite format_032x_small
    by (split; [apply uuid4_int_nonneg | apply uuid4_int_lt]).
  rewrite (firstn_hex_digits 8 24). change (16 ^ Z.of_nat 24) with (2 ^ 96).
  now rewrite uuid4_int_leading.
Qed.

Lemma order_id_of_uuid4_pattern (r : Z) :
  is_order_id (order_id_of (uuid4_int r)) = true.
Proof.
  rewrite order_id_of_uuid4. unfold is_order_id.
  change (u "ORD-" ++ upper (hex_digits 8 (leading32 r)))
    with (79 :: 82 :: 68 :: 45 :: upper (hex_digits 8 (leading32 r))).
  change (u "ORD-") with [79; 82; 68; 45].
  cbn [strip_prefix Z.eqb Pos.eqb].
  destruct (upper_hex_digits_pattern 8 (leading32 r)) as [-> ->].
  reflexivity.
Qed.

Lemma order_id_of_uuid4_eq (r1 r2 : Z) :
  order_id_of (uuid4_int r1) = order_id_of (uuid4_int r2)
  <-> leading32 r1 = leading32 r2.
Proof.
  rewrite !order_id_of_uuid4. split.
  - intros H. apply app_inv_head in H. apply upper_hex_digits_inj in H.
    change (16 ^ Z.of_nat 8) with (2 ^ 32) in H.
    rewrite !Z.mod_small in H by apply leading32_range. exact H.
  - now intros ->.
Qed.

(** C7. The identifier of the order of every run has the form [ORD-]
    followed by exactly 8 upper-case hexadecimal digits, and it is the
    identifier the run prints.  The identifiers of two runs are equal
    exactly when the leading 32 bits of their random draws are equal: they
    differ when those bits differ, and two distinct draws that share them
    give the same identifier. *)
Theorem order_id_pattern_and_distinctness (E1 E2 : env) (w1 w2 : world) :
  is_order_id (run_order_id E1 w1) = true
  /\ In (u "📦 Order ID: " ++ run_order_id E1 w1)
        (stdout (snd (publish_sample_events E1 w1)))
  /\ (run_order_id E1 w1 = run_order_id E2 w2
      <-> leading32 (urandom16 E1 (draws w1))
          = leading32 (urandom16 E2 (draws w2))).
Proof.
  split; [apply order_id_of_uuid4_pattern |]. split.
  - rewrite publish_sample_events_cases. cbn [snd stdout].
    apply in_or_app. right. apply in_or_app. left.
    unfold opening_lines. cbn [In]. auto.
  - apply order_id_of_uuid4_eq.
Qed.

(** Two runs whose random draws, and whose UUIDs, are distinct, and whose
    order identifiers are the same: the draws 0 and 1. *)
Lemma distinct_draws_same_order_id :
  ~ (forall (E1 E2 : env) (w1 w2 : world),
        uuid4_int (urandom16 E1 (draws w1))
        <> uuid4_int (urandom16 E2 (draws w2)) ->
        run_order_id E1 w1 <> run_order_id E2 w2).
Proof.
  intros H.
  apply (H (Stub.env_of 0 Stub.accepting) (Stub.env_of 1 Stub.accepting)
           initial_world initial_world).
  - vm_compute. discriminate.
  - vm_compute. reflexivity.
Qed.

(** ** Round trip: strings *)

Ltac if_false c := replace c with false by (symmetry; lia).
Ltac if_true c := replace c with true by (symmetry; lia).

Lemma scanstring_plain (c : Z) (t : str) :
  c <> 34 -> c <> 92 -> 32 <= c ->
  scanstring (c :: t) = cons_char c (scanstring t).
Proof.
  intros H1 H2 H3. cbn [scanstring].
  if_false (c =? 34). if_false (c =? 92). if_false (c <? 32). reflexivity.
Qed.

Lemma scanstring_escape (e ch : Z) (t : str) :
  backslash e = Some ch -> e <> 117 ->
  scanstring (92 :: e :: t) = cons_char ch (scanstring t).
Proof.
  intros H1 H2. cbn [scanstring].
  change (92 =? 34) with false. change (92 =? 92) with true. cbv iota.
  if_false (e =? 117). now rewrite H1.
Qed.

Lemma scanstring_u4 (a b c d uni : Z) (t : str) :
  hex4 a b c d = Some uni ->
  ~ (55296 <= uni <= 56319) ->
  scanstring (92 :: 117 :: a :: b :: c :: d :: t)
  = cons_char uni (scanstring t).
Proof.
  intros H1 H2. cbn [scanstring].
  change (92 =? 34) with false. change (92 =? 92) with true.
  change (117 =? 117) with true. cbv iota. rewrite H1.
  if_false ((55296 <=? uni) && (uni <=? 56319)). reflexivity.
Qed.

Lemma scanstring_pair (a b c d a2 b2 c2 d2 hi lo : Z) (t : str) :
  hex4 a b c d = Some hi -> 55296 <= hi <= 56319 ->
  hex4 a2 b2 c2 d2 = Some lo -> 56320 <= lo <= 57343 ->
  scanstring (92 :: 117 :: a :: b :: c :: d
              :: 92 :: 117 :: a2 :: b2 :: c2 :: d2 :: t)
  = cons_char (65536 + Z.lor (Z.shiftl (hi - 55296) 10) (lo - 56320))
      (scanstring t).
Proof.
  intros H1 H2 H3 H4. cbn [scanstring].
  change (92 =? 34) with false. change (92 =? 92) with true.
  change (117 =? 117) with true. cbv iota. rewrite H1.
  if_true ((55296 <=? hi) && (hi <=? 56319)).
  cbn [andb]. cbv iota. rewrite H3.
  if_true ((56320 <=? lo) && (lo <=? 57343)). reflexivity.
Qed.

Lemma hexval_hexdigit (d : Z) : 0 <= d < 16 -> hexval (hexdigit d) = Some d.
Proof.
  intros H.
  assert (d = 0 \/ d = 1 \/ d = 2 \/ d = 3 \/ d = 4 \/ d = 5 \/ d = 6 \/ d = 7
          \/ d = 8 \/ d = 9 \/ d = 10 \/ d = 11 \/ d = 12 \/ d = 13 \/ d = 14
          \/ d = 15) as Hd by lia.
  repeat (destruct Hd as [-> | Hd]; [reflexivity |]).
  now subst d.
Qed.

(** The four digits of a [\uXXXX] escape read back as the code unit. *)
Lemma hex4_digits (c : Z) :
  0 <= c < 65536 ->
  hex4 (hexdigit ((c / 4096) mod 16)) (hexdigit ((c / 256) mod 16))
       (hexdigit ((c / 16) mod 16)) (hexdigit ((c / 1) mod 16))
  = Some c.
Proof.
  intros H. unfold hex4.
  rewrite !hexval_hexdigit by (apply Z.mod_pos_bound; lia).
  f_equal. rewrite Z.div_1_r.
  assert (E2 : c / 256 = c / 16 / 16) by (now rewrite Z.div_div by lia).
  assert (E3 : c / 4096 = c / 16 / 16 / 16) by (now rewrite !Z.div_div by lia).
  rewrite E2, E3.
  assert (0 <= c / 4096 < 16).
  { split; [apply Z.div_pos; lia | apply Z.div_lt_upper_bound; lia]. }
  rewrite (Z.mod_small (c / 16 / 16 / 16)) by lia.
  pose proof (Z.div_mod c 16 ltac:(lia)).
  pose proof (Z.div_mod (c / 16) 16 ltac:(lia)).
  pose proof (Z.div_mod (c / 16 / 16) 16 ltac:(lia)).
  lia.
Qed.

Lemma hex_digits_4 (c : Z) :
  hex_digits 4 c
  = [ hexdigit ((c / 4096) mod 16); hexdigit ((c / 256) mod 16);
      hexdigit ((c / 16) mod 16); hexdigit ((c / 1) mod 16) ].
Proof. reflexivity. Qed.

Lemma lor_shiftl_low (h l n : Z) :
  0 <= n -> 0 <= l < 2 ^ n -> Z.lor (Z.shiftl h n) l = h * 2 ^ n + l.
Proof.
  intros Hn Hl.
  assert (H : Z.land (Z.shiftl h n) l = 0).
  { apply Z.bits_inj'. intros m Hm. rewrite Z.land_spec, Z.bits_0.
    destruct (Z.lt_ge_cases m n) as [Hlt | Hge].
    - now rewrite Z.shiftl_spec_low.
    - assert (Z.testbit l m = false) as ->; [| apply andb_false_r].
      destruct (Z.eq_dec l 0) as [-> | Hl0]; [apply Z.bits_0 |].
      apply Z.bits_above_log2; [lia |].
      assert (Z.log2 l < n) by (apply Z.log2_lt_pow2; lia). lia. }
  now rewrite <- Z.lxor_lor, <- Z.add_nocarry_lxor, Z.shiftl_mul_pow2.
Qed.

(** The surrogate pair of a character beyond U+FFFF, and back. *)
Lemma surrogate_pair (c : Z) :
  65536 <= c < 1114112 ->
  let v := c - 65536 in
  let s1 := Z.lor 55296 (Z.land (Z.shiftr v 10) 1023) in
  let s2 := Z.lor 56320 (Z.land v 1023) in
  55296 <= s1 <= 56319 /\ 56320 <= s2 <= 57343
  /\ 65536 + Z.lor (Z.shiftl (s1 - 55296) 10) (s2 - 56320) = c.
Proof.
  intros Hc v s1 s2.
  assert (Hv : 0 <= v < 1048576) by (subst v; lia).
  assert (H1 : s1 = 55296 + v / 1024).
  { subst s1. change 55296 with (Z.shiftl 54 10) at 1.
    change 1023 with (Z.ones 10).
    rewrite Z.land_ones, Z.shiftr_div_pow2 by lia.
    change (2 ^ 10) with 1024.
    assert (0 <= v / 1024 < 1024).
    { split; [apply Z.div_pos; lia | apply Z.div_lt_upper_bound; lia]. }
    rewrite Z.mod_small by lia.
    rewrite lor_shiftl_low by (change (2 ^ 10) with 1024; lia).
    reflexivity. }
  assert (H2 : s2 = 56320 + v mod 1024).
  { subst s2. change 56320 with (Z.shiftl 55 10) at 1.
    change 1023 with (Z.ones 10). rewrite Z.land_ones by lia.
    change (2 ^ 10) with 1024.
    pose proof (Z.mod_pos_bound v 1024 ltac:(lia)).
    rewrite lor_shiftl_low by (change (2 ^ 10) with 1024; lia).
    reflexivity. }
  pose proof (Z.mod_pos_bound v 1024 ltac:(lia)) as Hm.
  assert (Hd : 0 <= v / 1024 < 1024).
  { split; [apply Z.div_pos; lia | apply Z.div_lt_upper_bound; lia]. }
  split; [lia |]. split; [lia |].
  rewrite H1, H2.
  replace (55296 + v / 1024 - 55296) with (v / 1024) by lia.
  replace (56320 + v mod 1024 - 56320) with (v mod 1024) by lia.
  rewrite lor_shiftl_low by (change (2 ^ 10) with 1024; lia).
  change (2 ^ 10) with 1024.
  pose proof (Z.div_mod v 1024 ltac:(lia)). subst v. lia.
Qed.

(** One character of a string, encoded and scanned. *)
Lemma scanstring_encode_char (c : Z) (t : str) :
  scalar c = true ->
  scanstring (encode_char c ++ t) = cons_char c (scanstring t).
Proof.
  unfold scalar. intros Hs.
  apply andb_prop in Hs as [Hs Hn]. apply andb_prop in Hs as [H0 H1].
  apply Z.leb_le in H0. apply Z.ltb_lt in H1.
  apply negb_true_iff, andb_false_iff in Hn.
  assert (Hsur : ~ (55296 <= c <= 57343)) by (destruct Hn; lia).
  clear Hn. unfold encode_char.
  destruct (Z.eqb_spec c 34) as [-> | N34];
    [now apply scanstring_escape |].
  destruct (Z.eqb_spec c 92) as [-> | N92];
    [now apply scanstring_escape |].
  destruct (Z.eqb_spec c 10) as [-> | N10];
    [now apply scanstring_escape |].
  destruct (Z.eqb_spec c 13) as [-> | N13];
    [now apply scanstring_escape |].
  destruct (Z.eqb_spec c 9) as [-> | N9];
    [now apply scanstring_escape |].
  destruct (Z.eqb_spec c 8) as [-> | N8];
    [now apply scanstring_escape |].
  destruct (Z.eqb_spec c 12) as [-> | N12];
    [now apply scanstring_escape |].
  destruct ((32 <=? c) && (c <=? 126)) eqn:Hp.
  - apply andb_prop in Hp as [Hp _]. apply Z.leb_le in Hp.
    now apply scanstring_plain.
  - destruct (Z.ltb_spec c 65536) as [Hlt | Hge].
    + rewrite hex_digits_4. cbn [app].
      apply scanstring_u4; [apply hex4_digits; lia | lia].
    + destruct (surrogate_pair c ltac:(lia)) as (Hs1 & Hs2 & Hc).
      cbv zeta in *. rewrite !hex_digits_4. cbn [app].
      etransitivity.
      { eapply scanstring_pair;
          [apply hex4_digits; lia | exact Hs1 | apply hex4_digits; lia
          | exact Hs2]. }
      now rewrite Hc.
Qed.

Lemma scanstring_encode (s t : str) :
  str_ok s = true ->
  scanstring (flat_map encode_char s ++ 34 :: t) = Some (s, t).
Proof.
  induction s as [| c s IH]; intros Hs.
  - reflexivity.
  - cbn [str_ok forallb] in Hs. apply andb_prop in Hs as [Hc Hs].
    cbn [flat_map]. rewrite <- app_assoc, scanstring_encode_char by assumption.
    now rewrite (IH Hs).
Qed.

(** ** Round trip: numbers *)

Lemma span_digits_app (ds rest : str) :
  digits_ok ds = true -> no_digit rest ->
  span_digits (ds ++ rest) = (ds, rest).
Proof.
  intros Hd Hr. induction ds as [| c ds IH].
  - destruct rest as [| c r]; [reflexivity |].
    cbn [app span_digits]. cbn in Hr. now rewrite Hr.
  - cbn [digits_ok forallb] in Hd. apply andb_prop in Hd as [Hc Hd].
    cbn [app span_digits]. now rewrite Hc, (IH Hd).
Qed.

Lemma scan_int_app (ip rest : str) :
  int_part_ok ip = true -> no_digit rest ->
  scan_int (ip ++ rest) = Some (ip, rest).
Proof.
  intros Hi Hr. destruct ip as [| c t]; [discriminate |].
  cbn [int_part_ok] in Hi. apply andb_prop in Hi as [Hd Hz].
  cbn [digits_ok forallb] in Hd. apply andb_prop in Hd as [Hc Hd].
  cbn [app scan_int].
  destruct (Z.eqb_spec c 48) as [-> | Hn].
  - cbn [negb orb] in Hz. destruct t; [reflexivity | discriminate].
  - rewrite Hc. now rewrite (span_digits_app t rest Hd Hr).
Qed.

Lemma scan_frac_app (fp rest : str) :
  digits_ok fp = true -> no_digit rest ->
  match rest with [] => True | c :: _ => c <> 46 end ->
  scan_frac (frac_text fp ++ rest) = (fp, rest).
Proof.
  intros Hd Hr Hp. destruct fp as [| c t].
  - cbn [frac_text app]. destruct rest as [| c r]; [reflexivity |].
    cbn [scan_frac]. now if_false (c =? 46).
  - cbn [frac_text app scan_frac]. change (46 =? 46) with true. cbv iota.
    change (c :: t ++ rest) with ((c :: t) ++ rest).
    now rewrite (span_digits_app (c :: t) rest Hd Hr).
Qed.

Lemma scan_exp_app (ex : option (bool * str)) (rest : str) :
  exp_ok ex = true -> no_digit rest ->
  match rest with [] => True | c :: _ => c <> 101 /\ c <> 69 end ->
  scan_exp (exp_text ex ++ rest) = (exp_value ex, rest).
Proof.
  intros He Hr Hp. destruct ex as [[eneg ed] |].
  - cbn [exp_ok] in He. apply andb_prop in He as [Hd Hl].
    destruct ed as [| c t]; [discriminate |].
    cbn [exp_text app scan_exp exp_value].
    change ((101 =? 101) || (101 =? 69)) with true. cbv iota.
    change (c :: t ++ rest) with ((c :: t) ++ rest).
    destruct eneg.
    + change (45 =? 45) with true. cbv iota.
      now rewrite (span_digits_app (c :: t) rest Hd Hr).
    + change (43 =? 45) with false. change (43 =? 43) with true. cbv iota.
      now rewrite (span_digits_app (c :: t) rest Hd Hr).
  - cbn [exp_text app exp_value]. destruct rest as [| c r]; [reflexivity |].
    cbn [scan_exp]. destruct Hp as [H1 H2].
    if_false (c =? 101). now if_false (c =? 69).
Qed.

(** A character that closes a value is neither a digit, nor a point, nor an
    exponent mark. *)
Lemma closes_no_digit (rest : str) :
  closes rest = true ->
  no_digit rest
  /\ match rest with [] => True | c :: _ => c <> 46 end
  /\ match rest with [] => True | c :: _ => c <> 101 /\ c <> 69 end.
Proof.
  destruct rest as [| c r]; [now repeat split |].
  cbn [closes no_digit]. intros H.
  assert (c = 44 \/ c = 93 \/ c = 125) as [-> | [-> | ->]] by lia;
    repeat split; try reflexivity; lia.
Qed.

(** The text of a number, scanned. *)
Lemma scan_number_text (neg : bool) (ip fp : str) (ex : option (bool * str))
      (rest : str) :
  int_part_ok ip = true -> digits_ok fp = true -> exp_ok ex = true ->
  closes rest = true ->
  scan_number (number_text neg ip fp ex ++ rest)
  = Some (number_value neg ip fp ex, rest).
Proof.
  intros Hi Hf He Hr.
  destruct (closes_no_digit rest Hr) as (R1 & R2 & R3).
  assert (T1 : no_digit (exp_text ex ++ rest)
               /\ match exp_text ex ++ rest with
                  | [] => True | c :: _ => c <> 46 end).
  { destruct ex as [[eneg ed] |]; [now split | now split]. }
  destruct T1 as [T1 T1'].
  assert (T2 : no_digit (frac_text fp ++ exp_text ex ++ rest)).
  { destruct fp; [exact T1 | reflexivity]. }
  assert (Hbody :
            match scan_int (ip ++ frac_text fp ++ exp_text ex ++ rest) with
            | None => None
            | Some (ip0, l2) =>
                let '(fp0, l3) := scan_frac l2 in
                let '(ex0, l4) := scan_exp l3 in
                match fp0, ex0 with
                | [], None =>
                    Some (PInt (if neg then - int_of_digits ip0
                                else int_of_digits ip0), l4)
                | _, _ =>
                    let e10 := match ex0 with Some e => e | None => 0 end in
                    Some (PFloat
                            (float_of_decimal neg (int_of_digits (ip0 ++ fp0))
                               (e10 - Z.of_nat (List.length fp0))), l4)
                end
            end = Some (number_value neg ip fp ex, rest)).
  { rewrite (scan_int_app ip _ Hi T2).
    rewrite (scan_frac_app fp _ Hf T1 T1').
    rewrite (scan_exp_app ex rest He R1 R3).
    unfold number_value. destruct fp, (exp_value ex); reflexivity. }
  unfold number_text, scan_number. destruct neg.
  - cbn [app]. change (45 =? 45) with true. cbv iota.
    rewrite <- !app_assoc. exact Hbody.
  - cbn [app]. rewrite <- !app_assoc.
    destruct ip as [| c t]; [discriminate |]. cbn [app].
    assert (Hc : is_digit c = true).
    { cbn [int_part_ok digits_ok forallb] in Hi.
      now apply andb_prop in Hi as [Hi _]; apply andb_prop in Hi as [Hi _]. }
    unfold is_digit in Hc. if_false (c =? 45). exact Hbody.
Qed.

Lemma int_of_digits_snoc (ds : str) (d : Z) :
  int_of_digits (ds ++ [d]) = int_of_digits ds * 10 + (d - 48).
Proof. unfold int_of_digits. now rewrite fold_left_app. Qed.

(** The digits [dec_digits] prints, given fuel for all of them. *)
Lemma dec_digits_spec (fuel : nat) :
  forall (x : Z) (acc : str),
    0 <= x < 10 ^ Z.of_nat fuel -> (0 < fuel)%nat ->
    exists ds,
      dec_digits fuel x acc = ds ++ acc
      /\ digits_ok ds = true
      /\ int_of_digits ds = x
      /\ match ds with
         | [] => False
         | c :: t => c = 48 -> t = [] /\ x = 0
         end.
Proof.
  induction fuel as [| f IH]; intros x acc Hx Hf; [lia |].
  cbn [dec_digits]. destruct (Z.ltb_spec x 10) as [Hlt | Hge].
  - exists [48 + x mod 10]. rewrite Z.mod_small by lia.
    split; [reflexivity |]. split.
    { cbn [digits_ok forallb]. unfold is_digit.
      rewrite andb_true_r. apply andb_true_intro. split; lia. }
    split; [unfold int_of_digits; cbn [fold_left]; lia |].
    intros H. split; [reflexivity | lia].
  - assert (Hf0 : (0 < f)%nat).
    { destruct f; [| lia]. cbn in Hx. lia. }
    assert (Hq : 0 <= x / 10 < 10 ^ Z.of_nat f).
    { split; [apply Z.div_pos; lia |].
      apply Z.div_lt_upper_bound; [lia |].
      replace (Z.of_nat (S f)) with (Z.of_nat f + 1) in Hx by lia.
      rewrite Z.pow_add_r, Z.pow_1_r in Hx by lia. lia. }
    destruct (IH (x / 10) ((48 + x mod 10) :: acc) Hq Hf0)
      as (ds & Hds & Hok & Hv & Hh).
    exists (ds ++ [48 + x mod 10]).
    pose proof (Z.mod_pos_bound x 10 ltac:(lia)) as Hm.
    split; [now rewrite Hds, <- app_assoc |]. split.
    { unfold digits_ok in *. rewrite forallb_app, Hok.
      cbn [forallb]. unfold is_digit.
      rewrite andb_true_r. apply andb_true_intro. split; lia. }
    split.
    { rewrite int_of_digits_snoc, Hv.
      pose proof (Z.div_mod x 10 ltac:(lia)). lia. }
    destruct ds as [| c t]; [contradiction |]. cbn [app].
    intros Hc. destruct (Hh Hc) as [_ H0].
    assert (0 < x / 10) by (apply Z.div_str_pos; lia). lia.
Qed.

Lemma pow2_le_pow10 (k : Z) : 0 <= k -> 2 ^ k <= 10 ^ k.
Proof. intros H. apply Z.pow_le_mono_l. lia. Qed.

Lemma lt_pow10_log2 (x : Z) :
  0 <= x -> x < 10 ^ Z.of_nat (Z.to_nat (Z.log2 x) + 1).
Proof.
  intros Hx. destruct (Z.eq_dec x 0) as [-> | Hn]; [reflexivity |].
  pose proof (Z.log2_nonneg x) as Hl.
  replace (Z.of_nat (Z.to_nat (Z.log2 x) + 1)) with (Z.succ (Z.log2 x)) by lia.
  pose proof (Z.log2_spec x ltac:(lia)) as [_ H2].
  pose proof (pow2_le_pow10 (Z.succ (Z.log2 x)) ltac:(lia)). lia.
Qed.

(** [str(z)] is the text of a number without fraction or exponent, and its
    value is [z]. *)
Lemma str_of_int_number (z : Z) :
  exists neg ip,
    str_of_int z = number_text neg ip [] None
    /\ int_part_ok ip = true
    /\ number_value neg ip [] None = PInt z.
Proof.
  unfold str_of_int. destruct (Z.ltb_spec z 0) as [Hneg | Hpos].
  - destruct (dec_digits_spec (Z.to_nat (Z.log2 (- z)) + 1) (- z) [])
      as (ds & Hds & Hok & Hv & Hh);
      [split; [lia | apply lt_pow10_log2; lia] | lia |].
    exists true, ds. rewrite Hds, app_nil_r.
    split; [unfold number_text; cbn [frac_text exp_text app];
            now rewrite app_nil_r |].
    split.
    + destruct ds as [| c t]; [contradiction |]. cbn [int_part_ok].
      rewrite Hok. cbn [andb]. destruct (Z.eqb_spec c 48) as [Hc | Hc].
      * now destruct (Hh Hc) as [-> _].
      * reflexivity.
    + unfold number_value. cbn [exp_value]. rewrite Hv. f_equal. lia.
  - destruct (dec_digits_spec (Z.to_nat (Z.log2 z) + 1) z [])
      as (ds & Hds & Hok & Hv & Hh);
      [split; [lia | apply lt_pow10_log2; lia] | lia |].
    exists false, ds. rewrite Hds, app_nil_r.
    split; [unfold number_text; cbn [frac_text exp_text app];
            now rewrite app_nil_r |].
    split.
    + destruct ds as [| c t]; [contradiction |]. cbn [int_part_ok].
      rewrite Hok. cbn [andb]. destruct (Z.eqb_spec c 48) as [Hc | Hc].
      * now destruct (Hh Hc) as [-> _].
      * reflexivity.
    + unfold number_value. cbn [exp_value]. now rewrite Hv.
Qed.

Lemma str_eqb_eq (a b : str) : Str.eqb a b = true -> a = b.
Proof. unfold Str.eqb. now destruct (list_eq_dec Z.eq_dec a b). Qed.

Lemma str_eqb_refl (a : str) : Str.eqb a a = true.
Proof. unfold Str.eqb. now destruct (list_eq_dec Z.eq_dec a a). Qed.

Lemma sf_eqb_eq (a b : spec_float) : sf_eqb a b = true -> a = b.
Proof.
  destruct a as [s | s | | s m e], b as [t | t | | t m' e'];
    cbn [sf_eqb]; try discriminate; intros H.
  - now apply eqb_prop in H as ->.
  - now apply eqb_prop in H as ->.
  - reflexivity.
  - apply andb_prop in H as [H He]. apply andb_prop in H as [Hs Hm].
    apply eqb_prop in Hs as ->. apply Pos.eqb_eq in Hm as ->.
    now apply Z.eqb_eq in He as ->.
Qed.

(** The first character of the text of a number. *)
Lemma number_text_head (neg : bool) (ip fp : str) (ex : option (bool * str))
      (rest : str) :
  int_part_ok ip = true ->
  exists c t,
    number_text neg ip fp ex ++ rest = c :: t
    /\ (c = 45 \/ is_digit c = true).
Proof.
  intros Hi. destruct ip as [| c ip]; [discriminate |].
  unfold number_text. destruct neg.
  - eexists. eexists. split; [reflexivity | now left].
  - eexists. eexists. split; [reflexivity | right].
    cbn [int_part_ok digits_ok forallb] in Hi.
    now apply andb_prop in Hi as [Hi _]; apply andb_prop in Hi as [Hi _].
Qed.

(** On a sign or a digit [scan_once] scans a number. *)
Lemma scan_once_number (f : nat) (c : Z) (t : str) (r : pyval * str) :
  c = 45 \/ is_digit c = true ->
  scan_number (c :: t) = Some r ->
  scan_once (S f) (c :: t) = Some r.
Proof.
  intros Hc Hn. unfold is_digit in Hc. cbn [scan_once].
  if_false (c =? 34). if_false (c =? 123). if_false (c =? 91).
  if_false (c =? 110). if_false (c =? 116). if_false (c =? 102).
  now rewrite Hn.
Qed.

Lemma scan_once_int (f : nat) (z : Z) (rest : str) :
  closes rest = true ->
  scan_once (S f) (str_of_int z ++ rest) = Some (PInt z, rest).
Proof.
  intros Hr. destruct (str_of_int_number z) as (neg & ip & -> & Hi & Hv).
  destruct (number_text_head neg ip [] None rest Hi) as (c & t & Ht & Hc).
  pose proof (scan_number_text neg ip [] None rest Hi eq_refl eq_refl Hr)
    as Hs.
  rewrite Hv, Ht in Hs. rewrite Ht. now apply scan_once_number.
Qed.

Lemma scan_once_float (f : nat) (x : spec_float) (rest : str) :
  float_ok x = true -> closes rest = true ->
  scan_once (S f) (encode_float x ++ rest) = Some (PFloat x, rest).
Proof.
  intros Hx Hr.
  assert (Hfin :
            forall y, float_ok y = true -> encode_float y = float_repr y ->
                      (forall s, y <> S754_infinity s) -> y <> S754_nan ->
                      scan_once (S f) (float_repr y ++ rest)
                      = Some (PFloat y, rest)).
  { intros y Hy _ Hinf Hnan. unfold float_ok in Hy.
    destruct (analyse (float_repr y)) as [[[[neg ip] fp] ex] |] eqn:Ha;
      [| destruct y; try discriminate; [now destruct (Hinf s) | easy]].
    assert (Hy' : int_part_ok ip && digits_ok fp && exp_ok ex
                  && Str.eqb (number_text neg ip fp ex) (float_repr y)
                  && match number_value neg ip fp ex with
                     | PFloat g => sf_eqb g y
                     | _ => false
                     end = true).
    { destruct y; try exact Hy; [now destruct (Hinf s) | easy]. }
    clear Hy. apply andb_prop in Hy' as [Hy Hv].
    apply andb_prop in Hy as [Hy Ht]. apply andb_prop in Hy as [Hy He].
    apply andb_prop in Hy as [Hi Hf].
    apply str_eqb_eq in Ht. rewrite <- Ht.
    destruct (number_value neg ip fp ex) as [| | | g | | | |] eqn:Hnv;
      try discriminate.
    apply sf_eqb_eq in Hv. subst g.
    destruct (number_text_head neg ip fp ex rest Hi) as (c & t & Hc & Hd).
    pose proof (scan_number_text neg ip fp ex rest Hi Hf He Hr) as Hs.
    rewrite Hnv, Hc in Hs. rewrite Hc. now apply scan_once_number. }
  destruct x as [s | s | | s m e].
  - now apply Hfin.
  - destruct s; cbn [encode_float]; vm_compute; reflexivity.
  - cbn [encode_float]. vm_compute. reflexivity.
  - now apply Hfin.
Qed.

Lemma scan_once_word (f : nat) (rest : str) :
  scan_once (S f) (u "null" ++ rest) = Some (PNone, rest)
  /\ scan_once (S f) (u "true" ++ rest) = Some (PBool true, rest)
  /\ scan_once (S f) (u "false" ++ rest) = Some (PBool false, rest).
Proof. repeat split; vm_compute; reflexivity. Qed.

(** ** Round trip: the decoder on arrays and objects *)

Lemma scan_once_string (f : nat) (t : str) :
  scan_once (S f) (34 :: t)
  = match scanstring t with
    | Some (s, r) => Some (PStr s, r)
    | None => None
    end.
Proof. reflexivity. Qed.

Lemma scan_once_array (f : nat) (t : str) :
  scan_once (S f) (91 :: t)
  = match skip_ws t with
    | c1 :: t1 =>
        if c1 =? 93 then Some (PList [], t1)
        else
          match array_items f (c1 :: t1) with
          | Some (vs, r) => Some (PList vs, r)
          | None => None
          end
    | [] => None
    end.
Proof. reflexivity. Qed.

Lemma scan_once_object (f : nat) (t : str) :
  scan_once (S f) (123 :: t)
  = match skip_ws t with
    | c1 :: t1 =>
        if c1 =? 125 then Some (PDict [], t1)
        else if c1 =? 34 then
          match object_items f t1 with
          | Some (pairs, r) => Some (PDict (dict_of_pairs pairs), r)
          | None => None
          end
        else None
    | [] => None
    end.
Proof. reflexivity. Qed.

Lemma array_items_S (f : nat) (l : str) :
  array_items (S f) l
  = match scan_once f l with
    | None => None
    | Some (v, r) =>
        match skip_ws r with
        | c :: r1 =>
            if c =? 93 then Some ([v], r1)
            else if c =? 44 then
              match array_items f (skip_ws r1) with
              | Some (vs, r2) => Some (v :: vs, r2)
              | None => None
              end
            else None
        | [] => None
        end
    end.
Proof. reflexivity. Qed.

Lemma object_items_S (f : nat) (l : str) :
  object_items (S f) l
  = match scanstring l with
    | None => None
    | Some (k, r) =>
        match skip_ws r with
        | c :: r1 =>
            if c =? 58 then
              match scan_once f (skip_ws r1) with
              | None => None
              | Some (v, r2) =>
                  match skip_ws r2 with
                  | c2 :: r3 =>
                      if c2 =? 125 then Some ([(k, v)], r3)
                      else if c2 =? 44 then
                        match skip_ws r3 with
                        | q :: r4 =>
                            if q =? 34 then
                              match object_items f r4 with
                              | Some (kvs, r5) => Some ((k, v) :: kvs, r5)
                              | None => None
                              end
                            else None
                        | [] => None
                        end
                      else None
                  | [] => None
                  end
              end
            else None
        | [] => None
        end
    end.
Proof. reflexivity. Qed.

Lemma skip_ws_cons (c : Z) (t : str) :
  is_ws c = false -> skip_ws (c :: t) = c :: t.
Proof. intros H. cbn [skip_ws]. now rewrite H. Qed.

Lemma skip_ws_space (t : str) : skip_ws (32 :: t) = skip_ws t.
Proof. reflexivity. Qed.

(** The text of a value starts with a character that is neither white space
    nor a closing bracket. *)
Lemma dumps_head (v : pyval) (s : str) :
  json_ok v = true -> dumps v = inr s ->
  exists c t, s = c :: t /\ is_ws c = false /\ c <> 93.
Proof.
  assert (Hnum : forall c, c = 45 \/ is_digit c = true ->
                           is_ws c = false /\ c <> 93).
  { intros c Hc. unfold is_digit, is_ws in *. split; lia. }
  intros Hok Hd. destruct v as [| b | z | f | x | l | d | cls].
  - injection Hd as <-. now exists 110, (u "ull").
  - destruct b; injection Hd as <-;
      [now exists 116, (u "rue") | now exists 102, (u "alse")].
  - injection Hd as <-.
    destruct (str_of_int_number z) as (neg & ip & -> & Hi & _).
    destruct (number_text_head neg ip [] None [] Hi) as (c & t & Ht & Hc).
    rewrite app_nil_r in Ht. exists c, t. split; [exact Ht | now apply Hnum].
  - injection Hd as <-. cbn [json_ok] in Hok.
    destruct f as [s0 | s0 | | s0 m e]; cbn [encode_float].
    + destruct s0; [now exists 45, (u "0.0") | now exists 48, (u ".0")].
    + destruct s0; [now exists 45, (u "Infinity") | now exists 73, (u "nfinity")].
    + now exists 78, (u "aN").
    + unfold float_ok in Hok.
      destruct (analyse (float_repr (S754_finite s0 m e)))
        as [[[[neg ip] fp] ex] |]; [| discriminate].
      apply andb_prop in Hok as [Hok _]. apply andb_prop in Hok as [Hok Ht].
      apply andb_prop in Hok as [Hok _]. apply andb_prop in Hok as [Hi _].
      apply str_eqb_eq in Ht. rewrite <- Ht.
      destruct (number_text_head neg ip fp ex [] Hi) as (c & t & Hc & Hh).
      rewrite app_nil_r in Hc. exists c, t.
      split; [exact Hc | now apply Hnum].
  - injection Hd as <-. unfold encode_str. eexists. eexists.
    split; [reflexivity | now split].
  - rewrite dumps_list in Hd. destruct (dumps_items l); [discriminate |].
    injection Hd as <-. eexists. eexists. split; [reflexivity | now split].
  - rewrite dumps_dict in Hd. destruct (dumps_members d); [discriminate |].
    injection Hd as <-. eexists. eexists. split; [reflexivity | now split].
  - discriminate.
Qed.

Lemma dict_set_fresh {A : Type} (k : str) (v : A) (d : list (str * A)) :
  existsb (Str.eqb k) (map fst d) = false ->
  dict_set k v d = d ++ [(k, v)].
Proof.
  induction d as [| [k' v'] d IH]; intros H; [reflexivity |].
  cbn [map fst existsb] in H. apply orb_false_iff in H as [H1 H2].
  cbn [dict_set app]. now rewrite H1, (IH H2).
Qed.

Lemma existsb_eqb_app (k : str) (l1 l2 : list str) :
  existsb (Str.eqb k) (l1 ++ l2)
  = existsb (Str.eqb k) l1 || existsb (Str.eqb k) l2.
Proof. apply existsb_app. Qed.

Lemma str_eqb_sym (a b : str) : Str.eqb a b = Str.eqb b a.
Proof.
  unfold Str.eqb.
  destruct (list_eq_dec Z.eq_dec a b), (list_eq_dec Z.eq_dec b a);
    congruence.
Qed.

(** [dict(pairs)] is [pairs] when no key comes twice. *)
Lemma dict_of_pairs_distinct {A : Type} (d : list (str * A)) :
  distinct (map fst d) = true -> dict_of_pairs d = d.
Proof.
  unfold dict_of_pairs.
  assert (H : forall (acc : list (str * A)),
             distinct (map fst d) = true ->
             forallb (fun k => negb (existsb (Str.eqb k) (map fst acc)))
                     (map fst d) = true ->
             fold_left (fun d0 kv => dict_set (fst kv) (snd kv) d0) d acc
             = acc ++ d).
  { induction d as [| [k v] d IH]; intros acc Hd Ha.
    - now rewrite app_nil_r.
    - cbn [map fst distinct forallb] in Hd, Ha.
      apply andb_prop in Hd as [Hk Hd]. apply andb_prop in Ha as [Hka Ha].
      apply negb_true_iff in Hk, Hka.
      cbn [fold_left fst snd]. rewrite (dict_set_fresh k v acc Hka).
      rewrite IH; [now rewrite <- app_assoc | exact Hd |].
      clear IH Hd. induction d as [| [k' v'] d IHd]; [reflexivity |].
      cbn [map fst forallb existsb] in *.
      apply andb_prop in Ha as [Ha1 Ha2].
      apply orb_false_iff in Hk as [Hk1 Hk2].
      rewrite (IHd Hk2 Ha2), andb_true_r.
      rewrite map_app, existsb_app. cbn [map fst existsb].
      apply negb_true_iff in Ha1. rewrite Ha1, orb_false_r.
      rewrite str_eqb_sym. now rewrite Hk1. }
  intros Hd. apply (H [] Hd). clear. induction (map fst d); [reflexivity |].
  cbn [forallb map existsb negb]. exact IHl.
Qed.

Lemma join_cons (sep p : str) (pr : list str) :
  pr <> [] -> join sep (p :: pr) = p ++ sep ++ join sep pr.
Proof. destruct pr; [congruence | reflexivity]. Qed.

Lemma join_head (sep p rest : str) (pr : list str) (c : Z) (t : str) :
  p = c :: t -> exists t', join sep (p :: pr) ++ rest = c :: t'.
Proof.
  intros ->. destruct pr; cbn [join app]; eexists; reflexivity.
Qed.

Lemma array_items_dumps (l : list pyval) :
  Forall scans_back l -> forallb json_ok l = true ->
  forall parts, dumps_items l = inr parts -> l <> [] ->
  forall (f : nat) (rest : str),
    (fold_right (fun x n => S (size x + n)) O l <= f)%nat ->
    array_items f (join (u ", ") parts ++ 93 :: rest) = Some (l, rest).
Proof.
  induction 1 as [| x r Hx Hr IH]; intros Hok parts Hd Hne f rest Hf;
    [congruence |].
  cbn [forallb] in Hok. apply andb_prop in Hok as [Hokx Hokr].
  cbn [dumps_items] in Hd.
  destruct (dumps x) as [| sx] eqn:Hsx; [discriminate |].
  destruct (dumps_items r) as [| pr] eqn:Hpr; [discriminate |].
  injection Hd as <-. cbn [fold_right] in Hf.
  destruct f as [| f]; [lia |]. rewrite array_items_S.
  destruct r as [| y r'].
  - injection Hpr as <-. cbn [join].
    rewrite (Hx Hokx sx Hsx f (93 :: rest)) by (reflexivity || lia).
    reflexivity.
  - assert (Hpr' : pr <> []).
    { cbn [dumps_items] in Hpr. destruct (dumps y); [discriminate |].
      destruct (dumps_items r'); [discriminate |]. now injection Hpr as <-. }
    rewrite join_cons by exact Hpr'. rewrite <- !app_assoc.
    change (u ", ") with [44; 32]. cbn [app].
    rewrite (Hx Hokx sx Hsx f (44 :: 32 :: join [44; 32] pr ++ 93 :: rest))
      by (reflexivity || lia).
    rewrite (skip_ws_cons 44) by reflexivity.
    change (44 =? 93) with false. change (44 =? 44) with true. cbv iota.
    rewrite skip_ws_space.
    assert (Hskip : skip_ws (join [44; 32] pr ++ 93 :: rest)
                    = join [44; 32] pr ++ 93 :: rest).
    { cbn [dumps_items] in Hpr.
      destruct (dumps y) as [| sy] eqn:Hsy; [discriminate |].
      destruct (dumps_items r') as [| pr0]; [discriminate |].
      injection Hpr as <-. cbn [forallb] in Hokr.
      apply andb_prop in Hokr as [Hoky _].
      destruct (dumps_head y sy Hoky Hsy) as (c & t & -> & Hws & _).
      destruct (join_head [44; 32] (c :: t) (93 :: rest) pr0 c t eq_refl)
        as [t' ->].
      now apply skip_ws_cons. }
    rewrite Hskip.
    change (u ", ") with [44; 32] in IH.
    rewrite (IH Hokr pr eq_refl ltac:(congruence) f rest) by lia.
    reflexivity.
Qed.

Lemma object_items_dumps (d : list (str * pyval)) :
  Forall (fun kv => scans_back (snd kv)) d ->
  forallb (fun kv => match kv with (k, x) => str_ok k && json_ok x end) d
  = true ->
  forall parts, dumps_members d = inr parts -> d <> [] ->
  forall (f : nat) (rest : str),
    (fold_right (fun kv n => match kv with (_, x) => S (size x + n) end) O d
     <= f)%nat ->
    exists t,
      join (u ", ") parts ++ 125 :: rest = 34 :: t
      /\ object_items f t = Some (d, rest).
Proof.
  induction 1 as [| [k x] r Hx Hr IH]; intros Hok parts Hd Hne f rest Hf;
    [congruence |].
  cbn [snd] in Hx. cbn [forallb] in Hok. apply andb_prop in Hok as [Hokx Hokr].
  apply andb_prop in Hokx as [Hk Hokx].
  cbn [dumps_members] in Hd.
  destruct (dumps x) as [| sx] eqn:Hsx; [discriminate |].
  destruct (dumps_members r) as [| pr] eqn:Hpr; [discriminate |].
  injection Hd as <-. cbn [fold_right] in Hf.
  destruct f as [| f]; [lia |].
  destruct (dumps_head x sx Hokx Hsx) as (cx & tx & Hhead & Hws & _).
  change (u ", ") with [44; 32] in *. change (u ": ") with [58; 32].
  unfold encode_str.
  destruct r as [| [k' y] r'].
  - injection Hpr as <-. cbn [join].
    exists (flat_map encode_char k ++ 34 :: 58 :: 32 :: sx ++ 125 :: rest).
    split; [cbn [app]; now rewrite <- !app_assoc |].
    rewrite object_items_S, scanstring_encode by exact Hk.
    rewrite (skip_ws_cons 58) by reflexivity.
    change (58 =? 58) with true. cbv iota. rewrite skip_ws_space.
    rewrite Hhead. cbn [app]. rewrite (skip_ws_cons cx) by exact Hws.
    change (cx :: tx ++ 125 :: rest) with ((cx :: tx) ++ 125 :: rest).
    rewrite <- Hhead.
    rewrite (Hx Hokx sx Hsx f (125 :: rest)) by (reflexivity || lia).
    reflexivity.
  - assert (Hpr' : pr <> []).
    { cbn [dumps_members] in Hpr. destruct (dumps y); [discriminate |].
      destruct (dumps_members r'); [discriminate |]. now injection Hpr as <-. }
    destruct (IH Hokr pr eq_refl ltac:(congruence) f rest ltac:(lia))
      as (t' & Ht' & Hitems).
    rewrite join_cons by exact Hpr'.
    exists (flat_map encode_char k
            ++ 34 :: 58 :: 32 :: sx
                 ++ 44 :: 32 :: join [44; 32] pr ++ 125 :: rest).
    split; [cbn [app]; now rewrite <- !app_assoc |].
    rewrite object_items_S, scanstring_encode by exact Hk.
    rewrite (skip_ws_cons 58) by reflexivity.
    change (58 =? 58) with true. cbv iota. rewrite skip_ws_space.
    rewrite Hhead. cbn [app]. rewrite (skip_ws_cons cx) by exact Hws.
    change (cx :: tx ++ 44 :: 32 :: join [44; 32] pr ++ 125 :: rest)
      with ((cx :: tx) ++ 44 :: 32 :: join [44; 32] pr ++ 125 :: rest).
    rewrite <- Hhead.
    rewrite (Hx Hokx sx Hsx f (44 :: 32 :: join [44; 32] pr ++ 125 :: rest))
      by (reflexivity || lia).
    rewrite (skip_ws_cons 44) by reflexivity.
    change (44 =? 125) with false. change (44 =? 44) with true. cbv iota.
    rewrite skip_ws_space, Ht'. rewrite (skip_ws_cons 34) by reflexivity.
    change (34 =? 34) with true. cbv iota. now rewrite Hitems.
Qed.

(** The decoder scans the text of a value back to the value. *)
Lemma scan_once_dumps (v : pyval) : scans_back v.
Proof.
  induction v as [| b | z | f | x | l IH | d IH | cls] using pyval_nested_ind;
    intros Hok s Hd fuel rest Hfuel Hrest;
    (destruct fuel as [| fuel]; [cbn [size] in Hfuel; lia |]).
  - injection Hd as <-. apply scan_once_word.
  - destruct b; injection Hd as <-; apply scan_once_word.
  - injection Hd as <-. now apply scan_once_int.
  - injection Hd as <-. now apply scan_once_float.
  - injection Hd as <-. unfold encode_str. cbn [app].
    rewrite <- app_assoc. cbn [app].
    now rewrite scan_once_string, scanstring_encode.
  - rewrite dumps_list in Hd.
    destruct (dumps_items l) as [| parts] eqn:Hparts; [discriminate |].
    injection Hd as <-. cbn [app]. rewrite <- app_assoc. cbn [app].
    rewrite scan_once_array. cbn [json_ok] in Hok. cbn [size] in Hfuel.
    destruct l as [| y l'].
    + injection Hparts as <-. reflexivity.
    + pose proof Hparts as Hparts'. cbn [dumps_items] in Hparts'.
      destruct (dumps y) as [| sy] eqn:Hsy; [discriminate |].
      destruct (dumps_items l') as [| pr]; [discriminate |].
      injection Hparts' as <-.
      pose proof Hok as Hoky. cbn [forallb] in Hoky.
      apply andb_prop in Hoky as [Hoky _].
      destruct (dumps_head y sy Hoky Hsy) as (c & t & -> & Hws & Hc).
      destruct (join_head (u ", ") (c :: t) (93 :: rest) pr c t eq_refl)
        as [t' Ht'].
      pose proof (array_items_dumps (y :: l') IH Hok _ Hparts
                    ltac:(congruence) fuel rest ltac:(lia)) as Hitems.
      rewrite Ht' in *. rewrite (skip_ws_cons c) by exact Hws.
      if_false (c =? 93). now rewrite Hitems.
  - rewrite dumps_dict in Hd.
    destruct (dumps_members d) as [| parts] eqn:Hparts; [discriminate |].
    injection Hd as <-. cbn [app]. rewrite <- app_assoc. cbn [app].
    rewrite scan_once_object. cbn [json_ok] in Hok. cbn [size] in Hfuel.
    apply andb_prop in Hok as [Hok Hdist].
    destruct d as [| kv d'].
    + injection Hparts as <-. reflexivity.
    + destruct (object_items_dumps (kv :: d') IH Hok _ Hparts
                  ltac:(congruence) fuel rest ltac:(lia))
        as (t & Ht & Hitems).
      rewrite Ht. rewrite (skip_ws_cons 34) by reflexivity.
      change (34 =? 125) with false. change (34 =? 34) with true. cbv iota.
      rewrite Hitems. now rewrite dict_of_pairs_distinct.
  - discriminate.
Qed.

(** ** Round trip: enough fuel *)

Lemma items_length (l : list pyval) :
  Forall (fun v => json_ok v = true ->
                   forall s, dumps v = inr s -> (size v <= List.length s)%nat)
         l ->
  forallb json_ok l = true ->
  forall parts, dumps_items l = inr parts ->
  (fold_right (fun x n => S (size x + n)) O l
   <= List.length (join (u ", ") parts) + 1)%nat.
Proof.
  induction 1 as [| x r Hx Hr IH]; intros Hok parts Hd.
  - cbn [fold_right]. lia.
  - cbn [forallb] in Hok. apply andb_prop in Hok as [Hokx Hokr].
    cbn [dumps_items] in Hd.
    destruct (dumps x) as [| sx] eqn:Hsx; [discriminate |].
    destruct (dumps_items r) as [| pr] eqn:Hpr; [discriminate |].
    injection Hd as <-. cbn [fold_right].
    specialize (Hx Hokx sx eq_refl). specialize (IH Hokr pr eq_refl).
    destruct pr as [| p pr'].
    + destruct r as [| y r'].
      * cbn [join fold_right]. lia.
      * cbn [dumps_items] in Hpr. destruct (dumps y); [discriminate |].
        destruct (dumps_items r'); discriminate.
    + rewrite join_cons by congruence. rewrite !length_app.
      change (List.length (u ", ")) with 2%nat. lia.
Qed.

Lemma members_length (d : list (str * pyval)) :
  Forall (fun kv => json_ok (snd kv) = true ->
                    forall s, dumps (snd kv) = inr s ->
                              (size (snd kv) <= List.length s)%nat) d ->
  forallb (fun kv => match kv with (k, x) => str_ok k && json_ok x end) d
  = true ->
  forall parts, dumps_members d = inr parts ->
  (fold_right (fun kv n => match kv with (_, x) => S (size x + n) end) O d
   <= List.length (join (u ", ") parts) + 1)%nat.
Proof.
  induction 1 as [| [k x] r Hx Hr IH]; intros Hok parts Hd.
  - cbn [fold_right]. lia.
  - cbn [snd] in Hx. cbn [forallb] in Hok.
    apply andb_prop in Hok as [Hokx Hokr].
    apply andb_prop in Hokx as [_ Hokx].
    cbn [dumps_members] in Hd.
    destruct (dumps x) as [| sx] eqn:Hsx; [discriminate |].
    destruct (dumps_members r) as [| pr] eqn:Hpr; [discriminate |].
    injection Hd as <-. cbn [fold_right].
    specialize (Hx Hokx sx eq_refl). specialize (IH Hokr pr eq_refl).
    destruct pr as [| p pr'].
    + destruct r as [| [k' y] r'].
      * cbn [join fold_right List.length]. rewrite !length_app.
        cbn [List.length]. lia.
      * cbn [dumps_members] in Hpr. destruct (dumps y); [discriminate |].
        destruct (dumps_members r'); discriminate.
    + rewrite join_cons by congruence. rewrite !length_app.
      cbn [List.length]. rewrite !length_app. cbn [List.length]. lia.
Qed.

(** The text of a value is at least as long as the decoder needs fuel. *)
Lemma dumps_length (v : pyval) :
  json_ok v = true ->
  forall s, dumps v = inr s -> (size v <= List.length s)%nat.
Proof.
  induction v as [| b | z | f | x | l IH | d IH | cls] using pyval_nested_ind;
    intros Hok s Hd;
    try (destruct (dumps_head _ s Hok Hd) as (c & t & -> & _);
         cbn [size List.length]; lia).
  - rewrite dumps_list in Hd.
    destruct (dumps_items l) as [| parts] eqn:Hparts; [discriminate |].
    injection Hd as <-. cbn [json_ok] in Hok.
    pose proof (items_length l IH Hok parts Hparts).
    cbn [size app List.length]. rewrite !length_app. cbn [List.length]. lia.
  - rewrite dumps_dict in Hd.
    destruct (dumps_members d) as [| parts] eqn:Hparts; [discriminate |].
    injection Hd as <-. cbn [json_ok] in Hok.
    apply andb_prop in Hok as [Hok _].
    pose proof (members_length d IH Hok parts Hparts).
    cbn [size app List.length]. rewrite !length_app. cbn [List.length]. lia.
Qed.

(** [json.loads(json.dumps(v)) == v] on JSON data. *)
Lemma loads_dumps (v : pyval) (s : str) :
  json_ok v = true -> dumps v = inr s -> loads s = Some v.
Proof.
  intros Hok Hd. unfold loads.
  destruct (dumps_head v s Hok Hd) as (c & t & Hs & Hws & _).
  rewrite Hs at 2. rewrite (skip_ws_cons c) by exact Hws. rewrite <- Hs.
  pose proof (scan_once_dumps v Hok s Hd (S (List.length s)) []
                ltac:(pose proof (dumps_length v Hok s Hd); lia) eq_refl)
    as H.
  rewrite app_nil_r in H. now rewrite H.
Qed.

(** ** The sample details are JSON data *)

Lemma is_upper_hex_scalar (c : Z) : is_upper_hex c = true -> scalar c = true.
Proof.
  unfold is_upper_hex, scalar. intros H.
  apply orb_prop in H as [H | H]; apply andb_prop in H as [H1 H2];
    apply andb_true_intro; (split; [apply andb_true_intro; split |]);
    try apply negb_true_iff; try apply andb_false_iff; lia.
Qed.

Lemma forallb_firstn {A : Type} (p : A -> bool) (n : nat) (l : list A) :
  forallb p l = true -> forallb p (firstn n l) = true.
Proof.
  revert l. induction n as [| n IH]; intros [| a l] H; try reflexivity.
  cbn [forallb firstn] in *. apply andb_prop in H as [Ha Hl].
  now rewrite Ha, IH.
Qed.

(** The eight characters taken from a UUID are scalar values. *)
Lemma short_hex_ok (x : Z) :
  str_ok (upper (firstn 8 (format_032x x))) = true.
Proof.
  unfold upper. rewrite <- firstn_map. apply forallb_firstn.
  unfold format_032x.
  destruct (upper_hex_digits_pattern (Nat.max 32 (hex_width x)) x) as [_ H].
  unfold upper in H. apply forallb_forall. intros c Hc.
  apply is_upper_hex_scalar. now apply (proj1 (forallb_forall _ _) H).
Qed.

Lemma order_id_of_ok (x : Z) : str_ok (order_id_of x) = true.
Proof.
  unfold order_id_of, str_ok. rewrite forallb_app.
  change (forallb scalar (u "ORD-")) with true.
  apply short_hex_ok.
Qed.

Lemma tracking_id_of_ok (x : Z) : str_ok (tracking_id_of x) = true.
Proof.
  unfold tracking_id_of, str_ok. rewrite forallb_app.
  change (forallb scalar (u "TRK-")) with true.
  apply short_hex_ok.
Qed.

Lemma json_ok_order_detail (oid : str) :
  str_ok oid = true -> json_ok (order_detail oid) = true.
Proof.
  intros H. unfold order_detail. cbn [json_ok forallb map fst].
  rewrite H. vm_compute. reflexivity.
Qed.

Lemma json_ok_payment_detail (oid : str) :
  str_ok oid = true -> json_ok (payment_detail oid) = true.
Proof.
  intros H. unfold payment_detail. cbn [json_ok forallb map fst].
  rewrite H. vm_compute. reflexivity.
Qed.

Lemma json_ok_shipment_detail (oid trk : str) :
  str_ok oid = true -> str_ok trk = true ->
  json_ok (shipment_detail oid trk) = true.
Proof.
  intros H1 H2. unfold shipment_detail. cbn [json_ok forallb map fst].
  rewrite H1, H2. vm_compute. reflexivity.
Qed.

(** A value that is JSON data serializes and reads back. *)
Lemma round_trip (v : pyval) :
  json_ok v = true ->
  dumps v = inr (dumps_text v) /\ loads (dumps_text v) = Some v.
Proof.
  intros Hok.
  assert (Hs : serializable v = true).
  { clear - Hok.
    induction v as [| b | z | f | x | l IH | d IH | cls]
      using pyval_nested_ind; try reflexivity; try discriminate.
    - cbn [json_ok serializable] in *. induction IH as [| x r Hx _ IHr];
        [reflexivity |].
      cbn [forallb] in *. apply andb_prop in Hok as [H1 H2].
      now rewrite (Hx H1), (IHr H2).
    - cbn [json_ok serializable] in *. apply andb_prop in Hok as [Hok _].
      induction IH as [| [k x] r Hx _ IHr]; [reflexivity |].
      cbn [forallb snd] in *. apply andb_prop in Hok as [H1 H2].
      apply andb_prop in H1 as [_ H1]. now rewrite (Hx H1), (IHr H2). }
  pose proof (dumps_serializable_text v Hs) as Hd.
  split; [exact Hd | now apply (loads_dumps v)].
Qed.

(** The three details of a run serialize and read back. *)
Lemma run_details_round_trip (E : env) (w : world) :
  Forall (fun d => dumps d = inr (dumps_text d)
                   /\ loads (dumps_text d) = Some d)
         (run_details E w).
Proof.
  unfold run_details, run_order_id, run_tracking_id.
  repeat constructor; apply round_trip.
  - apply json_ok_order_detail, order_id_of_ok.
  - apply json_ok_payment_detail, order_id_of_ok.
  - apply json_ok_shipment_detail; [apply order_id_of_ok
                                   | apply tracking_id_of_ok].
Qed.

(** C6. Each of the three sample details serializes to a JSON text, and
    decoding the text gives the detail back, whatever identifiers the run
    has drawn.  They are the objects the run builds, one before each call it
    makes: the three of them when no call ends the run early. *)
Theorem sample_details_round_trip (E : env) (w : world) :
  Forall (fun d => exists js, dumps d = inr js /\ loads js = Some d)
         (run_details E w)
  /\ List.length (run_details E w) = 3%nat
  /\ heap (snd (publish_sample_events E w))
     = heap w ++ firstn (calls_made E w) (run_details E w)
  /\ (run_escape E w = None ->
      heap (snd (publish_sample_events E w)) = heap w ++ run_details E w).
Proof.
  split; [| split; [reflexivity | split]].
  - eapply Forall_impl; [| apply run_details_round_trip].
    intros d [H1 H2]. now exists (dumps_text d).
  - now rewrite publish_sample_events_cases.
  - intros H. now rewrite publish_sample_events_run.
Qed.

Lemma sample_details_round_trip_witness :
  heap (snd (publish_sample_events (Stub.env_of 0 Stub.failing_second)
               initial_world))
  = run_details (Stub.env_of 0 Stub.failing_second) initial_world.
Proof.
  exact (proj2 (proj2 (proj2
           (sample_details_round_trip (Stub.env_of 0 Stub.failing_second)
              initial_world))) eq_refl).
Defined.

Example order_detail_reads_back :
  loads (dumps_text (order_detail (u "ORD-1A2B3C4D")))
  = Some (order_detail (u "ORD-1A2B3C4D"))
  /\ List.length (dumps_text (order_detail (u "ORD-1A2B3C4D"))) = 136%nat.
Proof. split; vm_compute; reflexivity. Qed.

(** C5. A run draws the identifier of the order once, from its first random
    draw, and that one string is the [orderId] of the three detail objects
    it builds, in the order of the calls; the [Detail] of each of the three
    entries it submits is the JSON text of the corresponding object and
    decodes to it, so the same identifier is in the three payloads.  This
    holds whatever the client answers; a run that a call ends early by an
    exception outside [Exception] has built and submitted the first of them
    only, as many as the calls it made. *)
Theorem order_id_is_shared (E : env) (w : world) :
  let w' := snd (publish_sample_events E w) in
  let oid := order_id_of (uuid4_int (urandom16 E (draws w))) in
  exists d1 d2 d3 e1 e2 e3,
    heap w'
    = heap w ++ firstn (calls_made E w) [ PDict d1; PDict d2; PDict d3 ]
    /\ requests w'
       = requests w ++ firstn (calls_made E w) [ [e1]; [e2]; [e3] ]
    /\ (run_escape E w = None ->
        heap w' = heap w ++ [ PDict d1; PDict d2; PDict d3 ]
        /\ requests w' = requests w ++ [ [e1]; [e2]; [e3] ])
    /\ Forall2
         (fun d e =>
            dict_get (u "orderId") d = Some (PStr oid)
            /\ dumps (PDict d) = inr (Detail e)
            /\ loads (Detail e) = Some (PDict d))
         [ d1; d2; d3 ] [ e1; e2; e3 ]
    /\ In (u "📦 Order ID: " ++ oid) (stdout w').
Proof.
  intros w' oid. subst w'.
  rewrite publish_sample_events_cases. cbn [snd]. world_fields.
  pose proof (calls_made_complete E w) as Hcm.
  pose proof (run_details_round_trip E w) as Hrt.
  unfold run_details, run_entries, run_order_id, run_tracking_id in *.
  fold oid in Hrt. fold oid.
  set (trk := tracking_id_of (uuid4_int (urandom16 E (S (draws w))))) in *.
  inversion Hrt as [| ? ? [Ha1 Ha2] Hrt1]; subst.
  inversion Hrt1 as [| ? ? [Hb1 Hb2] Hrt2]; subst.
  inversion Hrt2 as [| ? ? [Hc1 Hc2] _]; subst.
  unfold order_detail, payment_detail, shipment_detail in *.
  cbn [map].
  do 6 eexists. split; [reflexivity |]. split; [reflexivity |].
  split; [| split].
  - intros H. now rewrite (Hcm H).
  - repeat constructor; cbn [entry_for Detail dict_get];
      try (now rewrite str_eqb_refl); assumption.
  - apply in_or_app. right. apply in_or_app. left.
    unfold opening_lines. cbn [In]. auto.
Qed.

Lemma order_id_is_shared_witness :
  exists d1 d2 d3 e1 e2 e3,
    heap (snd (publish_sample_events (Stub.env_of 0 Stub.raising)
                 initial_world))
    = [ PDict d1; PDict d2; PDict d3 ]
    /\ requests (snd (publish_sample_events (Stub.env_of 0 Stub.raising)
                        initial_world))
       = [ [e1]; [e2]; [e3] ]
    /\ Forall2
         (fun d e =>
            dict_get (u "orderId") d = Some (PStr (u "ORD-00000000"))
            /\ loads (Detail e) = Some (PDict d))
         [ d1; d2; d3 ] [ e1; e2; e3 ].
Proof.
  destruct (order_id_is_shared (Stub.env_of 0 Stub.raising) initial_world)
    as (d1 & d2 & d3 & e1 & e2 & e3 & _ & _ & H & HF & _).
  destruct (H eq_refl) as [Hh Hr].
  exists d1, d2, d3, e1, e2, e3. split; [exact Hh |]. split; [exact Hr |].
  assert (Ho : order_id_of
                 (uuid4_int (urandom16 (Stub.env_of 0 Stub.raising)
                               (draws initial_world)))
               = u "ORD-00000000") by (vm_compute; reflexivity).
  rewrite Ho in HF. clear - HF.
  eapply Forall2_impl; [| exact HF]. cbv beta. intros d e (H1 & _ & H3).
  now split.
Defined.

(* ================================================================== *)
(** * Part III. Further properties of the script *)
(* ================================================================== *)

(** ** Every path through [publish_event] *)

Lemma report_length (E : env) (source detail_type : str)
      (r : result response) :
  escapes r = None ->
  List.length (report E source detail_type r)
  = if took_success_branch r then 2%nat else 1%nat.
Proof.
  destruct r as [e | resp].
  - cbn [escapes report took_success_branch].
    now destruct (is_Exception e).
  - intros _. unfold report, took_success_branch.
    destruct (FailedEntryCount resp >? 0); [reflexivity |].
    cbn [negb List.length]. now destruct (first_event_id resp).
Qed.

(** X1. Whatever its arguments and whatever the client does, a call of
    [publish_event] leaves the heap and the random source alone, and either
    sends nothing and does not read the clock, or sends one request of one
    entry and reads the clock once.  It ends in one of two ways.  Either it
    returns normally, having made one or two [print] calls: this is so
    whenever [json.dumps] or the reading of the reply raises, and whenever
    [put_events] returns or raises an instance of [Exception].  Or
    [put_events] has raised an exception that is not an instance of
    [Exception]: that exception leaves the call, which has sent its request
    and printed nothing. *)
Theorem publish_event_outcomes
        (E : env) (source detail_type : str) (l : loc) (w : world) :
  let w' := snd (publish_event E source detail_type l w) in
  heap w' = heap w
  /\ draws w' = draws w
  /\ ((requests w' = requests w /\ clock_reads w' = clock_reads w)
      \/ (exists entry,
            requests w' = requests w ++ [ [ entry ] ]
            /\ clock_reads w' = S (clock_reads w)))
  /\ ((fst (publish_event E source detail_type l w) = inr tt
       /\ exists texts,
            stdout w' = stdout w ++ texts
            /\ (1 <= List.length texts <= 2)%nat)
      \/ (exists e entry,
            fst (publish_event E source detail_type l w) = inl e
            /\ is_Exception e = false
            /\ events_client E (List.length (requests w)) [ entry ] = inl e
            /\ requests w' = requests w ++ [ [ entry ] ]
            /\ stdout w' = stdout w)).
Proof.
  intros w'. subst w'.
  destruct (publish_event_frame E source detail_type l w) as [Hh Hdr].
  split; [exact Hh |]. split; [exact Hdr |]. clear Hh Hdr.
  destruct (nth_error (heap w) l) as [d |] eqn:Hd.
  - destruct (dumps d) as [e | js] eqn:Hj.
    + unfold publish_event, try_except, bind, deref, lift, print.
      rewrite Hd, Hj, (dumps_error_is_Exception d e Hj).
      cbn [fst snd]. world_fields. split; [now left |]. left.
      split; [reflexivity |].
      eexists. split; [reflexivity | cbn [List.length]; lia].
    + rewrite (publish_event_run E source detail_type l w d js Hd Hj).
      cbn [fst snd]. world_fields.
      split; [right; eexists; now split |].
      unfold call_result.
      destruct (escapes (events_client E _ _)) as [e |] eqn:He.
      * right. exists e. eexists.
        rewrite (report_escapes _ _ _ _ _ He), app_nil_r.
        destruct (escapes_Some _ _ He) as [Hr Hx].
        split; [reflexivity |]. split; [exact Hx |].
        split; [exact Hr |]. now split.
      * left. split; [reflexivity |].
        eexists. split; [reflexivity |]. rewrite (report_length _ _ _ _ He).
        destruct (took_success_branch _); lia.
  - unfold publish_event, try_except, bind, deref, print. rewrite Hd.
    cbn [fst snd is_Exception]. world_fields. split; [now left |]. left.
    split; [reflexivity |].
    eexists. split; [reflexivity | cbn [List.length]; lia].
Qed.

(** X2. When the detail is not JSON data (an object of another class sits
    somewhere inside it), [publish_event] sends no request and does not read
    the clock: it prints the one line [Error: Object of type <class> is not
    JSON serializable] and returns normally, the world otherwise as it
    was. *)
Theorem unserializable_detail_sends_nothing
        (E : env) (source detail_type : str) (l : loc) (w : world)
        (d : pyval) :
  nth_error (heap w) l = Some d ->
  serializable d = false ->
  exists cls,
    publish_event E source detail_type l w
    = (inr tt,
       mk_world (heap w)
         (stdout w
          ++ [ u "❌ Error: "
                 ++ (u "Object of type " ++ cls
                       ++ u " is not JSON serializable") ])
         (requests w) (draws w) (clock_reads w)).
Proof.
  intros Hd Hs. destruct (dumps_not_serializable d Hs) as [cls Hj].
  exists cls. unfold publish_event, try_except, bind, deref, lift, print.
  rewrite Hd, Hj. reflexivity.
Qed.

Lemma unserializable_detail_sends_nothing_witness :
  exists cls,
    publish_event (Stub.env_of 0 Stub.accepting) (u "app.orders")
      (u "OrderCreated") 0%nat
      (Stub.one_object
         (PDict [ (u "orderId", PStr (u "ORD-1"));
                  (u "tags", PList [ PInt 1; PObject (u "set") ]) ]))
    = (inr tt,
       mk_world
         [ PDict [ (u "orderId", PStr (u "ORD-1"));
                   (u "tags", PList [ PInt 1; PObject (u "set") ]) ] ]
         ([] ++ [ u "❌ Error: "
                    ++ (u "Object of type " ++ cls
                          ++ u " is not JSON serializable") ])
         [] 0 0).
Proof.
  apply (unserializable_detail_sends_nothing
           (Stub.env_of 0 Stub.accepting) (u "app.orders") (u "OrderCreated")
           0%nat
           (Stub.one_object
              (PDict [ (u "orderId", PStr (u "ORD-1"));
                       (u "tags", PList [ PInt 1; PObject (u "set") ]) ]))
           (PDict [ (u "orderId", PStr (u "ORD-1"));
                    (u "tags", PList [ PInt 1; PObject (u "set") ]) ])).
  - reflexivity.
  - reflexivity.
Defined.

Lemma repr_EventId (printable : Z -> bool) :
  repr_str printable (u "EventId") = [39] ++ u "EventId" ++ [39].
Proof. vm_compute. reflexivity. Qed.

(** X3. The success line is printed before the event identifier is read
    from the reply.  So when the reply reports no failed entry (a count of
    zero or less) but has no entry, or a first entry without [EventId],
    [publish_event] prints the [Published] line and then an [Error] line
    for the same event ([list index out of range], or the quoted name of the
    missing key), and returns normally. *)
Theorem success_line_precedes_event_id
        (E : env) (source detail_type : str) (l : loc) (w : world)
        (d : pyval) (js : str) (resp : response) :
  nth_error (heap w) l = Some d ->
  dumps d = inr js ->
  events_client E (List.length (requests w))
    [ mk_put_entry BUS_NAME source detail_type js (utcnow E (clock_reads w)) ]
  = inr resp ->
  FailedEntryCount resp <= 0 ->
  match Entries resp with
  | [] => True
  | entry :: _ => dict_get (u "EventId") entry = None
  end ->
  fst (publish_event E source detail_type l w) = inr tt
  /\ stdout (snd (publish_event E source detail_type l w))
     = stdout w
       ++ [ u "✅ Published: " ++ detail_type ++ u " from " ++ source;
            u "❌ Error: "
              ++ match Entries resp with
                 | [] => u "list index out of range"
                 | _ :: _ => [39] ++ u "EventId" ++ [39]
                 end ].
Proof.
  intros Hd Hj Hc Hf He.
  rewrite (publish_event_run E source detail_type l w d js Hd Hj).
  cbn [fst snd]. world_fields. rewrite Hc. split; [reflexivity |]. f_equal.
  unfold report.
  replace (FailedEntryCount resp >? 0) with false by (symmetry; lia).
  f_equal. unfold first_event_id, list_item, dict_item.
  destruct (Entries resp) as [| entry rest]; cbn [nth_error].
  - reflexivity.
  - rewrite He. cbn [exn_str]. now rewrite repr_EventId.
Qed.

Lemma success_line_precedes_event_id_witness :
  stdout (snd (publish_event
                 (Stub.env_of 0
                    (fun _ _ =>
                       inr (mk_response (-1)
                              [ [ (u "ErrorCode", u "Throttled") ] ])))
                 (u "app.orders") (u "OrderCreated") 0%nat
                 (Stub.one_object (PDict []))))
  = [] ++ [ u "✅ Published: " ++ u "OrderCreated" ++ u " from "
              ++ u "app.orders";
            u "❌ Error: " ++ ([39] ++ u "EventId" ++ [39]) ].
Proof.
  refine (proj2
            (success_line_precedes_event_id
               (Stub.env_of 0
                  (fun _ _ =>
                     inr (mk_response (-1)
                            [ [ (u "ErrorCode", u "Throttled") ] ])))
               (u "app.orders") (u "OrderCreated") 0%nat
               (Stub.one_object (PDict [])) (PDict []) (u "{}")
               (mk_response (-1) [ [ (u "ErrorCode", u "Throttled") ] ])
               eq_refl eq_refl eq_refl _ eq_refl)).
  cbn [FailedEntryCount]. lia.
Defined.

(** ** Every run of [publish_sample_events] *)

(** X4. Whatever the client does at each call (accept, report failed
    entries, raise, or answer with a malformed reply), a run makes its calls
    in the order order-created, payment-failed, shipment-created, each a
    request of exactly one entry addressed to the bus [ecom-bus], stamped
    with successive readings of the clock, one reading for each call.  A
    call that raises an exception outside [Exception] is the last: the
    exception leaves the run.  Otherwise the run makes the three calls and
    returns normally, as it does whenever every call returns or raises an
    instance of [Exception].  The random source is drawn once for the order
    and once more before the third call. *)
Theorem run_shape_for_every_client (E : env) (w : world) :
  let w' := snd (publish_sample_events E w) in
  let n := calls_made E w in
  (1 <= n <= 3)%nat
  /\ (exists e1 e2 e3,
        requests w' = requests w ++ firstn n [ [e1]; [e2]; [e3] ]
        /\ map (fun e => (EventBusName e, Source e, DetailType e, Time e))
               [ e1; e2; e3 ]
           = [ (u "ecom-bus", u "app.orders", u "OrderCreated",
                utcnow E (clock_reads w));
               (u "ecom-bus", u "app.payments", u "PaymentFailed",
                utcnow E (S (clock_reads w)));
               (u "ecom-bus", u "app.shipping", u "ShipmentCreated",
                utcnow E (S (S (clock_reads w)))) ])
  /\ clock_reads w' = (clock_reads w + n)%nat
  /\ draws w' = (draws w + (if Nat.ltb n 3 then 1 else 2))%nat
  /\ ((fst (publish_sample_events E w) = inr tt /\ n = 3%nat)
      \/ (exists e,
            fst (publish_sample_events E w) = inl e
            /\ is_Exception e = false
            /\ run_outcome E w (n - 1) = inl e))
  /\ ((forall k entries, escapes (events_client E k entries) = None) ->
      fst (publish_sample_events E w) = inr tt /\ n = 3%nat).
Proof.
  intros w' n. subst w' n. rewrite publish_sample_events_cases.
  cbn [fst snd]. world_fields.
  split; [apply calls_made_range |]. split.
  { do 3 eexists. split; [reflexivity | reflexivity]. }
  split; [apply Nat.add_comm |]. split.
  { pose proof (calls_made_range E w) as Hr.
    destruct (calls_made E w) as [| [| [| [| n]]]]; cbn [Nat.ltb Nat.leb];
      lia. }
  split.
  - pose proof escapes_Some as He.
    unfold run_escape, calls_made.
    destruct (escapes (run_outcome E w 0)) as [e0 |] eqn:H0.
    { right. exists e0. destruct (He _ _ H0) as [Hr Hx]. now repeat split. }
    destruct (escapes (run_outcome E w 1)) as [e1 |] eqn:H1.
    { right. exists e1. destruct (He _ _ H1) as [Hr Hx]. now repeat split. }
    destruct (escapes (run_outcome E w 2)) as [e2 |] eqn:H2.
    { right. exists e2. destruct (He _ _ H2) as [Hr Hx]. now repeat split. }
    left. now split.
  - intros H. pose proof (run_escape_contained E w H) as Hn.
    rewrite Hn. split; [reflexivity | now apply calls_made_complete].
Qed.

Lemma run_shape_for_every_client_witness :
  fst (publish_sample_events (Stub.env_of 0 Stub.raising) initial_world)
  = inr tt
  /\ calls_made (Stub.env_of 0 Stub.raising) initial_world = 3%nat.
Proof.
  apply (proj2 (proj2 (proj2 (proj2 (proj2
           (run_shape_for_every_client (Stub.env_of 0 Stub.raising)
              initial_world)))))).
  intros k entries. reflexivity.
Defined.

(** X5. A run that no call ends early makes 13 [print] calls plus one for
    each call whose reply came back without failed entries: four for the
    opening, one for a call that raised or reported failed entries and two
    for any other, and six for the closing; so between 13 and 16 calls.  A
    run that a call ends by an exception outside [Exception] makes between
    4 and 8.  A text is counted once, whatever line breaks it holds. *)
Theorem run_print_count (E : env) (w : world) :
  let w' := snd (publish_sample_events E w) in
  let successes :=
    List.length
      (filter took_success_branch
         [ run_outcome E w 0; run_outcome E w 1; run_outcome E w 2 ]) in
  (run_escape E w = None ->
   List.length (stdout w') = (List.length (stdout w) + 13 + successes)%nat
   /\ (List.length (stdout w) + 13 <= List.length (stdout w')
       <= List.length (stdout w) + 16)%nat)
  /\ (forall e,
         run_escape E w = Some e ->
         (List.length (stdout w) + 4 <= List.length (stdout w')
          <= List.length (stdout w) + 8)%nat).
Proof.
  intros w' successes. subst w'. split.
  - intros H. rewrite publish_sample_events_stdout by exact H.
    destruct (run_escape_none E w H) as (H0 & H1 & H2).
    unfold run_reports.
    rewrite !length_app, (report_length _ _ _ _ H0),
      (report_length _ _ _ _ H1), (report_length _ _ _ _ H2).
    subst successes. cbn [filter opening_lines closing_lines List.length].
    destruct (took_success_branch (run_outcome E w 0)),
      (took_success_branch (run_outcome E w 1)),
      (took_success_branch (run_outcome E w 2)); cbn [List.length]; lia.
  - intros e H. rewrite publish_sample_events_cases. cbn [snd stdout].
    unfold run_escape in H. unfold run_printed.
    rewrite !length_app. cbn [opening_lines List.length].
    destruct (escapes (run_outcome E w 0)) as [e0 |] eqn:H0;
      [cbn [List.length]; lia |].
    rewrite length_app, (report_length _ _ _ _ H0).
    destruct (escapes (run_outcome E w 1)) as [e1 |] eqn:H1;
      [destruct (took_success_branch _); cbn [List.length]; lia |].
    rewrite length_app, (report_length _ _ _ _ H1), H.
    destruct (took_success_branch (run_outcome E w 0)),
      (took_success_branch (run_outcome E w 1)); cbn [List.length]; lia.
Qed.

Lemma run_print_count_witness :
  List.length
    (stdout (snd (publish_sample_events (Stub.env_of 0 Stub.failing_second)
                    initial_world)))
  = 15%nat
  /\ (4 <= List.length
             (stdout (snd (publish_sample_events
                             (Stub.env_of 0 Stub.exiting_second)
                             initial_world)))
      <= 8)%nat.
Proof.
  split.
  - exact (proj1 (proj1 (run_print_count (Stub.env_of 0 Stub.failing_second)
                           initial_world) eq_refl)).
  - exact (proj2 (run_print_count (Stub.env_of 0 Stub.exiting_second)
                    initial_world) (SystemExit 3) eq_refl).
Defined.

(** ** The tracking identifier *)

Lemma tracking_id_of_uuid4 (r : Z) :
  tracking_id_of (uuid4_int r)
  = u "TRK-" ++ upper (hex_digits 8 (leading32 r)).
Proof.
  unfold tracking_id_of.
  rewrite format_032x_small
    by (split; [apply uuid4_int_nonneg | apply uuid4_int_lt]).
  rewrite (firstn_hex_digits 8 24). change (16 ^ Z.of_nat 24) with (2 ^ 96).
  now rewrite uuid4_int_leading.
Qed.

Lemma sample_tracking_keys (oid trk : str) :
  dict_get (u "trackingId")
    [ (u "orderId", PStr oid); (u "customerId", PStr (u "C-5678"));
      (u "value", PFloat value_149_90); (u "currency", PStr (u "USD"));
      (u "items", PList [ PDict [ (u "productId", PStr (u "P-123"));
                                  (u "quantity", PInt 2) ] ]) ] = None
  /\ dict_get (u "trackingId")
       [ (u "orderId", PStr oid); (u "reason", PStr (u "INSUFFICIENT_FUNDS"));
         (u "severity", PStr (u "critical")); (u "retryCount", PInt 2) ]
     = None
  /\ dict_get (u "trackingId")
       [ (u "orderId", PStr oid); (u "carrier", PStr (u "DHL"));
         (u "trackingId", PStr trk);
         (u "estimatedDelivery", PStr (u "2025-09-15")) ]
     = Some (PStr trk).
Proof. repeat split; vm_compute; reflexivity. Qed.

(** X6. The tracking identifier of a run comes from a second random draw,
    made after the one of the order: it has the form [TRK-] followed by
    exactly 8 upper-case hexadecimal digits, it is the [trackingId] of the
    shipment detail and of no other detail, and its digits are those of the
    order identifier exactly when the two draws have the same leading 32
    bits.  The details are the objects the run builds, one before each call
    it makes: the three of them when no call ends the run early. *)
Theorem tracking_id_of_a_run (E : env) (w : world) :
  let w' := snd (publish_sample_events E w) in
  let oid := order_id_of (uuid4_int (urandom16 E (draws w))) in
  let trk := tracking_id_of (uuid4_int (urandom16 E (S (draws w)))) in
  is_tracking_id trk = true
  /\ (exists d1 d2 d3,
        heap w'
        = heap w ++ firstn (calls_made E w) [ PDict d1; PDict d2; PDict d3 ]
        /\ (run_escape E w = None ->
            heap w' = heap w ++ [ PDict d1; PDict d2; PDict d3 ])
        /\ dict_get (u "trackingId") d1 = None
        /\ dict_get (u "trackingId") d2 = None
        /\ dict_get (u "trackingId") d3 = Some (PStr trk))
  /\ (skipn 4 trk = skipn 4 oid
      <-> leading32 (urandom16 E (S (draws w)))
          = leading32 (urandom16 E (draws w))).
Proof.
  intros w' oid trk. subst w'. split; [| split].
  - subst trk. rewrite tracking_id_of_uuid4. unfold is_tracking_id.
    change (u "TRK-" ++ upper (hex_digits 8 (leading32 (urandom16 E (S (draws w))))))
      with (84 :: 82 :: 75 :: 45
               :: upper (hex_digits 8 (leading32 (urandom16 E (S (draws w)))))).
    change (u "TRK-") with [84; 82; 75; 45].
    cbn [strip_prefix Z.eqb Pos.eqb].
    destruct (upper_hex_digits_pattern 8
                (leading32 (urandom16 E (S (draws w))))) as [-> ->].
    reflexivity.
  - rewrite publish_sample_events_cases. cbn [snd]. world_fields.
    pose proof (calls_made_complete E w) as Hcm.
    unfold run_details, run_order_id, run_tracking_id.
    fold oid. fold trk.
    unfold order_detail, payment_detail, shipment_detail.
    destruct (sample_tracking_keys oid trk) as (H1 & H2 & H3).
    do 3 eexists. split; [reflexivity |].
    split; [intros H; now rewrite (Hcm H) |]. now repeat split.
  - subst oid trk. rewrite tracking_id_of_uuid4, order_id_of_uuid4.
    change (u "TRK-") with [84; 82; 75; 45].
    change (u "ORD-") with [79; 82; 68; 45]. cbn [app skipn].
    split.
    + intros H. apply upper_hex_digits_inj in H.
      change (16 ^ Z.of_nat 8) with (2 ^ 32) in H.
      rewrite !Z.mod_small in H by apply leading32_range. exact H.
    + now intros ->.
Qed.

Lemma tracking_id_of_a_run_witness :
  exists d1 d2 d3,
    heap (snd (publish_sample_events (Stub.env_of 0 Stub.accepting)
                 initial_world))
    = [ PDict d1; PDict d2; PDict d3 ]
    /\ dict_get (u "trackingId") d3 = Some (PStr (u "TRK-00000001")).
Proof.
  destruct (proj1 (proj2 (tracking_id_of_a_run (Stub.env_of 0 Stub.accepting)
                            initial_world)))
    as (d1 & d2 & d3 & _ & H & _ & _ & H3).
  exists d1, d2, d3. split; [exact (H eq_refl) |].
  rewrite H3. vm_compute. reflexivity.
Defined.

(** ** The payload *)



(** ** The text of the payload is ASCII *)

Lemma hexdigit_ascii (x : Z) : printable_ascii (hexdigit (x mod 16)) = true.
Proof.
  pose proof (Z.mod_pos_bound x 16 ltac:(lia)) as H.
  unfold printable_ascii, hexdigit.
  destruct (Z.ltb_spec (x mod 16) 10); apply andb_true_intro; split; lia.
Qed.

Lemma hex_digits_ascii (k : nat) (x : Z) :
  forallb printable_ascii (hex_digits k x) = true.
Proof.
  induction k as [| k IH]; [reflexivity |].
  cbn [hex_digits forallb]. now rewrite hexdigit_ascii, IH.
Qed.

Lemma encode_char_ascii (c : Z) :
  forallb printable_ascii (encode_char c) = true.
Proof.
  unfold encode_char.
  repeat match goal with
         | |- context [if ?a =? ?b then _ else _] =>
             destruct (a =? b); [reflexivity |]
         end.
  destruct ((32 <=? c) && (c <=? 126)) eqn:Hp.
  - cbn [forallb]. unfold printable_ascii. now rewrite Hp.
  - destruct (c <? 65536).
    + cbn [forallb]. now rewrite hex_digits_ascii.
    + cbv zeta. rewrite forallb_app. cbn [forallb].
      now rewrite !hex_digits_ascii.
Qed.

Lemma encode_str_ascii (s : str) :
  forallb printable_ascii (encode_str s) = true.
Proof.
  unfold encode_str. cbn [forallb]. rewrite forallb_app. cbn [forallb].
  change (printable_ascii 34) with true. cbn [andb]. rewrite andb_true_r.
  induction s as [| c s IH]; [reflexivity |].
  cbn [flat_map]. now rewrite forallb_app, encode_char_ascii, IH.
Qed.

Lemma dec_digits_ascii (fuel : nat) :
  forall (x : Z) (acc : str),
    forallb printable_ascii acc = true ->
    forallb printable_ascii (dec_digits fuel x acc) = true.
Proof.
  induction fuel as [| f IH]; intros x acc Ha; [exact Ha |].
  cbn [dec_digits].
  assert (Hd : forallb printable_ascii ((48 + x mod 10) :: acc) = true).
  { cbn [forallb]. rewrite Ha, andb_true_r.
    pose proof (Z.mod_pos_bound x 10 ltac:(lia)).
    unfold printable_ascii. apply andb_true_intro. split; lia. }
  destruct (x <? 10); [exact Hd | now apply IH].
Qed.

Lemma str_of_int_ascii (z : Z) :
  forallb printable_ascii (str_of_int z) = true.
Proof.
  unfold str_of_int. destruct (z <? 0).
  - cbn [forallb]. now rewrite dec_digits_ascii.
  - now apply dec_digits_ascii.
Qed.

Lemma forallb_skipn {A : Type} (p : A -> bool) (n : nat) (l : list A) :
  forallb p l = true -> forallb p (skipn n l) = true.
Proof.
  revert l. induction n as [| n IH]; intros [| a l] H; try reflexivity;
    try exact H.
  cbn [forallb skipn] in *. apply andb_prop in H as [_ Hl]. now apply IH.
Qed.

Lemma zeros_ascii (n : Z) : forallb printable_ascii (zeros n) = true.
Proof.
  unfold zeros. induction (Z.to_nat n) as [| k IH]; [reflexivity |].
  cbn [repeat forallb]. now rewrite IH.
Qed.

Lemma format_r_ascii (c s : Z) :
  forallb printable_ascii (format_r c s) = true.
Proof.
  unfold format_r. generalize (str_of_int_ascii c).
  generalize (str_of_int c). intros ds Hds.
  assert (Htwo : forall x, forallb printable_ascii (two_digits x) = true).
  { intros x. unfold two_digits. destruct (x <? 10); cbn [forallb];
      now rewrite str_of_int_ascii. }
  destruct ((Z.of_nat (List.length ds) + s <=? -4)
            || (16 <? Z.of_nat (List.length ds) + s)).
  - rewrite !forallb_app.
    assert (Hm : forallb printable_ascii
                   match ds with
                   | [] => []
                   | [d0] => [d0]
                   | d0 :: (_ :: _) as rest => d0 :: 46 :: rest
                   end = true).
    { destruct ds as [| d0 [| d1 rest]]; exact Hds. }
    rewrite Hm. cbn [forallb andb].
    destruct (Z.of_nat (List.length ds) + s - 1 <? 0); cbn [forallb];
      now rewrite Htwo.
  - destruct (Z.of_nat (List.length ds) + s <=? 0).
    + rewrite !forallb_app, zeros_ascii, Hds. reflexivity.
    + destruct (Z.of_nat (List.length ds) <=? Z.of_nat (List.length ds) + s).
      * rewrite !forallb_app, zeros_ascii, Hds. reflexivity.
      * rewrite !forallb_app, forallb_firstn, forallb_skipn by exact Hds.
        reflexivity.
Qed.

Lemma encode_float_ascii (f : spec_float) :
  forallb printable_ascii (encode_float f) = true.
Proof.
  destruct f as [s | s | | s m e]; try (destruct s; reflexivity);
    try reflexivity.
  cbn [encode_float float_repr].
  destruct (shortest_digits m e) as [c sc]. rewrite forallb_app.
  rewrite format_r_ascii. now destruct s.
Qed.

Lemma join_ascii (parts : list str) :
  Forall (fun p => forallb printable_ascii p = true) parts ->
  forallb printable_ascii (join (u ", ") parts) = true.
Proof.
  induction 1 as [| p pr Hp _ IH]; [reflexivity |].
  destruct pr as [| q pr']; [exact Hp |].
  rewrite join_cons by congruence. rewrite !forallb_app, Hp, IH.
  reflexivity.
Qed.

(** [json.dumps] returns printable ASCII. *)
Lemma dumps_ascii (v : pyval) :
  forall s, dumps v = inr s -> forallb printable_ascii s = true.
Proof.
  induction v as [| b | z | f | x | l IH | d IH | cls] using pyval_nested_ind;
    intros s Hd.
  - now injection Hd as <-.
  - destruct b; now injection Hd as <-.
  - injection Hd as <-. apply str_of_int_ascii.
  - injection Hd as <-. apply encode_float_ascii.
  - injection Hd as <-. apply encode_str_ascii.
  - rewrite dumps_list in Hd.
    destruct (dumps_items l) as [| parts] eqn:Hparts; [discriminate |].
    injection Hd as <-. cbn [app forallb]. rewrite ?forallb_app.
    cbn [forallb]. change (printable_ascii 91) with true.
    change (printable_ascii 93) with true.
    change (printable_ascii 123) with true.
    change (printable_ascii 125) with true.
    rewrite join_ascii; [reflexivity |].
    revert parts Hparts. induction IH as [| x r Hx _ IHr]; intros parts Hp.
    + injection Hp as <-. constructor.
    + cbn [dumps_items] in Hp.
      destruct (dumps x) as [| sx] eqn:Hsx; [discriminate |].
      destruct (dumps_items r) as [| pr]; [discriminate |].
      injection Hp as <-. constructor; [now apply Hx | now apply IHr].
  - rewrite dumps_dict in Hd.
    destruct (dumps_members d) as [| parts] eqn:Hparts; [discriminate |].
    injection Hd as <-. cbn [app forallb]. rewrite ?forallb_app.
    cbn [forallb]. change (printable_ascii 91) with true.
    change (printable_ascii 93) with true.
    change (printable_ascii 123) with true.
    change (printable_ascii 125) with true.
    rewrite join_ascii; [reflexivity |].
    revert parts Hparts. induction IH as [| [k x] r Hx _ IHr];
      intros parts Hp.
    + injection Hp as <-. constructor.
    + cbn [dumps_members snd] in *.
      destruct (dumps x) as [| sx] eqn:Hsx; [discriminate |].
      destruct (dumps_members r) as [| pr]; [discriminate |].
      injection Hp as <-. constructor; [| now apply IHr].
      change (forallb printable_ascii (encode_str k ++ u ": " ++ sx) = true).
      rewrite !forallb_app, encode_str_ascii, (Hx sx eq_refl). reflexivity.
  - discriminate.
Qed.

(** X8. Whatever the detail holds, the [Detail] of an entry that
    [publish_event] submits is printable ASCII: [json.dumps] escapes every
    other character. *)
Theorem submitted_detail_is_ascii
        (E : env) (source detail_type : str) (l : loc) (w : world) :
  exists new,
    requests (snd (publish_event E source detail_type l w))
    = requests w ++ new
    /\ Forall (Forall (fun e => forallb printable_ascii (Detail e) = true))
              new.
Proof.
  destruct (nth_error (heap w) l) as [d |] eqn:Hd.
  - destruct (dumps d) as [e | js] eqn:Hj.
    + exists []. unfold publish_event, try_except, bind, deref, lift, print.
      rewrite Hd, Hj, (dumps_error_is_Exception d e Hj). cbn [snd].
      world_fields. split; [now rewrite app_nil_r | constructor].
    + rewrite (publish_event_run E source detail_type l w d js Hd Hj).
      cbn [snd]. world_fields. eexists. split; [reflexivity |].
      repeat constructor. cbn [Detail]. now apply (dumps_ascii d).
  - exists []. unfold publish_event, try_except, bind, deref, print.
    rewrite Hd. cbn [snd]. world_fields.
    split; [now rewrite app_nil_r | constructor].
Qed.

(** ** The failure diagnostic *)

Lemma hex_digits_no_control (k : nat) (x : Z) :
  forallb no_control (hex_digits k x) = true.
Proof.
  induction k as [| k IH]; [reflexivity |].
  cbn [hex_digits forallb]. rewrite IH, andb_true_r.
  pose proof (hexdigit_ascii (x / 16 ^ Z.of_nat k)) as H.
  unfold printable_ascii in H. apply andb_prop in H as [H1 H2].
  unfold no_control. rewrite H1. apply negb_true_iff. lia.
Qed.

Lemma repr_char_no_control (printable : Z -> bool) (quote c : Z) :
  quote = 34 \/ quote = 39 ->
  forallb no_control (repr_char printable quote c) = true.
Proof.
  intros Hq. unfold repr_char.
  destruct ((c =? quote) || (c =? 92)) eqn:H1.
  - cbn [forallb]. rewrite andb_true_r.
    change (no_control 92) with true. cbn [andb].
    unfold no_control. apply andb_true_intro.
    split; [| apply negb_true_iff]; lia.
  - destruct (c =? 9); [reflexivity |]. destruct (c =? 10); [reflexivity |].
    destruct (c =? 13); [reflexivity |].
    destruct ((c <? 32) || (c =? 127)) eqn:H2.
    + cbn [forallb]. now rewrite hex_digits_no_control.
    + assert (Hc : no_control c = true).
      { unfold no_control. apply andb_true_intro.
        split; [| apply negb_true_iff]; lia. }
      destruct (c <? 127); [cbn [forallb]; now rewrite Hc |].
      destruct (printable c); [cbn [forallb]; now rewrite Hc |].
      destruct (c <=? 255); [cbn [forallb]; now rewrite hex_digits_no_control |].
      destruct (c <=? 65535); cbn [forallb]; now rewrite hex_digits_no_control.
Qed.

Lemma repr_str_no_control (printable : Z -> bool) (s : str) :
  forallb no_control (repr_str printable s) = true.
Proof.
  unfold repr_str.
  set (quote := if mem 39 s && negb (mem 34 s) then 34 else 39).
  assert (Hq : quote = 34 \/ quote = 39).
  { subst quote. destruct (mem 39 s && negb (mem 34 s)); auto. }
  assert (Hqc : no_control quote = true) by (destruct Hq as [-> | ->]; reflexivity).
  cbn [forallb]. rewrite forallb_app. cbn [forallb]. rewrite Hqc.
  cbn [andb]. rewrite andb_true_r. clearbody quote.
  induction s as [| c s IH]; [reflexivity |].
  cbn [flat_map]. now rewrite forallb_app, repr_char_no_control, IH.
Qed.

Lemma join_no_control (parts : list str) :
  Forall (fun p => forallb no_control p = true) parts ->
  forallb no_control (join (u ", ") parts) = true.
Proof.
  induction 1 as [| p pr Hp _ IH]; [reflexivity |].
  destruct pr as [| q pr']; [exact Hp |].
  rewrite join_cons by congruence. rewrite !forallb_app, Hp, IH.
  reflexivity.
Qed.

Lemma repr_entries_no_control (printable : Z -> bool)
      (l : list (list (str * str))) :
  forallb no_control (repr_entries printable l) = true.
Proof.
  assert (Hentry : forall d, forallb no_control (repr_entry printable d) = true).
  { intros d. unfold repr_entry. cbn [app forallb]. rewrite forallb_app.
    cbn [forallb]. change (no_control 123) with true.
    change (no_control 125) with true. cbn [andb]. rewrite andb_true_r.
    apply join_no_control. apply Forall_forall. intros p Hp.
    apply in_map_iff in Hp as ([k v] & <- & _). cbn [fst snd].
    rewrite !forallb_app, !repr_str_no_control. reflexivity. }
  unfold repr_entries. cbn [app forallb]. rewrite forallb_app.
  cbn [forallb]. change (no_control 91) with true.
  change (no_control 93) with true. cbn [andb]. rewrite andb_true_r.
  apply join_no_control. apply Forall_forall. intros p Hp.
  apply in_map_iff in Hp as (d & <- & _). apply Hentry.
Qed.

(** X9. When the reply reports failed entries, [publish_event] prints one
    line, which starts with the failure mark and holds no control character
    (nothing below U+0020, no U+007F): whatever strings the service put in
    the entries, line breaks included, [repr] shows them escaped, so the
    diagnostic stays on one line. *)
Theorem failure_diagnostic_is_one_line
        (E : env) (source detail_type : str) (l : loc) (w : world)
        (d : pyval) (js : str) (resp : response) :
  nth_error (heap w) l = Some d ->
  dumps d = inr js ->
  events_client E (List.length (requests w))
    [ mk_put_entry BUS_NAME source detail_type js (utcnow E (clock_reads w)) ]
  = inr resp ->
  0 < FailedEntryCount resp ->
  exists line,
    stdout (snd (publish_event E source detail_type l w)) = stdout w ++ [line]
    /\ starts_with failed_prefix line = true
    /\ forallb no_control line = true.
Proof.
  intros Hd Hj Hc Hf.
  rewrite (publish_event_run E source detail_type l w d js Hd Hj).
  cbn [snd]. world_fields. rewrite Hc, report_failed by exact Hf.
  eexists. split; [reflexivity |]. split.
  - now apply starts_with_app.
  - rewrite forallb_app, repr_entries_no_control. reflexivity.
Qed.

Lemma failure_diagnostic_is_one_line_witness :
  exists line,
    stdout (snd (publish_event
                   (Stub.env_of 0
                      (fun _ _ =>
                         inr (mk_response 1
                                [ [ (u "ErrorMessage",
                                     u "first" ++ [10; 13; 127; 0; 39]
                                       ++ u "second") ] ])))
                   (u "app.orders") (u "OrderCreated") 0%nat
                   (Stub.one_object (PDict []))))
    = [] ++ [line]
    /\ starts_with failed_prefix line = true
    /\ forallb no_control line = true.
Proof.
  apply (failure_diagnostic_is_one_line
           (Stub.env_of 0
              (fun _ _ =>
                 inr (mk_response 1
                        [ [ (u "ErrorMessage",
                             u "first" ++ [10; 13; 127; 0; 39]
                               ++ u "second") ] ])))
           (u "app.orders") (u "OrderCreated") 0%nat
           (Stub.one_object (PDict [])) (PDict []) (u "{}")
           (mk_response 1
              [ [ (u "ErrorMessage",
                   u "first" ++ [10; 13; 127; 0; 39] ++ u "second") ] ])).
  - reflexivity.
  - reflexivity.
  - reflexivity.
  - cbn [FailedEntryCount]. lia.
Defined.

(** ** The client and the identifiers *)

(** X10. A run talks to one client only, the one [boto3.client] gives for
    the service [events] in the region [us-east-1]: two environments with
    the same Unicode database, random source and clock, whose clients for
    that service and region answer alike, give the same run, whatever their
    clients for other services or regions do. *)
Theorem only_the_events_client_is_used (E1 E2 : env) (w : world) :
  isprintable E1 = isprintable E2 ->
  urandom16 E1 = urandom16 E2 ->
  utcnow E1 = utcnow E2 ->
  (forall n entries,
      boto3_client E1 (u "events") (u "us-east-1") n entries
      = boto3_client E2 (u "events") (u "us-east-1") n entries) ->
  publish_sample_events E1 w = publish_sample_events E2 w.
Proof.
  intros Hp Hr Ht Hc. rewrite !publish_sample_events_cases.
  assert (Hid : run_order_id E1 w = run_order_id E2 w)
    by (unfold run_order_id; now rewrite Hr).
  assert (Htrk : run_tracking_id E1 w = run_tracking_id E2 w)
    by (unfold run_tracking_id; now rewrite Hr).
  assert (Hen : run_entries E1 w = run_entries E2 w).
  { unfold run_entries, entry_for. now rewrite Hid, Htrk, Ht. }
  assert (Hout : forall i, run_outcome E1 w i = run_outcome E2 w i).
  { intros i. unfold run_outcome. rewrite Hen.
    destruct (nth_error (run_entries E2 w) i); [| reflexivity].
    apply Hc. }
  assert (Hrep : forall s t r, report E1 s t r = report E2 s t r).
  { intros s t r. unfold report. now rewrite Hp. }
  unfold run_escape, calls_made, run_printed, run_details.
  now rewrite Hid, Htrk, Hen, !Hout, !Hrep.
Qed.

Lemma only_the_events_client_is_used_witness :
  publish_sample_events (Stub.env_of 7 Stub.failing_second) initial_world
  = publish_sample_events
      (mk_env (fun _ => true) (fun n => 7 + Z.of_nat n * 2 ^ 96)
              (fun n => Z.of_nat n)
              (fun service region =>
                 if Str.eqb service (u "events")
                    && Str.eqb region (u "us-east-1")
                 then Stub.failing_second else Stub.raising)
              (fun _ _ => None))
      initial_world.
Proof.
  apply (only_the_events_client_is_used
           (Stub.env_of 7 Stub.failing_second)
           (mk_env (fun _ => true) (fun n => 7 + Z.of_nat n * 2 ^ 96)
                   (fun n => Z.of_nat n)
                   (fun service region =>
                      if Str.eqb service (u "events")
                         && Str.eqb region (u "us-east-1")
                      then Stub.failing_second else Stub.raising)
                   (fun _ _ => None))
           initial_world).
  - reflexivity.
  - reflexivity.
  - reflexivity.
  - intros n entries. reflexivity.
Defined.

Lemma leading32_shifted (y : Z) :
  0 <= y < 2 ^ 32 -> leading32 (y * 2 ^ 96) = y.
Proof.
  intros Hy. unfold leading32.
  rewrite Z.mod_small.
  - apply Z.div_mul. lia.
  - split; [lia |]. change (2 ^ 128) with (2 ^ 32 * 2 ^ 96).
    apply Z.mul_lt_mono_pos_r; lia.
Qed.

(** X11. The version and variant bits that [uuid4] fixes are outside the
    eight digits the script keeps, so the identifier can take every one of
    the [2^32] values: for a value [y] of 32 bits, the draw [y * 2^96] gives
    [ORD-] followed by the 8 upper-case hexadecimal digits of [y], and
    distinct values of 32 bits give distinct identifiers. *)
Theorem order_ids_cover_32_bits (y : Z) :
  0 <= y < 2 ^ 32 ->
  order_id_of (uuid4_int (y * 2 ^ 96)) = u "ORD-" ++ upper (hex_digits 8 y)
  /\ forall y',
       0 <= y' < 2 ^ 32 ->
       order_id_of (uuid4_int (y' * 2 ^ 96))
       = order_id_of (uuid4_int (y * 2 ^ 96)) ->
       y' = y.
Proof.
  intros Hy. split.
  - now rewrite order_id_of_uuid4, leading32_shifted.
  - intros y' Hy' H. apply order_id_of_uuid4_eq in H.
    now rewrite !leading32_shifted in H.
Qed.

Lemma order_ids_cover_32_bits_witness :
  order_id_of (uuid4_int (439041101 * 2 ^ 96))
  = u "ORD-" ++ upper (hex_digits 8 439041101)
  /\ upper (hex_digits 8 439041101) = u "1A2B3C4D".
Proof.
  split.
  - apply (order_ids_cover_32_bits 439041101). lia.
  - vm_compute. reflexivity.
Defined.
